(** * Smart-Retail-Analytics-Pipeline: normalisation and federation

  A shallow embedding of [normalisation.py] and [federation.py], and of the
  rankings that [main.py] writes into the summary report.

  Conventions used throughout:
  - a pandas cell that is NaN / NaT / None is the constructor [NA] (or
    [None] in typed rows);
  - in [Normalisation] and [Federation] a floating-point number is
    modelled by an exact rational ([Q]), compared with [==], so that sums
    and means there are the exact ones; what these modules establish about
    which cells are filled, joined or grouped does not depend on it, and
    the statements that rest on the value of a sum or a mean say so.
    [Binary64] recomputes sums and means in IEEE 754 binary64, as pandas
    does, where rounding decides;
  - [Federation] gives every [date] column one type; [Interpreter] runs the
    same stages on a store of tables, tracks the type of each [date] column
    (calendar dates or [datetime64]) and raises what pandas raises when a
    merge meets both;
  - temporal values (timestamps and calendar dates) are instants counted in
    seconds ([Z]); a calendar date is the instant of its midnight;
  - a Python [str] is its UTF-8 byte string. *)

From Stdlib Require Import Floats.
From Stdlib Require Import List String Ascii Bool ZArith QArith Qfield Lia Permutation.
From Stdlib Require Import Sorted Qabs.
Import ListNotations.

Local Open Scope Z_scope.

(** ** Rational helpers shared by both modules *)

(** The exact sum of a list of values.  A pandas sum of the same values is
    this number rounded, by an amount that depends on the order of the
    additions ([Binary64.fsum]). *)
Definition Qsum (l : list Q) : Q := fold_right Qplus 0%Q l.

Definition Qlen {A : Type} (l : list A) : Q := inject_Z (Z.of_nat (List.length l)).

(** The exact mean of the already extracted non-missing values: no value
  on an empty selection, where [Series.mean()] with [skipna=True] gives
  NaN.  [Series.mean()] itself returns this number rounded
  ([Binary64.mean]). *)
Definition mean_of (xs : list Q) : option Q :=
match xs with
| [] => None
| _ :: _ => Some (Qsum xs / Qlen xs)%Q
end.

(** Equality of two possibly missing numbers, up to [==]. *)
Definition oQeq (a b : option Q) : Prop :=
match a, b with
| Some x, Some y => (x == y)%Q
| None, None => True
| _, _ => False
end.

(** Insertion sort, used for medians, group keys and [sort_values]. *)
Section Sorting.
Context {A : Type} (leb : A -> A -> bool).

Fixpoint insert_sorted (x : A) (l : list A) : list A :=
  match l with
  | [] => [x]
  | y :: l' => if leb x y then x :: l else y :: insert_sorted x l'
  end.

Fixpoint isort (l : list A) : list A :=
  match l with
  | [] => []
  | x :: l' => insert_sorted x (isort l')
  end.
End Sorting.

(** ** normalisation.py *)

Module Normalisation.

Inductive cell : Type :=
| Str (s : string)
| Num (q : Q)
| NA.

Inductive dtype : Type := DNumber | DObject.

Record Series : Type := mkSeries { s_dtype : dtype; s_values : list cell }.

(** A DataFrame, column by column, in column order. *)
Definition DataFrame : Type := list (string * Series).

Definition dtype_eqb (a b : dtype) : bool :=
  match a, b with
  | DNumber, DNumber | DObject, DObject => true
  | _, _ => false
  end.

Definition isnull (c : cell) : bool :=
  match c with NA => true | _ => false end.

(** [df[col]] and [df[col] = s] *)
Fixpoint get_col (col : string) (df : DataFrame) : option Series :=
  match df with
  | [] => None
  | (n, s) :: df' => if String.eqb col n then Some s else get_col col df'
  end.

Fixpoint set_col (col : string) (v : Series) (df : DataFrame) : DataFrame :=
  match df with
  | [] => [(col, v)]
  | (n, s) :: df' =>
      if String.eqb col n then (n, v) :: df' else (n, s) :: set_col col v df'
  end.

(** *** Text handling *)

Definition byte (n : nat) : ascii := ascii_of_nat n.

Fixpoint contains_char (a : ascii) (s : string) : bool :=
  match s with
  | EmptyString => false
  | String b s' => Ascii.eqb a b || contains_char a s'
  end.

(** ['$' in str(x)]: the text of a number or of a missing value never
    holds a dollar sign. *)
Definition dollar_in_str (c : cell) : bool :=
  match c with
  | Str s => contains_char "$"%char s
  | Num _ | NA => false
  end.

(** [re.sub(r'[\$€,]', '', s)]; the euro sign is the three bytes
    E2 82 AC. *)
Fixpoint strip_currency (s : string) : string :=
  match s with
  | EmptyString => EmptyString
  | String a s1 =>
      if Ascii.eqb a "$"%char || Ascii.eqb a ","%char then strip_currency s1
      else
        match s1 with
        | String b (String c s3) =>
            if Ascii.eqb a (byte 226) && Ascii.eqb b (byte 130)
               && Ascii.eqb c (byte 172)
            then strip_currency s3
            else String a (strip_currency s1)
        | _ => String a (strip_currency s1)
        end
  end.

Definition is_digit (a : ascii) : bool :=
  let n := nat_of_ascii a in (48 <=? n)%nat && (n <=? 57)%nat.

Definition digit_val (a : ascii) : Z := Z.of_nat (nat_of_ascii a) - 48.

Definition is_space (a : ascii) : bool :=
  let n := nat_of_ascii a in
  (n =? 32)%nat || ((9 <=? n)%nat && (n <=? 13)%nat).

Fixpoint read_digits (acc : Z) (cnt : nat) (s : string) : Z * nat * string :=
  match s with
  | String a s' =>
      if is_digit a then read_digits (10 * acc + digit_val a) (S cnt) s'
      else (acc, cnt, s)
  | EmptyString => (acc, cnt, s)
  end.

Fixpoint lstrip (s : string) : string :=
  match s with
  | String a s' => if is_space a then lstrip s' else s
  | EmptyString => s
  end.

Fixpoint all_space (s : string) : bool :=
  match s with
  | String a s' => is_space a && all_space s'
  | EmptyString => true
  end.

Definition read_sign (s : string) : Z * string :=
  match s with
  | String a s' =>
      if Ascii.eqb a "-"%char then (-1, s')
      else if Ascii.eqb a "+"%char then (1, s')
      else (1, s)
  | EmptyString => (1, s)
  end.

Definition pow10 (e : Z) : Q :=
  if 0 <=? e then inject_Z (10 ^ e) else (1 # Z.to_pos (10 ^ (- e)))%Q.

(** The optional exponent part; [None] when an [e] is not followed by
    digits. *)
Definition read_exponent (s : string) : option (Z * string) :=
  match s with
  | String a s' =>
      if Ascii.eqb a "e"%char || Ascii.eqb a "E"%char then
        let '(sg, s1) := read_sign s' in
        let '(e, n, s2) := read_digits 0 0%nat s1 in
        match n with
        | O => None
        | S _ => Some (sg * e, s2)
        end
      else Some (0, s)
  | EmptyString => Some (0, s)
  end.

(** The plain decimal literals among the texts that [float(s)] and
    [pd.to_numeric] read: blanks around, a sign, digits with an optional
    fractional part and an optional exponent; the result is the exact value
    of the literal.  Python reads more than these: [inf], [infinity] and
    [nan] in any case, which have no rational value, underscores between
    digits, and non-ASCII digits and blanks.  So [Some q] here means that
    Python reads the text (as [q], rounded), while [None] does not mean
    that Python rejects it: [Columns.all_literal] bounds what Python can
    read from the other side. *)
Definition parse_float (s : string) : option Q :=
  let '(sg, s1) := read_sign (lstrip s) in
  let '(ip, ni, s2) := read_digits 0 0%nat s1 in
  let '(fp, nf, s3) :=
    match s2 with
    | String a s2' =>
        if Ascii.eqb a "."%char then read_digits 0 0%nat s2' else (0, 0%nat, s2)
    | EmptyString => (0, 0%nat, s2)
    end in
  match (ni + nf)%nat with
  | O => None
  | S _ =>
      match read_exponent s3 with
      | None => None
      | Some (e, s4) =>
          if all_space s4 then
            let scale := 10 ^ Z.of_nat nf in
            Some (Qred ((sg * (ip * scale + fp) # Z.to_pos scale) * pow10 e))
          else None
      end
  end.

(** *** clean_currency *)

(** [series.str.replace(...)]: a cell that is not text comes out missing. *)
Definition str_replace_currency (c : cell) : cell :=
  match c with
  | Str s => Str (strip_currency s)
  | Num _ | NA => NA
  end.

(** [astype(float)] on one cell: [None] stands for the raised ValueError. *)
Definition astype_float_cell (c : cell) : option cell :=
  match c with
  | Str s => match parse_float s with Some q => Some (Num q) | None => None end
  | Num q => Some (Num q)
  | NA => Some NA
  end.

Fixpoint astype_float (l : list cell) : option (list cell) :=
  match l with
  | [] => Some []
  | c :: l' =>
      match astype_float_cell c, astype_float l' with
      | Some c', Some r => Some (c' :: r)
      | _, _ => None
      end
  end.

Definition clean_currency (s : Series) : option Series :=
  match astype_float (map str_replace_currency (s_values s)) with
  | Some vs => Some (mkSeries DNumber vs)
  | None => None
  end.

(** *** normalize_numeric *)

(** [pd.to_numeric(series, errors='coerce')] *)
Definition to_numeric_cell (c : cell) : cell :=
  match c with
  | Str s => match parse_float s with Some q => Num q | None => NA end
  | Num q => Num q
  | NA => NA
  end.

Definition to_numeric_coerce (s : Series) : Series :=
  mkSeries DNumber (map to_numeric_cell (s_values s)).

(** The body of the [try] for one column; [None] is a raised exception
    ([iloc[0]] on an empty column, or a cell [float] cannot read). *)
Definition convert_numeric (s : Series) : option Series :=
  match s_dtype s with
  | DObject =>
      match s_values s with
      | [] => None
      | c0 :: _ =>
          if dollar_in_str c0 then clean_currency s
          else Some (to_numeric_coerce s)
      end
  | DNumber => Some (to_numeric_coerce s)
  end.

Definition normalize_numeric_col (df : DataFrame) (col : string) : DataFrame :=
  match get_col col df with
  | None => df
  | Some s =>
      match convert_numeric s with
      | Some s' => set_col col s' df
      | None => df
      end
  end.

Definition normalize_numeric (df : DataFrame) (numeric_columns : list string)
  : DataFrame :=
  fold_left normalize_numeric_col numeric_columns df.

(** *** handle_missing_values *)

Definition count_null (s : Series) : nat :=
  List.length (filter isnull (s_values s)).

(** [df.isnull().sum().sum()] *)
Definition missing_total (df : DataFrame) : nat :=
  fold_right (fun ns acc => (count_null (snd ns) + acc)%nat) 0%nat df.

Fixpoint present (l : list cell) : list Q :=
  match l with
  | [] => []
  | Num q :: l' => q :: present l'
  | _ :: l' => present l'
  end.

Definition series_mean (s : Series) : option Q := mean_of (present (s_values s)).

Definition Qleb (a b : Q) : bool := Qle_bool a b.

Definition median_of (xs : list Q) : option Q :=
  let sorted := isort Qleb xs in
  let n := List.length sorted in
  match n with
  | O => None
  | S _ =>
      if Nat.odd n then Some (nth (n / 2) sorted 0%Q)
      else Some ((nth (n / 2 - 1) sorted 0 + nth (n / 2) sorted 0) / 2)%Q
  end.

Definition series_median (s : Series) : option Q :=
  median_of (present (s_values s)).

(** [series.fillna(v)]; filling with NaN changes nothing. *)
Definition fillna_cell (v : option Q) (c : cell) : cell :=
  match c, v with
  | NA, Some q => Num q
  | _, _ => c
  end.

Definition fillna (v : option Q) (s : Series) : Series :=
  mkSeries (s_dtype s) (map (fillna_cell v) (s_values s)).

(** [df.fillna(0)] *)
Definition fillna_zero (df : DataFrame) : DataFrame :=
  map (fun ns => (fst ns, fillna (Some 0%Q) (snd ns))) df.

Definition nrows (df : DataFrame) : nat :=
  match df with
  | [] => 0%nat
  | (_, s) :: _ => List.length (s_values s)
  end.

Fixpoint and_mask (m : list bool) (l : list cell) : list bool :=
  match m, l with
  | b :: m', c :: l' => (b && negb (isnull c)) :: and_mask m' l'
  | _, _ => []
  end.

Fixpoint keep_rows {A : Type} (m : list bool) (l : list A) : list A :=
  match m, l with
  | b :: m', x :: l' => if b then x :: keep_rows m' l' else keep_rows m' l'
  | _, _ => []
  end.

(** [df.dropna()]: rows holding a missing cell in any column go. *)
Definition dropna (df : DataFrame) : DataFrame :=
  let mask :=
    fold_left (fun m ns => and_mask m (s_values (snd ns))) df
              (repeat true (nrows df)) in
  map (fun ns => (fst ns, mkSeries (s_dtype (snd ns))
                                   (keep_rows mask (s_values (snd ns))))) df.

(** [df.select_dtypes(include=[np.number]).columns] *)
Definition numeric_cols (df : DataFrame) : list string :=
  map fst (filter (fun ns => dtype_eqb (s_dtype (snd ns)) DNumber) df).

(** One turn of the loop over the numeric columns. *)
Definition fill_col (strategy : string) (df : DataFrame) (col : string)
  : DataFrame :=
  match get_col col df with
  | None => df
  | Some s =>
      if existsb isnull (s_values s) then
        let fill_value :=
          if String.eqb strategy "mean" then series_mean s
          else series_median s in
        set_col col (fillna fill_value s) df
      else df
  end.

Definition handle_missing_values (df : DataFrame) (strategy : string)
  : DataFrame :=
  if (missing_total df =? 0)%nat then df
  else if String.eqb strategy "drop" then dropna df
  else if String.eqb strategy "zero" then fillna_zero df
  else if String.eqb strategy "mean" || String.eqb strategy "median" then
    fold_left (fill_col strategy) (numeric_cols df) df
  else df.

(** *** Vocabulary of the properties *)

Definition count_na (l : list cell) : nat := List.length (filter isnull l).

(** What the loop of the mean strategy maintains for a column [c]. *)
Definition keeps_mean (c : string) (s0 : Series) (df : DataFrame) : Prop :=
  exists s, get_col c df = Some s /\ oQeq (series_mean s) (series_mean s0).

End Normalisation.

(** ** federation.py *)

Module Federation.

(** Length of a day, in the unit of instants. *)
Definition one_day : Z := 86400.

(** [timestamp.dt.date]: the midnight that starts the day of [t]. *)
Definition dt_date (t : Z) : Z := one_day * (t / one_day).

(** *** The four sources *)

Record Order : Type := mkOrder {
  o_order_id : Z;
  o_product_id : option Z;
  o_order_date : option Z;
  o_quantity : option Q;
  o_total_amount : option Q;
  o_country : option string
}.

(** The orders table, without or with its [date] column. *)
Inductive OrdersDF : Type :=
| OrdersNoDate (rows : list Order)
| OrdersDated (rows : list (Order * option Z)).

Record Campaign : Type := mkCampaign {
  c_campaign_name : option string;
  c_product_id : option Z;
  c_start_date : option Z;
  c_end_date : option Z
}.

Record Traffic : Type := mkTraffic {
  t_date : option Z;
  t_pageviews : option Q;
  t_sessions : option Q
}.

Record Reading : Type := mkReading {
  i_timestamp : option Z;
  i_footfall : option Q;
  i_temperature : option Q
}.

(** The IoT table, without or with its [date] column. *)
Inductive IotDF : Type :=
| IotNoDate (rows : list Reading)
| IotDated (rows : list (Reading * option Z)).

(** The dictionary [data] handed to [federate_all]: the four table objects
    the caller keeps a reference to. *)
Record Sources : Type := mkSources {
  orders : OrdersDF;
  marketing : list Campaign;
  web_traffic : list Traffic;
  iot : IotDF
}.

(** *** pandas primitives *)

Definition oeqb {K : Type} (keq : K -> K -> bool) (a b : option K) : bool :=
  match a, b with
  | Some x, Some y => keq x y
  | None, None => true
  | _, _ => false
  end.

(** A column of the right-hand table read on a joined row; missing when the
    left row found no partner. *)
Definition rcol {R A : Type} (f : R -> option A) (r : option R) : option A :=
  match r with
  | Some x => f x
  | None => None
  end.

(** [left.merge(right, on=key, how='left')]: left rows in order, each with
    every right row of the same key (missing keys match each other), or
    alone when there is none. *)
Definition merge_left {L R K : Type} (keq : K -> K -> bool)
    (kl : L -> option K) (kr : R -> option K)
    (left : list L) (right : list R) : list (L * option R) :=
  flat_map
    (fun l =>
       match filter (fun r => oeqb keq (kl l) (kr r)) right with
       | [] => [(l, None)]
       | rs => map (fun r => (l, Some r)) rs
       end)
    left.

Fixpoint somes {A : Type} (l : list (option A)) : list A :=
  match l with
  | [] => []
  | Some x :: l' => x :: somes l'
  | None :: l' => somes l'
  end.

(** [sum()] and [mean()] of a column skip missing cells. *)
Definition sum_skipna (l : list (option Q)) : Q := Qsum (somes l).
Definition mean_skipna (l : list (option Q)) : option Q := mean_of (somes l).

Fixpoint dedup {K : Type} (keq : K -> K -> bool) (l : list K) : list K :=
  match l with
  | [] => []
  | x :: l' => if existsb (keq x) l' then dedup keq l' else x :: dedup keq l'
  end.

(** The group labels of [groupby(key)]: the distinct non-missing keys, in
    increasing order. *)
Definition group_keys {K : Type} (keq kleb : K -> K -> bool)
    (ks : list (option K)) : list K :=
  isort kleb (dedup keq (somes ks)).

(** [df.groupby(key)]: rows with a missing key belong to no group. *)
Definition groupby {R K : Type} (keq kleb : K -> K -> bool)
    (key : R -> option K) (rows : list R) : list (K * list R) :=
  map (fun k => (k, filter (fun r => oeqb keq (key r) (Some k)) rows))
      (group_keys keq kleb (map key rows)).

(** [astype(int)] on a float column: the cast to [int64], which truncates
    towards zero; a value whose truncation does not fit in 64 bits comes
    out as the least [int64] (what the x86-64 conversion yields). *)
Definition int64_min : Z := - 2 ^ 63.

Definition int64_max : Z := 2 ^ 63 - 1.

Definition astype_int (q : Q) : Z :=
  let t := Z.quot (Qnum q) (Zpos (Qden q)) in
  if (int64_min <=? t) && (t <=? int64_max) then t else int64_min.

Definition ge_cell (a b : option Z) : bool :=
  match a, b with
  | Some x, Some y => y <=? x
  | _, _ => false
  end.

Definition le_cell (a b : option Z) : bool :=
  match a, b with
  | Some x, Some y => x <=? y
  | _, _ => false
  end.

(** *** merge_orders_marketing *)

Record MRow : Type := mkMRow {
  m_order : Order;
  m_date : option Z;
  m_campaign_name : option string;
  m_start_date : option Z;
  m_end_date : option Z;
  m_in_campaign : bool
}.

Definition orders_has_date (o : OrdersDF) : bool :=
  match o with
  | OrdersNoDate _ => false
  | OrdersDated _ => true
  end.

(** [if 'date' not in orders.columns: orders['date'] = orders['order_date']],
    an assignment on the caller's table.  The new column holds the order
    timestamps themselves and keeps their type, [datetime64], whereas the
    normalisers write calendar dates; this module does not tell the two
    types apart, [Interpreter.merge_orders_marketing] does. *)
Definition orders_add_date (o : OrdersDF) : OrdersDF :=
  match o with
  | OrdersNoDate rows => OrdersDated (map (fun r => (r, o_order_date r)) rows)
  | OrdersDated rows => OrdersDated rows
  end.

(** The rows of the orders table with their [date] cell, as the merge reads
    them once the column is there. *)
Definition orders_rows (o : OrdersDF) : list (Order * option Z) :=
  match o with
  | OrdersNoDate rows => map (fun r => (r, o_order_date r)) rows
  | OrdersDated rows => rows
  end.

Definition flag_campaign (j : (Order * option Z) * option Campaign) : MRow :=
  let date := snd (fst j) in
  let start_date := rcol c_start_date (snd j) in
  let end_date := rcol c_end_date (snd j) in
  let in_campaign := ge_cell date start_date && le_cell date end_date in
  {| m_order := fst (fst j);
     m_date := date;
     m_campaign_name :=
       if in_campaign then rcol c_campaign_name (snd j)
       else Some "No Campaign"%string;
     m_start_date := start_date;
     m_end_date := end_date;
     m_in_campaign := in_campaign |}.

(** Returns the caller's [orders] object as the call leaves it, and the new
    table. *)
Definition merge_orders_marketing (orders : OrdersDF) (marketing : list Campaign)
  : OrdersDF * list MRow :=
  let orders' := orders_add_date orders in
  let merged :=
    merge_left Z.eqb (fun od => o_product_id (fst od)) c_product_id
               (orders_rows orders') marketing in
  (orders', map flag_campaign merged).

(** *** merge_with_web_traffic *)

Record WebAgg : Type := mkWebAgg {
  wa_date : Z;
  wa_pageviews : Q;
  wa_sessions : Q
}.

Record WRow : Type := mkWRow {
  w_base : MRow;
  w_pageviews : Z;
  w_sessions : Z
}.

Definition web_agg (web_traffic : list Traffic) : list WebAgg :=
  map (fun g => {| wa_date := fst g;
                   wa_pageviews := sum_skipna (map t_pageviews (snd g));
                   wa_sessions := sum_skipna (map t_sessions (snd g)) |})
      (groupby Z.eqb Z.leb t_date web_traffic).

Definition fill_zero_int (v : option Q) : Z :=
  match v with
  | Some q => astype_int q
  | None => 0
  end.

Definition merge_with_web_traffic (data : list MRow) (web_traffic : list Traffic)
  : list WRow :=
  let merged :=
    merge_left Z.eqb m_date (fun a => Some (wa_date a)) data
               (web_agg web_traffic) in
  map (fun j =>
         {| w_base := fst j;
            w_pageviews :=
              fill_zero_int (rcol (fun a => Some (wa_pageviews a)) (snd j));
            w_sessions :=
              fill_zero_int (rcol (fun a => Some (wa_sessions a)) (snd j)) |})
      merged.

(** *** merge_with_iot *)

Record IotAgg : Type := mkIotAgg {
  ia_date : Z;
  ia_footfall : option Q;
  ia_temperature : option Q
}.

Record URow : Type := mkURow {
  u_base : WRow;
  u_footfall : option Q;
  u_temperature : option Q
}.

Definition iot_has_date (i : IotDF) : bool :=
  match i with
  | IotNoDate _ => false
  | IotDated _ => true
  end.

(** [if 'date' not in iot.columns: iot['date'] = ...], again on the caller's
    table: the calendar dates of the timestamps, converted back to
    [datetime64] by the second assignment; the type is tracked in
    [Interpreter.merge_with_iot]. *)
Definition iot_add_date (i : IotDF) : IotDF :=
  match i with
  | IotNoDate rows =>
      IotDated (map (fun r => (r, option_map dt_date (i_timestamp r))) rows)
  | IotDated rows => IotDated rows
  end.

Definition iot_rows (i : IotDF) : list (Reading * option Z) :=
  match i with
  | IotNoDate rows =>
      map (fun r => (r, option_map dt_date (i_timestamp r))) rows
  | IotDated rows => rows
  end.

Definition iot_agg (rows : list (Reading * option Z)) : list IotAgg :=
  map (fun g =>
         {| ia_date := fst g;
            ia_footfall :=
              mean_skipna (map (fun r => i_footfall (fst r)) (snd g));
            ia_temperature :=
              mean_skipna (map (fun r => i_temperature (fst r)) (snd g)) |})
      (groupby Z.eqb Z.leb snd rows).

Definition fill_with (v : option Q) (c : option Q) : option Q :=
  match c with
  | Some q => Some q
  | None => v
  end.

Definition merge_with_iot (data : list WRow) (iot : IotDF)
  : IotDF * list URow :=
  let iot' := iot_add_date iot in
  let merged :=
    merge_left Z.eqb (fun w => m_date (w_base w)) (fun a => Some (ia_date a))
               data (iot_agg (iot_rows iot')) in
  let footfall := map (fun j => rcol ia_footfall (snd j)) merged in
  let temperature := map (fun j => rcol ia_temperature (snd j)) merged in
  let footfall_mean := mean_skipna footfall in
  let temperature_mean := mean_skipna temperature in
  (iot',
   map (fun j =>
          {| u_base := fst j;
             u_footfall := fill_with footfall_mean (rcol ia_footfall (snd j));
             u_temperature :=
               fill_with temperature_mean (rcol ia_temperature (snd j)) |})
       merged).

(** *** create_aggregations *)

Definition u_order (u : URow) : Order := m_order (w_base (u_base u)).
Definition u_date (u : URow) : option Z := m_date (w_base (u_base u)).
Definition u_in_campaign (u : URow) : bool := m_in_campaign (w_base (u_base u)).
Definition u_campaign_name (u : URow) : option string :=
  m_campaign_name (w_base (u_base u)).
Definition u_product_id (u : URow) : option Z := o_product_id (u_order u).
Definition u_country (u : URow) : option string := o_country (u_order u).
Definition u_total_amount (u : URow) : option Q := o_total_amount (u_order u).
Definition u_quantity (u : URow) : option Q := o_quantity (u_order u).
Definition u_order_date (u : URow) : option Z := o_order_date (u_order u).

Record Rollup (K : Type) : Type := mkRollup {
  r_key : K;
  r_total_amount : Q;
  r_quantity : Q;
  r_order_count : nat
}.
Arguments mkRollup {K}.
Arguments r_key {K}.
Arguments r_total_amount {K}.
Arguments r_quantity {K}.
Arguments r_order_count {K}.

Record DailyRow : Type := mkDailyRow {
  d_sales : Rollup Z;
  d_pageviews : option Z;
  d_sessions : option Z
}.

Record Aggregations : Type := mkAggregations {
  daily_sales : list DailyRow;
  campaign_sales : list (Rollup string);
  product_sales : list (Rollup Z);
  country_sales : list (Rollup string)
}.

(** [.agg({'total_amount': 'sum', 'quantity': 'sum', 'order_date': 'count'})]
    on one group. *)
Definition agg_sales {K : Type} (g : K * list URow) : Rollup K :=
  {| r_key := fst g;
     r_total_amount := sum_skipna (map u_total_amount (snd g));
     r_quantity := sum_skipna (map u_quantity (snd g));
     r_order_count := List.length (somes (map u_order_date (snd g))) |}.

Definition rollup {K : Type} (keq kleb : K -> K -> bool)
    (key : URow -> option K) (data : list URow) : list (Rollup K) :=
  map agg_sales (groupby keq kleb key data).

(** [sort_values('total_amount', ascending=False)]; rows of equal amount
    keep their order here. *)
Definition sort_by_amount {K : Type} (l : list (Rollup K)) : list (Rollup K) :=
  isort (fun a b => Qle_bool (r_total_amount b) (r_total_amount a)) l.

Definition create_aggregations (data : list URow) : Aggregations :=
  {| daily_sales :=
       map (fun g =>
              {| d_sales := agg_sales g;
                 d_pageviews :=
                   hd_error (map (fun u => w_pageviews (u_base u)) (snd g));
                 d_sessions :=
                   hd_error (map (fun u => w_sessions (u_base u)) (snd g)) |})
           (groupby Z.eqb Z.leb u_date data);
     campaign_sales :=
       sort_by_amount
         (rollup String.eqb String.leb u_campaign_name
                 (filter u_in_campaign data));
     product_sales := sort_by_amount (rollup Z.eqb Z.leb u_product_id data);
     country_sales :=
       sort_by_amount (rollup String.eqb String.leb u_country data) |}.

(** [data['total_amount'].sum()] over the whole table. *)
Definition total_sales (data : list URow) : Q :=
  sum_skipna (map u_total_amount data).

Definition rollup_total {K : Type} (l : list (Rollup K)) : Q :=
  Qsum (map r_total_amount l).

(** *** federate_all *)

(** The first component is the caller's [data] as the calls leave it. *)
Definition federate_all (data : Sources)
  : Sources * (list URow * Aggregations) :=
  let '(orders', merged) := merge_orders_marketing (orders data) (marketing data) in
  let merged := merge_with_web_traffic merged (web_traffic data) in
  let '(iot', merged) := merge_with_iot merged (iot data) in
  let aggregations := create_aggregations merged in
  ({| orders := orders';
      marketing := marketing data;
      web_traffic := web_traffic data;
      iot := iot' |},
   (merged, aggregations)).

(** The Unified Sales Record table: what the three merges of [federate_all]
    return. *)
Definition unified_sales (data : Sources) : list URow :=
  fst (snd (federate_all data)).

(** *** Vocabulary of the properties *)

(** The right rows a left row is merged with. *)
Definition partners {L R K : Type} (keq : K -> K -> bool)
    (kl : L -> option K) (kr : R -> option K) (right : list R) (l : L) : list R :=
  filter (fun r => oeqb keq (kl l) (kr r)) right.

(** Two campaigns of one product whose windows share an instant. *)
Definition windows_overlap (c1 c2 : Campaign) : bool :=
  oeqb Z.eqb (c_product_id c1) (c_product_id c2)
  && le_cell (c_start_date c1) (c_end_date c2)
  && le_cell (c_start_date c2) (c_end_date c1).

Fixpoint no_overlapping_campaigns (l : list Campaign) : bool :=
  match l with
  | [] => true
  | c :: l' =>
      forallb (fun c' => negb (windows_overlap c c')) l'
      && no_overlapping_campaigns l'
  end.

(** No campaign row shares its product with a later one. *)
Fixpoint one_campaign_per_product (l : list Campaign) : bool :=
  match l with
  | [] => true
  | c :: l' =>
      negb (existsb (fun c' => oeqb Z.eqb (c_product_id c) (c_product_id c')) l')
      && one_campaign_per_product l'
  end.

(** Some campaign row carries the product of the order. *)
Definition product_has_campaign (o : Order) (marketing : list Campaign) : bool :=
  existsb (fun c => oeqb Z.eqb (o_product_id o) (c_product_id c)) marketing.

Definition date_in_traffic (d : Z) (web_traffic : list Traffic) : bool :=
  existsb (fun t => oeqb Z.eqb (t_date t) (Some d)) web_traffic.

Definition date_in_iot (d : Z) (iot : IotDF) : bool :=
  existsb (fun r => oeqb Z.eqb (snd r) (Some d)) (iot_rows iot).

(** The value a missing cell counts for in a sum. *)
Definition skipna (v : option Q) : Q :=
  match v with
  | Some q => q
  | None => 0%Q
  end.

Definition is_some {A : Type} (v : option A) : bool :=
  match v with
  | Some _ => true
  | None => false
  end.

(** The row of the per-date IoT aggregate for a date, if any. *)
Definition iot_lookup (agg : list IotAgg) (d : option Z) : option IotAgg :=
  find (fun a => oeqb Z.eqb d (Some (ia_date a))) agg.

(** The footfall and temperature columns of the table joined with the
    per-date IoT aggregate, before filling: one cell per row of [data]. *)
Definition joined_footfall (data : list WRow) (iot : IotDF) : list (option Q) :=
  map (fun w => rcol ia_footfall
                  (iot_lookup (iot_agg (iot_rows iot)) (m_date (w_base w))))
      data.

Definition joined_temperature (data : list WRow) (iot : IotDF) : list (option Q) :=
  map (fun w => rcol ia_temperature
                  (iot_lookup (iot_agg (iot_rows iot)) (m_date (w_base w))))
      data.

(** The mean over the dates of the per-date IoT aggregate, one value per
    date. *)
Definition per_date_mean (f : IotAgg -> option Q) (iot : IotDF) : option Q :=
  mean_skipna (map f (iot_agg (iot_rows iot))).

End Federation.

(** ** Sample tables *)

Module Samples.
Import Normalisation Federation.

Definition day (n : Z) : Z := n * one_day.

(** A text column of prices in euros. *)
Definition euro_prices : DataFrame :=
  [("total_amount"%string, mkSeries DObject [Str "€99"])].

(** A text column whose first price is in dollars. *)
Definition mixed_prices : DataFrame :=
  [("total_amount"%string, mkSeries DObject [Str "$1,234.50"; Str "€99"])].

(** A price column in dollars with one cell that is no amount. *)
Definition prices_with_note : DataFrame :=
  [("total_amount"%string,
    mkSeries DObject [Str "$1,234.50"; Str "n/a"; Str "$7"])].

(** A numeric column in which no cell has a value. *)
Definition no_readings : DataFrame :=
  [("footfall"%string, mkSeries DNumber [NA; NA]);
   ("temperature"%string, mkSeries DNumber [Num 20; NA])].

Definition gappy : DataFrame :=
  [("quantity"%string, mkSeries DNumber [Num 1; NA; Num 2]);
   ("country"%string, mkSeries DObject [Str "FR"; Str "US"; NA])].

Definition order_on (id prod : Z) (d : Z) (amount : Q) (c : option string)
  : Order * option Z :=
  (mkOrder id (Some prod) (Some (day d + 3600)) (Some 1%Q) (Some amount) c,
   Some (day d)).

(** One order of product 10; product 10 has a January and a March campaign. *)
Definition two_campaigns : Sources :=
  {| orders := OrdersDated [order_on 1 10 5 100 (Some "FR"%string)];
     marketing :=
       [mkCampaign (Some "Jan Sale"%string) (Some 10) (Some (day 1)) (Some (day 31));
        mkCampaign (Some "Mar Sale"%string) (Some 10) (Some (day 60)) (Some (day 90))];
     web_traffic := [];
     iot := IotDated [] |}.

Definition reading_on (d : Z) (footfall temperature : Q) : Reading * option Z :=
  (mkReading (Some (day d + 7200)) (Some footfall) (Some temperature),
   Some (day d)).

(** IoT readings on days 1 and 2 only. *)
Definition iot_two_days : IotDF :=
  IotDated [reading_on 1 10 20; reading_on 2 30 24].

Definition wrow_on (d : Z) : WRow :=
  {| w_base :=
       {| m_order := fst (order_on 1 10 d 100 (Some "FR"%string));
          m_date := Some (day d);
          m_campaign_name := Some "No Campaign"%string;
          m_start_date := None;
          m_end_date := None;
          m_in_campaign := false |};
     w_pageviews := 0;
     w_sessions := 0 |}.

(** Two orders on day 1, none on day 2, one on day 3. *)
Definition orders_days_1_1_3 : list WRow := [wrow_on 1; wrow_on 1; wrow_on 3].

Definition urow_of (od : Order * option Z) : URow :=
  {| u_base :=
       {| w_base :=
            {| m_order := fst od;
               m_date := snd od;
               m_campaign_name := Some "No Campaign"%string;
               m_start_date := None;
               m_end_date := None;
               m_in_campaign := false |};
          w_pageviews := 0;
          w_sessions := 0 |};
     u_footfall := None;
     u_temperature := None |}.


Definition two_countries : list URow :=
  [urow_of (order_on 1 10 5 100 (Some "FR"%string));
   urow_of (order_on 2 11 5 50 (Some "US"%string));
   urow_of (order_on 3 10 6 100 (Some "FR"%string))].

(** Three orders, one January campaign for product 10, traffic on day 5
    only, IoT readings on day 40 only. *)
Definition scenario : Sources :=
  {| orders :=
       OrdersDated [order_on 1 10 5 100 (Some "FR"%string);
                    order_on 2 5 5 50 (Some "US"%string);
                    order_on 3 10 32 100 (Some "FR"%string)];
     marketing :=
       [mkCampaign (Some "Jan Sale"%string) (Some 10) (Some (day 1)) (Some (day 31))];
     web_traffic := [mkTraffic (Some (day 5)) (Some 500%Q) (Some 40%Q)];
     iot := IotDated [reading_on 40 30 22] |}.

(** The tables of [scenario], the orders handed over without their [date]
    column. *)
Definition scenario_undated : Sources :=
  {| orders := OrdersNoDate (map fst (orders_rows (orders scenario)));
     marketing := marketing scenario;
     web_traffic := web_traffic scenario;
     iot := iot scenario |}.

(** One order of day 20 for product 10, which has two campaigns running on
    that day. *)
Definition overlapping_orders : OrdersDF :=
  OrdersDated [order_on 1 10 20 100 (Some "FR"%string)].

Definition winter_sale : Campaign :=
  mkCampaign (Some "Winter"%string) (Some 10) (Some (day 1)) (Some (day 31)).

Definition flash_sale : Campaign :=
  mkCampaign (Some "Flash"%string) (Some 10) (Some (day 15)) (Some (day 25)).

(** A campaign whose end date is missing, and one that ends before it
    starts. *)
Definition open_ended : Campaign :=
  mkCampaign (Some "Open"%string) (Some 11) (Some (day 1)) None.

Definition reversed : Campaign :=
  mkCampaign (Some "Reversed"%string) (Some 12) (Some (day 9)) (Some (day 2)).

(** Two traffic records on day 5, one of them without session count. *)
Definition busy_day : list Traffic :=
  [mkTraffic (Some (day 5)) (Some 500%Q) (Some 40%Q);
   mkTraffic (Some (day 6)) (Some 70%Q) (Some 7%Q);
   mkTraffic (Some (day 5)) (Some 300%Q) None].

(** Product 10 sells for 50 and product 11 for 200. *)
Definition best_seller_last : list URow :=
  [urow_of (order_on 1 10 5 50 (Some "FR"%string));
   urow_of (order_on 2 11 5 200 (Some "US"%string))].

(** Rows 0 and 1 of the unified table of [scenario]. *)
Definition scenario_row (i : nat) : URow :=
  nth i (unified_sales scenario) (urow_of (order_on 0 0 0 0 None)).

(** The table [merge_with_iot] receives in [scenario]. *)
Definition scenario_with_traffic : list WRow :=
  merge_with_web_traffic
    (snd (merge_orders_marketing (orders scenario) (marketing scenario)))
    (web_traffic scenario).

(** The first row of the by-day rollup of [scenario]. *)
Definition scenario_first_day : DailyRow :=
  nth 0 (daily_sales (snd (snd (federate_all scenario))))
      (mkDailyRow (mkRollup 0 0%Q 0%Q 0%nat) None None).

(** An order placed one hour into day 31, the last day of [winter_sale],
    paired with it on the day of the order and on its timestamp. *)
Definition late_order : Order := fst (order_on 1 10 31 100 (Some "FR"%string)).

Definition late_order_by_day : MRow :=
  flag_campaign ((late_order, Some (day 31)), Some winter_sale).

Definition late_order_by_timestamp : MRow :=
  flag_campaign ((late_order, Some (day 31 + 3600)), Some winter_sale).

Definition mrow_on (d : Z) : MRow := w_base (wrow_on d).

(** The output row of an order of day [d] paired with a campaign running
    from day [s] to day [e]. *)
Definition paired_row (d s e : Z) : MRow :=
  flag_campaign
    (order_on 1 10 d 100 (Some "FR"%string),
     Some (mkCampaign (Some "Sale"%string) (Some 10) (Some (day s)) (Some (day e)))).

End Samples.

(** ** Vocabulary for whole tables *)

Module Columns.
Import Normalisation.

(** Column labels are pairwise distinct. *)
Fixpoint unique_names (df : DataFrame) : bool :=
  match df with
  | [] => true
  | ns :: df' =>
      negb (existsb (fun ms => String.eqb (fst ns) (fst ms)) df')
      && unique_names df'
  end.

(** Labels and lengths of the columns, in column order. *)
Definition shape (df : DataFrame) : list (string * nat) :=
  map (fun ns => (fst ns, List.length (s_values (snd ns)))) df.

Definition is_text (c : cell) : bool :=
  match c with
  | Str _ => true
  | Num _ | NA => false
  end.

Definition has_column (df : DataFrame) (col : string) : bool :=
  match get_col col df with
  | Some _ => true
  | None => false
  end.

(** The first cell of the column shows a dollar sign. *)
Definition dollar_first (s : Series) : bool :=
  match s_values s with
  | c0 :: _ => dollar_in_str c0
  | [] => false
  end.

(** The bytes that can occur in a text that [float(s)] reads: digits,
    signs, the point, the underscore, the exponent mark, the letters of
    [inf], [infinity] and [nan] in either case, blanks (tab to carriage
    return, 0x1c to 0x20), and the bytes of non-ASCII characters, among
    which Python knows further digits and blanks. *)
Definition literal_char (a : ascii) : bool :=
  let n := nat_of_ascii a in
  is_digit a
  || is_space a
  || ((28 <=? n)%nat && (n <=? 31)%nat)
  || existsb (Nat.eqb n)
       [43; 45; 46; 95;
        65; 69; 70; 73; 78; 84; 89;
        97; 101; 102; 105; 110; 116; 121]%nat
  || (128 <=? n)%nat.

Fixpoint all_literal (s : string) : bool :=
  match s with
  | EmptyString => true
  | String a s' => literal_char a && all_literal s'
  end.

(** A text cell that, once the currency signs are gone, still holds a
    character that no float literal has: [float] raises [ValueError] on
    it. *)
Definition unreadable_amount (c : cell) : bool :=
  match c with
  | Str t => negb (all_literal (strip_currency t))
  | Num _ | NA => false
  end.

(** A column after its turn in the loop of the mean and median
    strategies. *)
Definition filled (strategy : string) (s : Series) : Series :=
  if existsb isnull (s_values s) then
    fillna (if String.eqb strategy "mean" then series_mean s
            else series_median s) s
  else s.

(** What the mean and median strategies make of one column. *)
Definition fill_series (strategy : string) (s : Series) : Series :=
  if dtype_eqb (s_dtype s) DNumber then filled strategy s else s.

(** The turn of the column named [n], seen on one column of the table. *)
Definition fill_named (strategy n : string) (ns : string * Series)
  : string * Series :=
  if String.eqb n (fst ns) then (fst ns, filled strategy (snd ns)) else ns.

Definition fill_numeric (strategy : string) (df : DataFrame) : DataFrame :=
  map (fun ns =>
         if dtype_eqb (s_dtype (snd ns)) DNumber
         then (fst ns, filled strategy (snd ns))
         else ns)
      df.

(** Every column has [n] cells. *)
Definition rectangular (df : DataFrame) (n : nat) : bool :=
  forallb (fun ns => (List.length (s_values (snd ns)) =? n)%nat) df.

(** Row [i] holds no missing cell, in any column. *)
Definition row_complete (df : DataFrame) (i : nat) : bool :=
  forallb (fun ns => negb (isnull (nth i (s_values (snd ns)) NA))) df.

(** A cell of the first column is at the same place in the second. *)
Definition keeps_values (s s' : Series) : Prop :=
  s_dtype s' = s_dtype s
  /\ List.length (s_values s') = List.length (s_values s)
  /\ forall i c, nth_error (s_values s) i = Some c -> c <> NA ->
                 nth_error (s_values s') i = Some c.

End Columns.

(** ** The steps that hand the tables to the join engine *)

Module Preparation.
Import Federation.

Definition lt_cell (a b : option Z) : bool :=
  match a, b with
  | Some x, Some y => x <? y
  | _, _ => false
  end.

(** [end_date < start_date] and [end_date >= start_date] on one campaign; a
    comparison with a missing date is false. *)
Definition invalid_campaign (c : Campaign) : bool :=
  lt_cell (c_end_date c) (c_start_date c).

Definition valid_campaign (c : Campaign) : bool :=
  ge_cell (c_end_date c) (c_start_date c).

(** The filter that closes [normalize_marketing]:
    [invalid = df[end < start]; if len(invalid) > 0: df = df[end >= start]]. *)
Definition normalize_marketing_filter (df_clean : list Campaign) : list Campaign :=
  let invalid := filter invalid_campaign df_clean in
  if (0 <? List.length invalid)%nat then filter valid_campaign df_clean
  else df_clean.

(** The last assignment of [normalize_orders]:
    [df_clean['date'] = df_clean['order_date'].dt.date]. *)
Definition normalize_orders_date (rows : list Order) : OrdersDF :=
  OrdersDated (map (fun r => (r, option_map dt_date (o_order_date r))) rows).

(** The last assignment of [normalize_iot]:
    [df_clean['date'] = df_clean['timestamp'].dt.date]. *)
Definition normalize_iot_date (rows : list Reading) : IotDF :=
  IotDated (map (fun r => (r, option_map dt_date (i_timestamp r))) rows).

(** The campaign rows of the product of an order. *)
Definition campaigns_of (marketing : list Campaign) (od : Order * option Z)
  : list Campaign :=
  filter (fun c => oeqb Z.eqb (o_product_id (fst od)) (c_product_id c)) marketing.

(** The traffic records and the IoT readings of one date. *)
Definition traffic_on (d : Z) (web_traffic : list Traffic) : list Traffic :=
  filter (fun t => oeqb Z.eqb (t_date t) (Some d)) web_traffic.

(** A whole number, written as such. *)
Definition whole (q : Q) : bool := Pos.eqb (Qden q) 1.

Definition abs_total (l : list Q) : Z :=
  fold_right (fun q acc => Z.abs (Qnum q) + acc) 0 l.

(** Figures that binary64 adds up without rounding, in whatever order: whole
    numbers whose absolute values total at most 2^53, the missing ones
    apart. *)
Definition exact_figures (l : list (option Q)) : bool :=
  forallb whole (somes l) && (abs_total (somes l) <=? 2 ^ 53).

Definition readings_on (d : Z) (iot : IotDF) : list (Reading * option Z) :=
  filter (fun r => oeqb Z.eqb (snd r) (Some d)) (iot_rows iot).

(** No row of the table has a date with IoT readings. *)
Definition no_reading_for (data : list WRow) (iot : IotDF) : bool :=
  forallb (fun w =>
             match m_date (w_base w) with
             | Some d => negb (date_in_iot d iot)
             | None => true
             end)
          data.

(** Amounts in decreasing order. *)
Definition by_amount_desc {K : Type} (a b : Rollup K) : Prop :=
  (r_total_amount b <= r_total_amount a)%Q.

(** The rows of a rollup that count: those with the grouping key and the
    order date. *)
Definition counted {K : Type} (key : URow -> option K) (u : URow) : bool :=
  is_some (key u) && is_some (u_order_date u).

End Preparation.

(** ** main.py: the rankings of the summary report *)

Module Report.
Import Federation.

(** A table after [reset_index()]: rows labelled 0, 1, ... in their
    order. *)
Definition labelled {A : Type} (l : list A) : list (nat * A) :=
  combine (seq 0 (List.length l)) l.

(** [sort_values('total_amount', ascending=False)] moves the rows with their
    labels. *)
Definition sort_labelled {K : Type} (l : list (nat * Rollup K))
  : list (nat * Rollup K) :=
  isort (fun a b => Qle_bool (r_total_amount (snd b)) (r_total_amount (snd a))) l.

(** [for idx, row in table.head(5).iterrows()]: the lines of one ranking,
    each with the number [idx+1] the report prints before it. *)
Definition top5 {K : Type} (rollup_rows : list (Rollup K))
  : list (nat * Rollup K) :=
  map (fun ir => (S (fst ir), snd ir))
      (firstn 5 (sort_labelled (labelled rollup_rows))).

(** The three rankings of [generate_summary_report], from the rollups as
    [create_aggregations] builds them. *)
Definition top_campaigns (data : list URow) : list (nat * Rollup string) :=
  top5 (rollup String.eqb String.leb u_campaign_name (filter u_in_campaign data)).

Definition top_products (data : list URow) : list (nat * Rollup Z) :=
  top5 (rollup Z.eqb Z.leb u_product_id data).

Definition top_countries (data : list URow) : list (nat * Rollup string) :=
  top5 (rollup String.eqb String.leb u_country data).

End Report.

(** ** Sums and means in binary64 *)

(** The arithmetic of [Series.sum] and [Series.mean] on a [float64] column,
    with the rounding of every operation.  A missing cell is a NaN. *)
Module Binary64.

(** [numpy] adds an array of fewer than eight cells from left to right,
    starting from zero (longer arrays are added pairwise, in blocks). *)
Definition fsum (l : list float) : float := fold_left PrimFloat.add l 0%float.

(** [nanops] replaces the missing cells by 0 before it adds the column up. *)
Definition nan_to_zero (x : float) : float :=
  if PrimFloat.is_nan x then 0%float else x.

(** [Series.sum()], [skipna=True]. *)
Definition sum (col : list float) : float := fsum (map nan_to_zero col).

(** [Series.count()], as the float the sum is divided by. *)
Definition count (col : list float) : float :=
  PrimFloat.of_uint63
    (Uint63.of_Z
       (Z.of_nat (List.length (filter (fun x => negb (PrimFloat.is_nan x)) col)))).

(** [Series.mean()], [skipna=True]: NaN (0/0) on a column without value. *)
Definition mean (col : list float) : float :=
  PrimFloat.div (sum col) (count col).

Definition fillna (v : float) (col : list float) : list float :=
  map (fun x => if PrimFloat.is_nan x then v else x) col.

(** One turn of the loop of [handle_missing_values] under 'mean':
    [if df[col].isnull().any(): df[col] = df[col].fillna(df[col].mean())]. *)
Definition fill_mean (col : list float) : list float :=
  if existsb PrimFloat.is_nan col then fillna (mean col) col else col.

(** Equal as results: the same number, or both NaN. *)
Definition same_float (a b : float) : bool :=
  (PrimFloat.is_nan a && PrimFloat.is_nan b) || PrimFloat.eqb a b.

(** The columns of the Unified Sales Record table that the by-product and
    by-country rollups read. *)
Record Sale : Type := mkSale {
  f_product_id : option Z;
  f_country : option string;
  f_total_amount : float
}.

(** The [total_amount] column of
    [data.groupby(key).agg({'total_amount': 'sum', ...})
         .sort_values('total_amount', ascending=False)].  The sum of a
    group carries a compensation term in pandas, which changes nothing to
    the sum of a group of one or two rows. *)
Definition rollup_amounts {K : Type} (keq kleb : K -> K -> bool)
    (key : Sale -> option K) (data : list Sale) : list float :=
  isort (fun a b => PrimFloat.leb b a)
        (map (fun g => sum (map f_total_amount (snd g)))
             (Federation.groupby keq kleb key data)).

Definition product_total (data : list Sale) : float :=
  sum (rollup_amounts Z.eqb Z.leb f_product_id data).

Definition country_total (data : list Sale) : float :=
  sum (rollup_amounts String.eqb String.leb f_country data).

(** The amounts 2.8 and 43.0 followed by four missing cells. *)
Definition two_of_six : list float :=
  [0x1.6666666666666p+1%float; 43%float;
   PrimFloat.nan; PrimFloat.nan; PrimFloat.nan; PrimFloat.nan].

(** Three sales of 0.1, 0.2 and 0.3: products 1, 2, 2 and countries FR, FR,
    US. *)
Definition three_sales : list Sale :=
  [mkSale (Some 1) (Some "FR"%string) 0x1.999999999999ap-4%float;
   mkSale (Some 2) (Some "FR"%string) 0x1.999999999999ap-3%float;
   mkSale (Some 2) (Some "US"%string) 0x1.3333333333333p-2%float].

End Binary64.

(** ** The join engine on a store of tables *)

(** [federation.py] works on objects that the caller shares with it: the
    four tables of the [data] dictionary.  Here the tables live in a store
    and are named by references; an assignment to a column of a table is a
    write at its reference, a [merge] or a [groupby] allocates a new table,
    and an exception ends the run with the store as it is at that moment. *)
Module Interpreter.
Import Federation.

(** What a [date] column holds: calendar dates (the [object] column that
    [.dt.date] produces in the normalisers) or [datetime64] timestamps. *)
Inductive DateType : Type :=
| CalendarDate
| Datetime64.

Definition same_type (a b : DateType) : bool :=
  match a, b with
  | CalendarDate, CalendarDate => true
  | Datetime64, Datetime64 => true
  | _, _ => false
  end.

(** A row of [orders.merge(marketing, on='product_id', how='left')]. *)
Definition Joined : Type := ((Order * option Z) * option Campaign)%type.

(** The tables of a run, each with the type of its [date] column (of no use
    on a table that has no such column).  The tables that a stage builds
    appear in each of the states their column assignments take them
    through. *)
Inductive Table : Type :=
| TOrders (df : OrdersDF) (t : DateType)
| TMarketing (df : list Campaign)
| TTraffic (df : list Traffic) (t : DateType)
| TIot (df : IotDF) (t : DateType)
| TJoined (rows : list Joined) (t : DateType)
| TFlagged (rows : list (Joined * bool)) (t : DateType)
| TMerged (rows : list MRow) (t : DateType)
| TWebAgg (rows : list WebAgg) (t : DateType)
| TWebJoined (rows : list (MRow * option WebAgg)) (t : DateType)
| TWebHalf (rows : list ((MRow * option WebAgg) * Z)) (t : DateType)
| TWeb (rows : list WRow) (t : DateType)
| TIotAgg (rows : list IotAgg) (t : DateType)
| TIotJoined (rows : list (WRow * option IotAgg)) (t : DateType)
| TIotHalf (rows : list ((WRow * option IotAgg) * option Q)) (t : DateType)
| TUnified (rows : list URow) (t : DateType).

Inductive Exception : Type :=
| KeyError
| TypeError
| ValueError.

Inductive Outcome (A : Type) : Type :=
| Returns (a : A)
| Raises (e : Exception).
Arguments Returns {A}.
Arguments Raises {A}.

Definition Store : Type := list Table.

Definition Run (A : Type) : Type := Store -> Store * Outcome A.

Definition ret {A : Type} (a : A) : Run A := fun h => (h, Returns a).

Definition raise {A : Type} (e : Exception) : Run A := fun h => (h, Raises e).

Definition bind {A B : Type} (c : Run A) (k : A -> Run B) : Run B :=
  fun h =>
    match c h with
    | (h', Returns a) => k a h'
    | (h', Raises e) => (h', Raises e)
    end.

Notation "x <- c ;; k" := (bind c (fun x => k))
  (at level 61, c at next level, right associativity).
Notation "c ;;; k" := (bind c (fun _ => k))
  (at level 61, right associativity).

(** The table a reference names. *)
Definition get (r : nat) : Run Table :=
  fun h =>
    match nth_error h r with
    | Some t => (h, Returns t)
    | None => (h, Raises KeyError)
    end.

(** A new table, at a reference that named nothing so far. *)
Definition new (t : Table) : Run nat :=
  fun h => (h ++ [t], Returns (List.length h)).

Fixpoint update (r : nat) (t : Table) (h : Store) : Store :=
  match h, r with
  | [], _ => []
  | _ :: h', O => t :: h'
  | x :: h', S r' => x :: update r' t h'
  end.

(** An assignment to a column of the table at [r], which holds [t] after
    it. *)
Definition put (r : nat) (t : Table) : Run unit :=
  fun h =>
    if (r <? List.length h)%nat then (update r t h, Returns tt)
    else (h, Raises KeyError).

(** The check of [merge] on the two [date] key columns: a [datetime64]
    column is not merged with a column of another type, unless exactly one
    of the two tables is empty, a case that [merge] lets through. *)
Definition is_empty {A : Type} (l : list A) : bool :=
  match l with
  | [] => true
  | _ :: _ => false
  end.

Definition keys_merge {A B : Type} (left : list A) (tl : DateType)
    (right : list B) (tr : DateType) : bool :=
  xorb (is_empty left) (is_empty right) || same_type tl tr.

(** *** merge_orders_marketing *)

Definition in_campaign (j : Joined) : bool :=
  ge_cell (snd (fst j)) (rcol c_start_date (snd j))
  && le_cell (snd (fst j)) (rcol c_end_date (snd j)).

(** [merged.apply(lambda row: row['campaign_name'] if row['in_campaign']
    else 'No Campaign', axis=1)]. *)
Definition name_campaign (jb : Joined * bool) : MRow :=
  let j := fst jb in
  {| m_order := fst (fst j);
     m_date := snd (fst j);
     m_campaign_name :=
       if snd jb then rcol c_campaign_name (snd j)
       else Some "No Campaign"%string;
     m_start_date := rcol c_start_date (snd j);
     m_end_date := rcol c_end_date (snd j);
     m_in_campaign := snd jb |}.

Definition merge_orders_marketing (orders marketing : nat) : Run nat :=
  o <- get orders ;;
  match o with
  | TOrders df _ =>
      (if orders_has_date df then ret tt
       else put orders (TOrders (orders_add_date df) Datetime64)) ;;;
      o <- get orders ;;
      m <- get marketing ;;
      match o, m with
      | TOrders df t, TMarketing campaigns =>
          merged <- new (TJoined
                           (merge_left Z.eqb (fun od => o_product_id (fst od))
                                       c_product_id (orders_rows df) campaigns)
                           t) ;;
          j <- get merged ;;
          match j with
          | TJoined rows t =>
              put merged (TFlagged (map (fun j => (j, in_campaign j)) rows) t)
          | _ => raise TypeError
          end ;;;
          f <- get merged ;;
          match f with
          | TFlagged rows t => put merged (TMerged (map name_campaign rows) t)
          | _ => raise TypeError
          end ;;;
          ret merged
      | _, _ => raise TypeError
      end
  | _ => raise TypeError
  end.

(** *** merge_with_web_traffic *)

Definition fill_pageviews (j : MRow * option WebAgg)
  : (MRow * option WebAgg) * Z :=
  (j, fill_zero_int (rcol (fun a => Some (wa_pageviews a)) (snd j))).

Definition fill_sessions (jp : (MRow * option WebAgg) * Z) : WRow :=
  {| w_base := fst (fst jp);
     w_pageviews := snd jp;
     w_sessions :=
       fill_zero_int (rcol (fun a => Some (wa_sessions a)) (snd (fst jp))) |}.

Definition merge_with_web_traffic (data web_traffic : nat) : Run nat :=
  w <- get web_traffic ;;
  match w with
  | TTraffic rows tw =>
      agg <- new (TWebAgg (web_agg rows) tw) ;;
      d <- get data ;;
      a <- get agg ;;
      match d, a with
      | TMerged drows td, TWebAgg arows ta =>
          if keys_merge drows td arows ta then
            merged <- new (TWebJoined
                             (merge_left Z.eqb m_date
                                         (fun a => Some (wa_date a)) drows arows)
                             td) ;;
            j <- get merged ;;
            match j with
            | TWebJoined rows t => put merged (TWebHalf (map fill_pageviews rows) t)
            | _ => raise TypeError
            end ;;;
            p <- get merged ;;
            match p with
            | TWebHalf rows t => put merged (TWeb (map fill_sessions rows) t)
            | _ => raise TypeError
            end ;;;
            ret merged
          else raise ValueError
      | _, _ => raise TypeError
      end
  | _ => raise TypeError
  end.

(** *** merge_with_iot *)

Definition fill_footfall (rows : list (WRow * option IotAgg))
  : list ((WRow * option IotAgg) * option Q) :=
  let footfall_mean := mean_skipna (map (fun j => rcol ia_footfall (snd j)) rows) in
  map (fun j => (j, fill_with footfall_mean (rcol ia_footfall (snd j)))) rows.

Definition fill_temperature (rows : list ((WRow * option IotAgg) * option Q))
  : list URow :=
  let temperature_mean :=
    mean_skipna (map (fun jf => rcol ia_temperature (snd (fst jf))) rows) in
  map (fun jf =>
         {| u_base := fst (fst jf);
            u_footfall := snd jf;
            u_temperature :=
              fill_with temperature_mean (rcol ia_temperature (snd (fst jf))) |})
      rows.

Definition merge_with_iot (data iot : nat) : Run nat :=
  i <- get iot ;;
  match i with
  | TIot df _ =>
      (if iot_has_date df then ret tt
       else
         put iot (TIot (iot_add_date df) CalendarDate) ;;;
         put iot (TIot (iot_add_date df) Datetime64)) ;;;
      i <- get iot ;;
      match i with
      | TIot df ti =>
          agg <- new (TIotAgg (iot_agg (iot_rows df)) ti) ;;
          d <- get data ;;
          a <- get agg ;;
          match d, a with
          | TWeb drows td, TIotAgg arows ta =>
              if keys_merge drows td arows ta then
                merged <- new (TIotJoined
                                 (merge_left Z.eqb (fun w => m_date (w_base w))
                                             (fun a => Some (ia_date a))
                                             drows arows)
                                 td) ;;
                j <- get merged ;;
                match j with
                | TIotJoined rows t => put merged (TIotHalf (fill_footfall rows) t)
                | _ => raise TypeError
                end ;;;
                f <- get merged ;;
                match f with
                | TIotHalf rows t => put merged (TUnified (fill_temperature rows) t)
                | _ => raise TypeError
                end ;;;
                ret merged
              else raise ValueError
          | _, _ => raise TypeError
          end
      | _ => raise TypeError
      end
  | _ => raise TypeError
  end.

(** *** federate_all *)

(** The four entries of the [data] dictionary. *)
Record Data : Type := mkData {
  orders : nat;
  marketing : nat;
  web_traffic : nat;
  iot : nat
}.

(** Returns the reference of the Unified Sales Record table and the
    rollups; the tables that [create_aggregations] builds and renames are
    its own. *)
Definition federate_all (data : Data) : Run (nat * Aggregations) :=
  merged <- merge_orders_marketing (orders data) (marketing data) ;;
  merged <- merge_with_web_traffic merged (web_traffic data) ;;
  merged <- merge_with_iot merged (iot data) ;;
  u <- get merged ;;
  match u with
  | TUnified rows _ => ret (merged, create_aggregations rows)
  | _ => raise TypeError
  end.

(** The store of a caller that holds the four tables of [data], normalised,
    at references 0 to 3. *)
Definition store_of (data : Sources) (t : DateType) : Store :=
  [TOrders (Federation.orders data) t;
   TMarketing (Federation.marketing data);
   TTraffic (Federation.web_traffic data) t;
   TIot (Federation.iot data) t].

Definition data_0123 : Data := mkData 0 1 2 3.

End Interpreter.

(** ** The mean strategy, whatever [Series.mean] returns *)

(** [Normalisation.handle_missing_values] fills with the exact mean.  Here
    the strategy 'mean' is written over the mean as the library computes
    it, a parameter of which nothing is assumed, so that the fill value and
    the exact mean of a column can be told apart. *)
Module Rounded.
Import Normalisation.

Section Mean.

(** [Series.mean()]: the number returned, no value for NaN. *)
Variable mean : Series -> option Q.

(** One turn of [for col in numeric_cols] under 'mean'. *)
Definition fill_col (df : DataFrame) (col : string) : DataFrame :=
  match get_col col df with
  | None => df
  | Some s =>
      if existsb isnull (s_values s) then set_col col (fillna (mean s) s) df
      else df
  end.

(** [handle_missing_values(df, strategy='mean')]. *)
Definition handle_missing_values (df : DataFrame) : DataFrame :=
  if (missing_total df =? 0)%nat then df
  else fold_left fill_col (numeric_cols df) df.

(** A column after its turn. *)
Definition filled (s : Series) : Series :=
  if existsb isnull (s_values s) then fillna (mean s) s else s.

End Mean.

(** Two means within [delta] of each other, or both undefined. *)
Definition near (delta : Q) (a b : option Q) : Prop :=
  match a, b with
  | Some x, Some y => (Qabs (x - y) <= delta)%Q
  | None, None => True
  | _, _ => False
  end.

(** A mean that is off by a hundredth. *)
Definition mean_off (s : Series) : option Q :=
  option_map (fun q => q + (1 # 100))%Q (series_mean s).

End Rounded.

(** ** Facts on the shared helpers *)

Section ListFacts.

Lemma Qsum_app (l1 l2 : list Q) : (Qsum (l1 ++ l2) == Qsum l1 + Qsum l2)%Q.
Proof.
  induction l1 as [|x l1 IH]; simpl.
  - ring.
  - rewrite IH. ring.
Qed.

Lemma Qsum_perm (l1 l2 : list Q) :
  Permutation l1 l2 -> (Qsum l1 == Qsum l2)%Q.
Proof.
  induction 1 as [|x l l' _ IH|x y l|l l' l'' _ IH1 _ IH2]; simpl.
  - reflexivity.
  - rewrite IH. reflexivity.
  - ring.
  - rewrite IH1. exact IH2.
Qed.

Lemma Qsum_map_ext {A : Type} (f g : A -> Q) (l : list A) :
  (forall x, In x l -> (f x == g x)%Q) ->
  (Qsum (map f l) == Qsum (map g l))%Q.
Proof.
  induction l as [|x l IH]; intros H; simpl.
  - reflexivity.
  - rewrite (H x (or_introl eq_refl)), IH.
    + reflexivity.
    + intros y Hy. apply H. now right.
Qed.

Lemma Qsum_map_plus {A : Type} (f g : A -> Q) (l : list A) :
  (Qsum (map (fun x => f x + g x) l) == Qsum (map f l) + Qsum (map g l))%Q.
Proof.
  induction l as [|x l IH]; simpl.
  - ring.
  - rewrite IH. ring.
Qed.

Lemma Qsum_map_zero {A : Type} (l : list A) :
  (Qsum (map (fun _ => 0) l) == 0)%Q.
Proof.
  induction l as [|x l IH]; simpl.
  - reflexivity.
  - rewrite IH. ring.
Qed.

Context {A : Type} (leb : A -> A -> bool).

Lemma insert_sorted_perm (x : A) (l : list A) :
  Permutation (insert_sorted leb x l) (x :: l).
Proof.
  induction l as [|y l IH]; simpl.
  - apply Permutation_refl.
  - destruct (leb x y).
    + apply Permutation_refl.
    + eapply perm_trans; [apply perm_skip, IH | apply perm_swap].
Qed.

Lemma isort_perm (l : list A) : Permutation (isort leb l) l.
Proof.
  induction l as [|x l IH]; simpl.
  - apply perm_nil.
  - eapply perm_trans; [apply insert_sorted_perm | apply perm_skip, IH].
Qed.

End ListFacts.

Lemma oQeq_refl (a : option Q) : oQeq a a.
Proof. destruct a; simpl; [reflexivity | exact I]. Qed.

Lemma oQeq_trans (a b c : option Q) : oQeq a b -> oQeq b c -> oQeq a c.
Proof.
  destruct a, b, c; simpl; intros H1 H2; try contradiction; try exact I.
  now rewrite H1.
Qed.

Lemma Qlen_pos {A : Type} (l : list A) : l <> [] -> ~ (Qlen l == 0)%Q.
Proof.
  intros Hl H. unfold Qlen, Qeq in H. simpl in H.
  destruct l; [now apply Hl | simpl in H; lia].
Qed.

(** ** Properties of the normaliser *)

Module NormalisationFacts.
Import Normalisation Samples.

(** *** Currency columns *)

Example strip_dollar_amount : strip_currency "$1,234.50" = "1234.50"%string.
Proof. reflexivity. Qed.

Example strip_euro_amount : strip_currency "€99" = "99"%string.
Proof. reflexivity. Qed.

Example parse_plain_amount : parse_float "1234.50" = Some (2469 # 2)%Q.
Proof. reflexivity. Qed.

Example parse_euro_text : parse_float "€99" = None.
Proof. reflexivity. Qed.

(** A column whose first cell carries a dollar sign goes through
    [clean_currency], which also strips the euro sign of later cells. *)
Lemma normalize_numeric_dollar_first :
  normalize_numeric mixed_prices ["total_amount"%string]
  = [("total_amount"%string, mkSeries DNumber [Num (2469 # 2); Num 99])]
  /\ (2469 # 2 == 1234.50)%Q /\ (99 == 99.0)%Q.
Proof. repeat split. Qed.

(** C3: [normalize_numeric] is claimed to strip currency symbols from a text
    column so that the cell "€99" becomes the number 99.0.  The column is
    recognised as a currency column only when its first cell holds a dollar
    sign: on the column of the single cell "€99" the euro sign is never
    stripped, [pd.to_numeric(errors='coerce')] runs instead, and the cell
    comes out missing. *)
Theorem normalize_numeric_euro_column_missing :
  normalize_numeric euro_prices ["total_amount"%string]
  = [("total_amount"%string, mkSeries DNumber [NA])].
Proof. reflexivity. Qed.

(** *** Filling with the mean *)

Lemma present_fill_sum (m : Q) (l : list cell) :
  (Qsum (present (map (fillna_cell (Some m)) l))
   == Qsum (present l) + inject_Z (Z.of_nat (count_na l)) * m)%Q.
Proof.
  unfold count_na.
  induction l as [|c l IH].
  - simpl. ring.
  - destruct c as [s|q|].
    + simpl. exact IH.
    + simpl. rewrite IH. ring.
    + cbn [map fillna_cell present Qsum fold_right filter isnull List.length].
      change (fold_right Qplus 0%Q) with Qsum. rewrite IH.
      rewrite Nat2Z.inj_succ, <- Z.add_1_r, inject_Z_plus. ring.
Qed.

Lemma present_fill_length (m : Q) (l : list cell) :
  List.length (present (map (fillna_cell (Some m)) l))
  = (List.length (present l) + count_na l)%nat.
Proof.
  unfold count_na.
  induction l as [|c l IH]; [reflexivity|].
  destruct c as [s|q|]; simpl; rewrite IH; lia.
Qed.

Lemma fillna_none (s : Series) : fillna None s = s.
Proof.
  destruct s as [d l]. unfold fillna. simpl. f_equal.
  induction l as [|c l IH]; [reflexivity|].
  simpl. rewrite IH. now destruct c.
Qed.

Lemma mean_fill_arith (S : Q) (n k : nat) :
  (0 < n)%nat ->
  ((S + inject_Z (Z.of_nat k) * (S / inject_Z (Z.of_nat n)))
   / inject_Z (Z.of_nat (n + k))
   == S / inject_Z (Z.of_nat n))%Q.
Proof.
  intros Hn.
  rewrite Nat2Z.inj_add, inject_Z_plus.
  assert (Hn0 : ~ (inject_Z (Z.of_nat n) == 0)%Q).
  { unfold Qeq. simpl. lia. }
  assert (Hnk : ~ (inject_Z (Z.of_nat n) + inject_Z (Z.of_nat k) == 0)%Q).
  { rewrite <- inject_Z_plus. unfold Qeq. simpl. lia. }
  field. split; assumption.
Qed.

(** Filling a column with its own mean keeps the mean. *)
Lemma mean_fillna_mean (s : Series) :
  oQeq (series_mean (fillna (series_mean s) s)) (series_mean s).
Proof.
  destruct (series_mean s) as [m|] eqn:Hm.
  2:{ rewrite fillna_none, Hm. exact I. }
  unfold series_mean in *. destruct s as [d l]. simpl in *.
  unfold mean_of in Hm.
  destruct (present l) as [|x xs] eqn:Hp; [discriminate|].
  injection Hm as Hm.
  unfold mean_of.
  destruct (present (map (fillna_cell (Some m)) l)) as [|y ys] eqn:Hq.
  - apply (f_equal (@List.length Q)) in Hq.
    rewrite present_fill_length, Hp in Hq. simpl in Hq. lia.
  - change (Qsum (y :: ys) / Qlen (y :: ys) == m)%Q.
    rewrite <- Hq. unfold Qlen.
    rewrite present_fill_sum, present_fill_length, Hp, <- Hm.
    apply mean_fill_arith. simpl. lia.
Qed.

Lemma get_set_same (col : string) (v : Series) (df : DataFrame) :
  get_col col (set_col col v df) = Some v.
Proof.
  induction df as [|[n s] df IH]; simpl.
  - now rewrite String.eqb_refl.
  - destruct (String.eqb col n) eqn:E; simpl; rewrite E; [reflexivity | exact IH].
Qed.

Lemma get_set_other (col c : string) (v : Series) (df : DataFrame) :
  c <> col -> get_col c (set_col col v df) = get_col c df.
Proof.
  intros Hne.
  assert (Hc : String.eqb c col = false) by now apply String.eqb_neq.
  induction df as [|[n s] df IH]; simpl.
  - now rewrite Hc.
  - destruct (String.eqb col n) eqn:E; simpl.
    + apply String.eqb_eq in E. subst n. now rewrite Hc.
    + now rewrite IH.
Qed.

Lemma fill_col_keeps_mean (c : string) (s0 : Series) (df : DataFrame)
    (col : string) :
  keeps_mean c s0 df -> keeps_mean c s0 (fill_col "mean" df col).
Proof.
  intros [s [Hg Hm]]. unfold fill_col.
  destruct (string_dec c col) as [->|Hne].
  - rewrite Hg. destruct (existsb isnull (s_values s)).
    + exists (fillna (series_mean s) s). split.
      * apply get_set_same.
      * eapply oQeq_trans; [apply mean_fillna_mean | exact Hm].
    + now exists s.
  - destruct (get_col col df) as [s1|]; [|now exists s].
    destruct (existsb isnull (s_values s1)); [|now exists s].
    exists s. split; [|exact Hm].
    now rewrite get_set_other.
Qed.

Lemma fold_fill_keeps_mean (c : string) (s0 : Series) (cols : list string) :
  forall df, keeps_mean c s0 df ->
             keeps_mean c s0 (fold_left (fill_col "mean") cols df).
Proof.
  induction cols as [|col cols IH]; intros df H; simpl.
  - exact H.
  - apply IH, fill_col_keeps_mean, H.
Qed.

(** With the exact mean as fill value, a numeric column has after the
    strategy 'mean' the exact mean of its non-missing values before it (a
    column with no value at all has no mean before and none after).  For
    the means as [Series.mean] computes them, see [Rounding]. *)
Lemma handle_missing_values_mean_keeps_mean :
  forall (df : DataFrame) (col : string) (s : Series),
    get_col col df = Some s ->
    s_dtype s = DNumber ->
    exists s',
      get_col col (handle_missing_values df "mean") = Some s'
      /\ oQeq (series_mean s') (series_mean s).
Proof.
  intros df col s Hg _.
  assert (H0 : keeps_mean col s df).
  { exists s. split; [exact Hg | apply oQeq_refl]. }
  unfold handle_missing_values.
  destruct (missing_total df =? 0)%nat; [exact H0|].
  cbn [String.eqb Ascii.eqb Bool.eqb orb].
  apply fold_fill_keeps_mean, H0.
Qed.

Lemma gappy_keeps_mean :
  exists s',
    get_col "quantity" (handle_missing_values gappy "mean") = Some s'
    /\ oQeq (series_mean s') (series_mean (mkSeries DNumber [Num 1; NA; Num 2])).
Proof.
  apply (handle_missing_values_mean_keeps_mean gappy "quantity"
           (mkSeries DNumber [Num 1; NA; Num 2])); reflexivity.
Defined.

Example gappy_mean_filled :
  handle_missing_values gappy "mean"
  = [("quantity"%string, mkSeries DNumber [Num 1; Num (3 # 2); Num 2]);
     ("country"%string, mkSeries DObject [Str "FR"; Str "US"; NA])].
Proof. reflexivity. Qed.

(** *** Unknown strategies *)

(** C10: with a strategy name other than 'drop', 'zero', 'mean' and 'median'
    the call raises nothing and gives the table back as it was, missing cells
    included. *)
Theorem handle_missing_values_unknown_strategy :
  forall (df : DataFrame) (strategy : string),
    (0 < missing_total df)%nat ->
    strategy <> "drop"%string ->
    strategy <> "zero"%string ->
    strategy <> "mean"%string ->
    strategy <> "median"%string ->
    handle_missing_values df strategy = df.
Proof.
  intros df strategy _ Hd Hz Hm He.
  unfold handle_missing_values.
  apply String.eqb_neq in Hd, Hz, Hm, He.
  rewrite Hd, Hz, Hm, He.
  now destruct (missing_total df =? 0)%nat.
Qed.

Lemma handle_missing_values_unknown_strategy_witness :
  (0 < missing_total gappy)%nat
  /\ handle_missing_values gappy "mode" = gappy.
Proof.
  split.
  - vm_compute. lia.
  - apply (handle_missing_values_unknown_strategy gappy "mode");
      [vm_compute; lia | discriminate | discriminate | discriminate | discriminate].
Defined.

End NormalisationFacts.

(** ** Properties of the join engine and of the rollups *)

Module FederationFacts.
Import Federation Samples.

(** *** Left merges *)

Section MergeLeft.
Context {L R K : Type} (keq : K -> K -> bool).
Context (kl : L -> option K) (kr : R -> option K).

Lemma merge_left_cons (l : L) (left : list L) (right : list R) :
  merge_left keq kl kr (l :: left) right
  = match partners keq kl kr right l with
    | [] => [(l, None)]
    | rs => map (fun r => (l, Some r)) rs
    end ++ merge_left keq kl kr left right.
Proof. reflexivity. Qed.

Lemma partners_find (l : L) (right : list R) :
  (List.length (partners keq kl kr right l) <= 1)%nat ->
  match partners keq kl kr right l with
  | [] => [(l, None)]
  | rs => map (fun r => (l, Some r)) rs
  end = [(l, find (fun r => oeqb keq (kl l) (kr r)) right)].
Proof.
  unfold partners.
  induction right as [|r right IHr]; intros H; [reflexivity|].
  simpl in *. destruct (oeqb keq (kl l) (kr r)) eqn:E.
  - simpl in H. destruct (filter _ right); [reflexivity | simpl in H; lia].
  - apply IHr, H.
Qed.

(** With at most one partner per left row the merge is row for row. *)
Lemma merge_left_find (left : list L) (right : list R) :
  (forall l, In l left -> (List.length (partners keq kl kr right l) <= 1)%nat) ->
  merge_left keq kl kr left right
  = map (fun l => (l, find (fun r => oeqb keq (kl l) (kr r)) right)) left.
Proof.
  induction left as [|l left IH]; intros H; [reflexivity|].
  rewrite merge_left_cons, IH by (intros l' Hl'; apply H; now right).
  rewrite partners_find by (apply H; now left).
  reflexivity.
Qed.

Lemma merge_left_no_partner (l : L) (right : list R) :
  partners keq kl kr right l = [] ->
  merge_left keq kl kr [l] right = [(l, None)].
Proof.
  unfold partners, merge_left. simpl. intros ->. reflexivity.
Qed.

Lemma merge_left_app (l1 l2 : list L) (right : list R) :
  merge_left keq kl kr (l1 ++ l2) right
  = merge_left keq kl kr l1 right ++ merge_left keq kl kr l2 right.
Proof. unfold merge_left. apply flat_map_app. Qed.

Hypothesis keq_spec : forall a b, keq a b = true <-> a = b.

Lemma oeqb_spec (a b : option K) : oeqb keq a b = true <-> a = b.
Proof.
  destruct a, b; simpl; try (split; congruence).
  rewrite keq_spec. split; congruence.
Qed.

(** Distinct keys on the right: at most one partner. *)
Lemma partners_unique (right : list R) (l : L) :
  NoDup (map kr right) -> (List.length (partners keq kl kr right l) <= 1)%nat.
Proof.
  unfold partners. induction right as [|r right IH]; intros Hnd; simpl.
  - lia.
  - inversion Hnd as [|x xs Hnotin Hnd']; subst.
    destruct (oeqb keq (kl l) (kr r)) eqn:E.
    + apply oeqb_spec in E.
      assert (Hnil : filter (fun r0 => oeqb keq (kl l) (kr r0)) right = []).
      { destruct (filter _ right) as [|r' rest] eqn:F; [reflexivity|].
        exfalso. apply Hnotin.
        assert (Hin : In r' (filter (fun r0 => oeqb keq (kl l) (kr r0)) right))
          by (rewrite F; now left).
        apply filter_In in Hin. destruct Hin as [Hin Hk].
        apply oeqb_spec in Hk. rewrite <- E, Hk. now apply in_map. }
      rewrite Hnil. simpl. lia.
    + now apply IH.
Qed.

End MergeLeft.

(** *** Group labels *)

Section Groups.
Context {K : Type} (keq kleb : K -> K -> bool).

Lemma in_somes {A : Type} (x : A) (l : list (option A)) :
  In x (somes l) <-> In (Some x) l.
Proof.
  induction l as [|[y|] l IH]; simpl.
  - tauto.
  - rewrite IH. split; intros [H|H]; auto; left; congruence.
  - rewrite IH. split; [auto | intros [H|H]; [discriminate | exact H]].
Qed.

Lemma in_dedup_incl (x : K) (l : list K) : In x (dedup keq l) -> In x l.
Proof.
  induction l as [|y l IH]; simpl; [tauto|].
  destruct (existsb (keq y) l); simpl; intuition.
Qed.

Lemma in_group_keys_incl (k : K) (ks : list (option K)) :
  In k (group_keys keq kleb ks) -> In (Some k) ks.
Proof.
  unfold group_keys. intros H.
  apply in_somes, in_dedup_incl.
  eapply Permutation_in; [apply isort_perm | exact H].
Qed.

Hypothesis keq_spec : forall a b, keq a b = true <-> a = b.

Lemma in_dedup (x : K) (l : list K) : In x l -> In x (dedup keq l).
Proof.
  induction l as [|y l IH]; simpl; [tauto|].
  intros [->|H].
  - destruct (existsb (keq x) l) eqn:E; [|now left].
    apply IH. apply existsb_exists in E. destruct E as [z [Hz Hxz]].
    apply keq_spec in Hxz. now subst.
  - destruct (existsb (keq y) l); [|right]; now apply IH.
Qed.

Lemma NoDup_dedup (l : list K) : NoDup (dedup keq l).
Proof.
  induction l as [|y l IH]; simpl; [constructor|].
  destruct (existsb (keq y) l) eqn:E; [exact IH|].
  constructor; [|exact IH].
  intros Hin. apply in_dedup_incl in Hin.
  assert (Ht : existsb (keq y) l = true).
  { apply existsb_exists. exists y. split; [exact Hin | now apply keq_spec]. }
  congruence.
Qed.

Lemma NoDup_group_keys (ks : list (option K)) : NoDup (group_keys keq kleb ks).
Proof.
  unfold group_keys.
  eapply Permutation_NoDup; [apply Permutation_sym, isort_perm | apply NoDup_dedup].
Qed.

Lemma in_group_keys (k : K) (ks : list (option K)) :
  In (Some k) ks -> In k (group_keys keq kleb ks).
Proof.
  intros H. unfold group_keys.
  eapply Permutation_in; [apply Permutation_sym, isort_perm|].
  now apply in_dedup, in_somes.
Qed.

Lemma groupby_keys {R : Type} (key : R -> option K) (rows : list R) :
  map fst (groupby keq kleb key rows) = group_keys keq kleb (map key rows).
Proof.
  unfold groupby. rewrite map_map. simpl. apply map_id.
Qed.

End Groups.

Lemma NoDup_map_Some {A : Type} (l : list A) : NoDup l -> NoDup (map Some l).
Proof.
  induction 1 as [|x l Hx _ IH]; simpl; constructor; [|exact IH].
  intros Hin. apply in_map_iff in Hin. destruct Hin as [y [Hy Hin]].
  injection Hy as ->. contradiction.
Qed.

Lemma Zeqb_spec (a b : Z) : Z.eqb a b = true <-> a = b.
Proof. apply Z.eqb_eq. Qed.

Lemma web_agg_keys (web_traffic : list Traffic) :
  map wa_date (web_agg web_traffic)
  = group_keys Z.eqb Z.leb (map t_date web_traffic).
Proof.
  unfold web_agg. rewrite map_map. simpl.
  rewrite <- (groupby_keys Z.eqb Z.leb t_date). reflexivity.
Qed.

Lemma iot_agg_keys (rows : list (Reading * option Z)) :
  map ia_date (iot_agg rows) = group_keys Z.eqb Z.leb (map snd rows).
Proof.
  unfold iot_agg. rewrite map_map. simpl.
  rewrite <- (groupby_keys Z.eqb Z.leb (@snd Reading (option Z))). reflexivity.
Qed.

Lemma web_agg_unique (web_traffic : list Traffic) :
  NoDup (map (fun a => Some (wa_date a)) (web_agg web_traffic)).
Proof.
  rewrite <- (map_map wa_date Some), web_agg_keys.
  apply NoDup_map_Some, NoDup_group_keys, Zeqb_spec.
Qed.

Lemma iot_agg_unique (rows : list (Reading * option Z)) :
  NoDup (map (fun a => Some (ia_date a)) (iot_agg rows)).
Proof.
  rewrite <- (map_map ia_date Some), iot_agg_keys.
  apply NoDup_map_Some, NoDup_group_keys, Zeqb_spec.
Qed.

(** *** The three merges keep the rows of their left table *)

Lemma merge_with_web_traffic_rows (data : list MRow) (web_traffic : list Traffic) :
  merge_with_web_traffic data web_traffic
  = map (fun m =>
           let a := find (fun a => oeqb Z.eqb (m_date m) (Some (wa_date a)))
                         (web_agg web_traffic) in
           {| w_base := m;
              w_pageviews := fill_zero_int (rcol (fun a => Some (wa_pageviews a)) a);
              w_sessions := fill_zero_int (rcol (fun a => Some (wa_sessions a)) a) |})
        data.
Proof.
  unfold merge_with_web_traffic.
  rewrite merge_left_find.
  - rewrite map_map. reflexivity.
  - intros l _. apply partners_unique; [apply Zeqb_spec | apply web_agg_unique].
Qed.

Lemma merge_with_web_traffic_base (data : list MRow) (web_traffic : list Traffic) :
  map w_base (merge_with_web_traffic data web_traffic) = data.
Proof.
  rewrite merge_with_web_traffic_rows, map_map. simpl. apply map_id.
Qed.

Lemma merge_with_iot_rows (data : list WRow) (iot : IotDF) :
  snd (merge_with_iot data iot)
  = map (fun w =>
           let a := iot_lookup (iot_agg (iot_rows iot)) (m_date (w_base w)) in
           {| u_base := w;
              u_footfall :=
                fill_with (mean_skipna (joined_footfall data iot))
                          (rcol ia_footfall a);
              u_temperature :=
                fill_with (mean_skipna (joined_temperature data iot))
                          (rcol ia_temperature a) |})
        data.
Proof.
  assert (Hrows : iot_rows (iot_add_date iot) = iot_rows iot)
    by (destruct iot; reflexivity).
  unfold merge_with_iot, joined_footfall, joined_temperature, iot_lookup.
  cbn [snd]. rewrite Hrows.
  rewrite merge_left_find.
  - rewrite !map_map. reflexivity.
  - intros l _. apply partners_unique; [apply Zeqb_spec | apply iot_agg_unique].
Qed.

Lemma merge_with_iot_base (data : list WRow) (iot : IotDF) :
  map u_base (snd (merge_with_iot data iot)) = data.
Proof.
  rewrite merge_with_iot_rows, map_map. simpl. apply map_id.
Qed.

Lemma unified_sales_stages (data : Sources) :
  unified_sales data
  = snd (merge_with_iot
           (merge_with_web_traffic
              (snd (merge_orders_marketing (orders data) (marketing data)))
              (web_traffic data))
           (iot data)).
Proof. reflexivity. Qed.

Lemma unified_sales_mrows (data : Sources) :
  map (fun u => w_base (u_base u)) (unified_sales data)
  = snd (merge_orders_marketing (orders data) (marketing data)).
Proof.
  rewrite unified_sales_stages, <- (map_map u_base w_base).
  now rewrite merge_with_iot_base, merge_with_web_traffic_base.
Qed.

Lemma orders_rows_add_date (o : OrdersDF) :
  orders_rows (orders_add_date o) = orders_rows o.
Proof. destruct o; reflexivity. Qed.

Lemma merge_orders_marketing_rows (o : OrdersDF) (marketing : list Campaign) :
  snd (merge_orders_marketing o marketing)
  = map flag_campaign
        (merge_left Z.eqb (fun od => o_product_id (fst od)) c_product_id
                    (orders_rows o) marketing).
Proof.
  unfold merge_orders_marketing. cbn [snd]. now rewrite orders_rows_add_date.
Qed.

Lemma one_campaign_per_product_NoDup (l : list Campaign) :
  one_campaign_per_product l = true -> NoDup (map c_product_id l).
Proof.
  induction l as [|c l IH]; simpl; intros H; [constructor|].
  apply andb_true_iff in H. destruct H as [H1 H2].
  constructor; [|now apply IH].
  intros Hin. apply in_map_iff in Hin. destruct Hin as [c' [Hc Hin]].
  apply negb_true_iff in H1.
  assert (Ht : existsb (fun c' => oeqb Z.eqb (c_product_id c) (c_product_id c')) l
               = true).
  { apply existsb_exists. exists c'. split; [exact Hin|].
    apply (oeqb_spec Z.eqb Zeqb_spec). now symmetry. }
  congruence.
Qed.

(** *** Row count of the Unified Sales Record table *)

(** C1, as stated, fails: product 10 has a January and a March campaign whose
    windows do not overlap, and its single order comes out as two rows. *)
Lemma disjoint_campaigns_duplicate_order :
  ~ (forall data : Sources,
       no_overlapping_campaigns (marketing data) = true ->
       List.length (unified_sales data)
       = List.length (orders_rows (orders data))).
Proof.
  intros H. specialize (H two_campaigns eq_refl). vm_compute in H. discriminate.
Qed.

(** C1, amended: when no two campaign rows share a product, the Unified
    Sales Record table has exactly as many rows as the orders table, and its
    rows carry the orders in their order. *)
Theorem unified_sales_row_count :
  forall data : Sources,
    one_campaign_per_product (marketing data) = true ->
    List.length (unified_sales data) = List.length (orders_rows (orders data))
    /\ map (fun u => (u_order u, u_date u)) (unified_sales data)
       = orders_rows (orders data).
Proof.
  intros data H.
  assert (Hrows : map (fun u => (u_order u, u_date u)) (unified_sales data)
                  = orders_rows (orders data)).
  { unfold u_order, u_date.
    rewrite <- (map_map (fun u => w_base (u_base u))
                        (fun m => (m_order m, m_date m))).
    rewrite unified_sales_mrows, merge_orders_marketing_rows.
    rewrite merge_left_find.
    - rewrite !map_map. simpl.
      erewrite map_ext; [apply map_id|]. now intros [o d].
    - intros l _. apply partners_unique; [apply Zeqb_spec|].
      now apply one_campaign_per_product_NoDup. }
  split; [|exact Hrows].
  rewrite <- Hrows. now rewrite length_map.
Qed.

Lemma unified_sales_row_count_witness :
  List.length (unified_sales scenario) = 3%nat
  /\ map (fun u => (u_order u, u_date u)) (unified_sales scenario)
     = orders_rows (orders scenario).
Proof.
  apply (unified_sales_row_count scenario). reflexivity.
Defined.

(** *** Orders of a product without campaign *)

(** C9: an order whose product appears in no campaign row gives exactly one
    row of the Unified Sales Record table, at its place between the rows of
    the orders before it and those of the orders after it, with
    [in_campaign = false] and [campaign_name = "No Campaign"]. *)
Theorem unmatched_order_one_row :
  forall (data : Sources) (before after : list (Order * option Z))
         (od : Order * option Z),
    orders_rows (orders data) = before ++ od :: after ->
    product_has_campaign (fst od) (marketing data) = false ->
    exists r : MRow,
      map (fun u => w_base (u_base u)) (unified_sales data)
      = snd (merge_orders_marketing (OrdersDated before) (marketing data))
        ++ r :: snd (merge_orders_marketing (OrdersDated after) (marketing data))
      /\ m_order r = fst od
      /\ m_date r = snd od
      /\ m_in_campaign r = false
      /\ m_campaign_name r = Some "No Campaign"%string.
Proof.
  intros data before after od Hrows Hno.
  exists (flag_campaign (od, None)).
  split; [|destruct od as [o0 [d|]]; repeat split].
  rewrite unified_sales_mrows, !merge_orders_marketing_rows, Hrows.
  change (orders_rows (OrdersDated before)) with before.
  change (orders_rows (OrdersDated after)) with after.
  change (od :: after) with ([od] ++ after).
  rewrite !merge_left_app, !map_app.
  rewrite (merge_left_no_partner _ _ _ od); [reflexivity|].
  unfold partners, product_has_campaign in *.
  induction (marketing data) as [|c l IH]; [reflexivity|].
  simpl in *. apply orb_false_iff in Hno. destruct Hno as [Hc Hl].
  rewrite Hc. now apply IH.
Qed.

Lemma unmatched_order_one_row_witness :
  exists r : MRow,
    map (fun u => w_base (u_base u)) (unified_sales scenario)
    = snd (merge_orders_marketing
             (OrdersDated [order_on 1 10 5 100 (Some "FR"%string)])
             (marketing scenario))
      ++ r :: snd (merge_orders_marketing
                     (OrdersDated [order_on 3 10 32 100 (Some "FR"%string)])
                     (marketing scenario))
    /\ m_order r = fst (order_on 2 5 5 50 (Some "US"%string))
    /\ m_date r = snd (order_on 2 5 5 50 (Some "US"%string))
    /\ m_in_campaign r = false
    /\ m_campaign_name r = Some "No Campaign"%string.
Proof.
  apply (unmatched_order_one_row scenario
           [order_on 1 10 5 100 (Some "FR"%string)]
           [order_on 3 10 32 100 (Some "FR"%string)]
           (order_on 2 5 5 50 (Some "US"%string))); reflexivity.
Defined.

(** *** The campaign window *)

Lemma merge_orders_marketing_flags (o : OrdersDF) (marketing : list Campaign)
    (r : MRow) :
  In r (snd (merge_orders_marketing o marketing)) ->
  m_in_campaign r
  = ge_cell (m_date r) (m_start_date r) && le_cell (m_date r) (m_end_date r)
  /\ (m_in_campaign r = false -> m_campaign_name r = Some "No Campaign"%string).
Proof.
  rewrite merge_orders_marketing_rows. intros Hin.
  apply in_map_iff in Hin. destruct Hin as [j [<- _]].
  split; [reflexivity|].
  unfold flag_campaign. cbn [m_in_campaign m_campaign_name].
  now intros ->.
Qed.

(** C6: on a row of [merge_orders_marketing] pairing an order with a campaign
    (whose window is well formed, start not after end), the order dated on
    the start or on the end of the window is in campaign; dated one day
    before the start or one day after the end it is not, and its campaign
    name reads "No Campaign". *)
Theorem campaign_window_inclusive :
  forall (o : OrdersDF) (marketing : list Campaign) (r : MRow) (d s e : Z),
    In r (snd (merge_orders_marketing o marketing)) ->
    m_date r = Some d ->
    m_start_date r = Some s ->
    m_end_date r = Some e ->
    s <= e ->
    (d = s \/ d = e -> m_in_campaign r = true)
    /\ (d = s - one_day \/ d = e + one_day ->
        m_in_campaign r = false
        /\ m_campaign_name r = Some "No Campaign"%string).
Proof.
  intros o marketing r d s e Hin Hd Hs He Hse.
  destruct (merge_orders_marketing_flags o marketing r Hin) as [Hflag Hname].
  rewrite Hd, Hs, He in Hflag. simpl in Hflag.
  assert (Hday : 0 < one_day) by (unfold one_day; lia).
  split.
  - intros Hon. rewrite Hflag. apply andb_true_iff.
    split; apply Z.leb_le; lia.
  - intros Hout.
    assert (Hf : m_in_campaign r = false).
    { rewrite Hflag. apply andb_false_iff.
      destruct Hout as [-> | ->]; [left | right]; apply Z.leb_gt; lia. }
    split; [exact Hf | exact (Hname Hf)].
Qed.

Lemma campaign_window_inclusive_witness :
  (day 1 = day 1 \/ day 1 = day 31 -> m_in_campaign (paired_row 1 1 31) = true)
  /\ (day 1 = day 1 - one_day \/ day 1 = day 31 + one_day ->
      m_in_campaign (paired_row 1 1 31) = false
      /\ m_campaign_name (paired_row 1 1 31) = Some "No Campaign"%string).
Proof.
  apply (campaign_window_inclusive
           (OrdersDated [order_on 1 10 1 100 (Some "FR"%string)])
           [mkCampaign (Some "Sale"%string) (Some 10) (Some (day 1)) (Some (day 31))]
           (paired_row 1 1 31) (day 1) (day 1) (day 31)).
  - left. reflexivity.
  - reflexivity.
  - reflexivity.
  - reflexivity.
  - vm_compute. discriminate.
Defined.

Example window_edges :
  m_in_campaign (paired_row 1 1 31) = true
  /\ m_in_campaign (paired_row 31 1 31) = true
  /\ m_in_campaign (paired_row 0 1 31) = false
  /\ m_campaign_name (paired_row 0 1 31) = Some "No Campaign"%string
  /\ m_in_campaign (paired_row 32 1 31) = false
  /\ m_campaign_name (paired_row 32 1 31) = Some "No Campaign"%string.
Proof. repeat split. Qed.

(** *** Dates without traffic *)

Lemma web_agg_absent (d : Z) (web_traffic : list Traffic) :
  date_in_traffic d web_traffic = false ->
  find (fun a => oeqb Z.eqb (Some d) (Some (wa_date a))) (web_agg web_traffic)
  = None.
Proof.
  intros Habs.
  destruct (find _ (web_agg web_traffic)) as [a|] eqn:F; [|reflexivity].
  apply find_some in F. destruct F as [Hin Hk].
  simpl in Hk. apply Z.eqb_eq in Hk. subst d.
  assert (Hkey : In (wa_date a) (map wa_date (web_agg web_traffic)))
    by now apply in_map.
  rewrite web_agg_keys in Hkey.
  apply in_group_keys_incl, in_map_iff in Hkey.
  destruct Hkey as [t [Ht Hint]].
  assert (Hex : date_in_traffic (wa_date a) web_traffic = true).
  { apply existsb_exists. exists t. split; [exact Hint|].
    rewrite Ht. simpl. apply Z.eqb_refl. }
  congruence.
Qed.

(** C7: every row of the table handed to [merge_with_web_traffic] whose date
    has no traffic record comes out, at the same place, with the integers
    [pageviews = 0] and [sessions = 0]. *)
Theorem traffic_zero_fill :
  forall (data : list MRow) (web_traffic : list Traffic)
         (i : nat) (m : MRow) (d : Z),
    nth_error data i = Some m ->
    m_date m = Some d ->
    date_in_traffic d web_traffic = false ->
    exists r : WRow,
      nth_error (merge_with_web_traffic data web_traffic) i = Some r
      /\ w_base r = m
      /\ w_pageviews r = 0
      /\ w_sessions r = 0.
Proof.
  intros data web_traffic i m d Hnth Hd Habs.
  rewrite merge_with_web_traffic_rows, nth_error_map, Hnth. simpl.
  rewrite Hd, (web_agg_absent d web_traffic Habs).
  eexists. split; [reflexivity|]. repeat split.
Qed.

Lemma traffic_zero_fill_witness :
  exists r : WRow,
    nth_error (merge_with_web_traffic [mrow_on 5; mrow_on 32]
                                      (web_traffic scenario)) 1
    = Some r
    /\ w_base r = mrow_on 32
    /\ w_pageviews r = 0
    /\ w_sessions r = 0.
Proof.
  apply (traffic_zero_fill [mrow_on 5; mrow_on 32] (web_traffic scenario)
                           1%nat (mrow_on 32) (day 32)); reflexivity.
Defined.

Example traffic_present_day :
  map (fun r => (w_pageviews r, w_sessions r))
      (merge_with_web_traffic [mrow_on 5; mrow_on 32] (web_traffic scenario))
  = [(500, 40); (0, 0)].
Proof. reflexivity. Qed.

(** *** Dates without IoT readings *)

Lemma iot_agg_absent (d : Z) (iot : IotDF) :
  date_in_iot d iot = false ->
  iot_lookup (iot_agg (iot_rows iot)) (Some d) = None.
Proof.
  intros Habs. unfold iot_lookup.
  destruct (find _ (iot_agg (iot_rows iot))) as [a|] eqn:F; [|reflexivity].
  apply find_some in F. destruct F as [Hin Hk].
  simpl in Hk. apply Z.eqb_eq in Hk. subst d.
  assert (Hkey : In (ia_date a) (map ia_date (iot_agg (iot_rows iot))))
    by now apply in_map.
  rewrite iot_agg_keys in Hkey.
  apply in_group_keys_incl, in_map_iff in Hkey.
  destruct Hkey as [x [Hx Hinx]].
  assert (Hex : date_in_iot (ia_date a) iot = true).
  { apply existsb_exists. exists x. split; [exact Hinx|].
    rewrite Hx. simpl. apply Z.eqb_refl. }
  congruence.
Qed.

(** C2, as stated, fails: with readings of footfall 10 on day 1 and 30 on
    day 2, two orders on day 1 and one on day 3, the order of day 3 gets
    footfall 10, the mean over the order rows, and not 20, the mean over the
    two dates. *)
Lemma iot_fill_not_per_date_mean :
  ~ (forall (data : list WRow) (iot : IotDF) (i : nat) (w : WRow) (d : Z),
       nth_error data i = Some w ->
       m_date (w_base w) = Some d ->
       date_in_iot d iot = false ->
       exists r : URow,
         nth_error (snd (merge_with_iot data iot)) i = Some r
         /\ oQeq (u_footfall r) (per_date_mean ia_footfall iot)
         /\ oQeq (u_temperature r) (per_date_mean ia_temperature iot)).
Proof.
  intros H.
  destruct (H orders_days_1_1_3 iot_two_days 2%nat (wrow_on 3) (day 3)
              eq_refl eq_refl eq_refl) as [r [Hn [Hf _]]].
  vm_compute in Hn. injection Hn as <-.
  vm_compute in Hf. discriminate.
Qed.

(** C2, amended: a row whose date has no IoT reading gets as footfall and
    temperature the mean of the footfall and temperature columns of the
    joined table, where the value of each date with readings stands once per
    order row of that date; the value is missing when no order row has a
    reading. *)
Theorem iot_fill_is_row_mean :
  forall (data : list WRow) (iot : IotDF) (i : nat) (w : WRow) (d : Z),
    nth_error data i = Some w ->
    m_date (w_base w) = Some d ->
    date_in_iot d iot = false ->
    exists r : URow,
      nth_error (snd (merge_with_iot data iot)) i = Some r
      /\ u_base r = w
      /\ u_footfall r = mean_skipna (joined_footfall data iot)
      /\ u_temperature r = mean_skipna (joined_temperature data iot).
Proof.
  intros data iot i w d Hnth Hd Habs.
  rewrite merge_with_iot_rows, nth_error_map, Hnth. simpl.
  rewrite Hd, (iot_agg_absent d iot Habs).
  eexists. split; [reflexivity|]. repeat split.
Qed.

Lemma iot_fill_is_row_mean_witness :
  exists r : URow,
    nth_error (snd (merge_with_iot orders_days_1_1_3 iot_two_days)) 2 = Some r
    /\ u_base r = wrow_on 3
    /\ u_footfall r = mean_skipna (joined_footfall orders_days_1_1_3 iot_two_days)
    /\ u_temperature r
       = mean_skipna (joined_temperature orders_days_1_1_3 iot_two_days).
Proof.
  apply (iot_fill_is_row_mean orders_days_1_1_3 iot_two_days 2%nat
                              (wrow_on 3) (day 3)); reflexivity.
Defined.

Example joined_footfall_by_row :
  joined_footfall orders_days_1_1_3 iot_two_days = [Some 10%Q; Some 10%Q; None]
  /\ per_date_mean ia_footfall iot_two_days = Some (40 # 2)%Q.
Proof. split; reflexivity. Qed.

(** *** The caller's tables *)

(** Without a [date] column the orders table of the caller gains one. *)
Lemma merge_orders_marketing_adds_date (rows : list Order)
    (marketing : list Campaign) :
  fst (merge_orders_marketing (OrdersNoDate rows) marketing)
  = OrdersDated (map (fun r => (r, o_order_date r)) rows).
Proof. reflexivity. Qed.

Lemma merge_with_iot_adds_date (data : list WRow) (rows : list Reading) :
  fst (merge_with_iot data (IotNoDate rows))
  = IotDated (map (fun r => (r, option_map dt_date (i_timestamp r))) rows).
Proof. reflexivity. Qed.

(** *** Totals of the rollups *)

Lemma sum_skipna_cons (v : option Q) (l : list (option Q)) :
  (sum_skipna (v :: l) == skipna v + sum_skipna l)%Q.
Proof.
  unfold sum_skipna. destruct v; simpl; [reflexivity | ring].
Qed.

Lemma rollup_total_sorted {K : Type} (l : list (Rollup K)) :
  (rollup_total (sort_by_amount l) == rollup_total l)%Q.
Proof.
  unfold rollup_total, sort_by_amount.
  apply Qsum_perm, Permutation_map, isort_perm.
Qed.

Section GroupSums.
Context {K : Type} (keq kleb : K -> K -> bool).
Hypothesis keq_spec : forall a b, keq a b = true <-> a = b.
Context (key : URow -> option K).

Lemma indicator_absent (k0 : option K) (v : Q) (ks : list K) :
  ~ In k0 (map Some ks) ->
  (Qsum (map (fun k => if oeqb keq k0 (Some k) then v else 0) ks) == 0)%Q.
Proof.
  induction ks as [|k ks IH]; intros Hn; simpl; [reflexivity|].
  destruct (oeqb keq k0 (Some k)) eqn:E.
  - apply (oeqb_spec keq keq_spec) in E. exfalso. apply Hn. now left.
  - rewrite IH; [ring|]. intros Hin. apply Hn. now right.
Qed.

Lemma indicator_present (k0 : K) (v : Q) (ks : list K) :
  NoDup ks -> In k0 ks ->
  (Qsum (map (fun k => if oeqb keq (Some k0) (Some k) then v else 0) ks) == v)%Q.
Proof.
  induction 1 as [|k ks Hk Hnd IH]; intros Hin; [contradiction|].
  cbn [map Qsum fold_right]. change (fold_right Qplus 0%Q) with Qsum.
  destruct (oeqb keq (Some k0) (Some k)) eqn:E.
  - apply (oeqb_spec keq keq_spec) in E. injection E as ->.
    rewrite indicator_absent; [ring|].
    intros Hin'. apply in_map_iff in Hin'. destruct Hin' as [y [Hy Hin']].
    injection Hy as ->. contradiction.
  - destruct Hin as [->|Hin].
    + assert (Ht : oeqb keq (Some k0) (Some k0) = true)
        by now apply (oeqb_spec keq keq_spec).
      congruence.
    + rewrite IH by exact Hin. ring.
Qed.

(** Summed over distinct labels that cover every key, the sums of the groups
    make the sum of the column. *)
Lemma group_sums (ks : list K) (rows : list URow) :
  NoDup ks ->
  (forall u, In u rows -> exists k, key u = Some k /\ In k ks) ->
  (Qsum (map (fun k =>
                sum_skipna (map u_total_amount
                              (filter (fun r => oeqb keq (key r) (Some k)) rows)))
             ks)
   == sum_skipna (map u_total_amount rows))%Q.
Proof.
  intros Hnd. induction rows as [|u rows IH]; intros Hcov.
  - simpl. apply Qsum_map_zero.
  - rewrite (Qsum_map_ext _
      (fun k =>
         (if oeqb keq (key u) (Some k) then skipna (u_total_amount u) else 0)
         + sum_skipna (map u_total_amount
                         (filter (fun r => oeqb keq (key r) (Some k)) rows)))%Q).
    2:{ intros k _. cbn [filter].
        destruct (oeqb keq (key u) (Some k)).
        - cbn [map]. apply sum_skipna_cons.
        - ring. }
    rewrite Qsum_map_plus, IH by (intros u' Hu'; apply Hcov; now right).
    cbn [map]. rewrite sum_skipna_cons.
    destruct (Hcov u (or_introl eq_refl)) as [k0 [Hk0 Hin]].
    rewrite Hk0, indicator_present by assumption.
    reflexivity.
Qed.

Lemma rollup_total_all (data : list URow) :
  forallb (fun u => is_some (key u)) data = true ->
  (rollup_total (rollup keq kleb key data) == total_sales data)%Q.
Proof.
  intros Hall. unfold rollup_total, rollup, groupby, total_sales.
  rewrite !map_map. cbn [agg_sales r_total_amount fst snd].
  apply group_sums.
  - now apply NoDup_group_keys.
  - intros u Hu. rewrite forallb_forall in Hall. specialize (Hall u Hu).
    destruct (key u) as [k|] eqn:Hk; [|discriminate].
    exists k. split; [reflexivity|].
    apply in_group_keys; [exact keq_spec|].
    rewrite <- Hk. now apply in_map.
Qed.

End GroupSums.

Lemma forallb_weaken {A : Type} (f g : A -> bool) (l : list A) :
  (forall x, f x = true -> g x = true) ->
  forallb f l = true -> forallb g l = true.
Proof.
  intros Hfg H. rewrite forallb_forall in *. auto.
Qed.


(** Added up exactly, the by-product rollup, the by-country rollup and the
    table itself have the same total of [total_amount], over a unified
    table in which every row has a product id and a country.  pandas adds
    in binary64, where the three totals depend on the order of the
    additions ([Rounding.three_sales_totals]). *)
Lemma rollup_totals_agree :
  forall data : list URow,
    forallb (fun u => is_some (u_product_id u) && is_some (u_country u)) data
    = true ->
    (rollup_total (product_sales (create_aggregations data))
     == rollup_total (country_sales (create_aggregations data)))%Q
    /\ (rollup_total (product_sales (create_aggregations data))
        == total_sales data)%Q.
Proof.
  intros data Hall.
  assert (Hp : (rollup_total (product_sales (create_aggregations data))
                == total_sales data)%Q).
  { cbn [create_aggregations product_sales]. rewrite rollup_total_sorted.
    apply rollup_total_all; [apply Zeqb_spec|].
    revert Hall. apply forallb_weaken.
    intros u Hu. now apply andb_true_iff in Hu. }
  assert (Hc : (rollup_total (country_sales (create_aggregations data))
                == total_sales data)%Q).
  { cbn [create_aggregations country_sales]. rewrite rollup_total_sorted.
    apply rollup_total_all; [apply String.eqb_eq|].
    revert Hall. apply forallb_weaken.
    intros u Hu. now apply andb_true_iff in Hu. }
  split; [now rewrite Hp, Hc | exact Hp].
Qed.

Lemma two_countries_totals_agree :
  (rollup_total (product_sales (create_aggregations two_countries))
   == rollup_total (country_sales (create_aggregations two_countries)))%Q
  /\ (rollup_total (product_sales (create_aggregations two_countries))
      == total_sales two_countries)%Q.
Proof.
  apply (rollup_totals_agree two_countries). reflexivity.
Defined.

(** *** The groups of a rollup *)

Section GroupRows.
Context {R K : Type} (keq kleb : K -> K -> bool).
Hypothesis keq_spec : forall a b, keq a b = true <-> a = b.
Context (key : R -> option K).






End GroupRows.



Example two_countries_rollups :
  map (fun r => (r_key r, r_total_amount r, r_order_count r))
      (product_sales (create_aggregations two_countries))
  = [(10, 200%Q, 2%nat); (11, 50%Q, 1%nat)]
  /\ map (fun r => (r_key r, r_total_amount r, r_order_count r))
         (country_sales (create_aggregations two_countries))
     = [("FR"%string, 200%Q, 2%nat); ("US"%string, 50%Q, 1%nat)].
Proof. split; reflexivity. Qed.

End FederationFacts.

(** ** Further properties of the normaliser *)

Module NormalisationExtra.
Import Normalisation Columns Samples NormalisationFacts.

(** *** Shape of the table under [normalize_numeric] *)

Lemma set_col_shape (col : string) (v s : Series) (df : DataFrame) :
  get_col col df = Some s ->
  List.length (s_values v) = List.length (s_values s) ->
  shape (set_col col v df) = shape df.
Proof.
  intros Hg Hlen. induction df as [|[n s0] df IH]; [discriminate|].
  simpl in *. destruct (String.eqb col n).
  - injection Hg as ->. unfold shape. simpl. now rewrite Hlen.
  - unfold shape in *. simpl. now rewrite IH.
Qed.

Lemma astype_float_length (l r : list cell) :
  astype_float l = Some r -> List.length r = List.length l.
Proof.
  revert r. induction l as [|c l IH]; intros r H; simpl in H.
  - now injection H as <-.
  - destruct (astype_float_cell c); [|discriminate].
    destruct (astype_float l) as [r'|]; [|discriminate].
    injection H as <-. simpl. now rewrite (IH r').
Qed.

Lemma astype_float_no_text (l r : list cell) :
  astype_float l = Some r -> forallb (fun c => negb (is_text c)) r = true.
Proof.
  revert r. induction l as [|c l IH]; intros r H; simpl in H.
  - now injection H as <-.
  - destruct (astype_float_cell c) as [c'|] eqn:Hc; [|discriminate].
    destruct (astype_float l) as [r'|]; [|discriminate].
    injection H as <-. simpl. rewrite (IH r' eq_refl), andb_true_r.
    destruct c as [t|q|]; simpl in Hc.
    + destruct (parse_float t); [now injection Hc as <- | discriminate].
    + now injection Hc as <-.
    + now injection Hc as <-.
Qed.

Lemma to_numeric_no_text (l : list cell) :
  forallb (fun c => negb (is_text c)) (map to_numeric_cell l) = true.
Proof.
  induction l as [|c l IH]; [reflexivity|].
  simpl. rewrite IH, andb_true_r.
  destruct c as [t|q|]; simpl; [now destruct (parse_float t) | reflexivity..].
Qed.

Lemma clean_currency_some (s s' : Series) :
  clean_currency s = Some s' ->
  s_dtype s' = DNumber
  /\ List.length (s_values s') = List.length (s_values s)
  /\ forallb (fun c => negb (is_text c)) (s_values s') = true.
Proof.
  unfold clean_currency.
  destruct (astype_float (map str_replace_currency (s_values s))) as [vs|] eqn:E;
    [|discriminate].
  intros H. injection H as <-. simpl. repeat split.
  - rewrite (astype_float_length _ _ E). apply length_map.
  - exact (astype_float_no_text _ _ E).
Qed.

(** A conversion that goes through gives a column of numbers and missing
    cells, as long as the one it read. *)
Lemma convert_numeric_some (s s' : Series) :
  convert_numeric s = Some s' ->
  s_dtype s' = DNumber
  /\ List.length (s_values s') = List.length (s_values s)
  /\ forallb (fun c => negb (is_text c)) (s_values s') = true.
Proof.
  assert (Hnum : forall t, Some (to_numeric_coerce s) = Some t ->
            s_dtype t = DNumber
            /\ List.length (s_values t) = List.length (s_values s)
            /\ forallb (fun c => negb (is_text c)) (s_values t) = true).
  { intros t H. injection H as <-. simpl. repeat split.
    - apply length_map.
    - apply to_numeric_no_text. }
  unfold convert_numeric. destruct (s_dtype s).
  - apply Hnum.
  - destruct (s_values s) as [|c0 l] eqn:Hv; [discriminate|].
    destruct (dollar_in_str c0).
    + intros H. apply clean_currency_some in H. now rewrite Hv in H.
    + apply Hnum.
Qed.

Lemma normalize_numeric_col_shape (df : DataFrame) (col : string) :
  shape (normalize_numeric_col df col) = shape df.
Proof.
  unfold normalize_numeric_col.
  destruct (get_col col df) as [s|] eqn:Hg; [|reflexivity].
  destruct (convert_numeric s) as [s'|] eqn:Hc; [|reflexivity].
  apply (set_col_shape col s' s df Hg).
  now apply convert_numeric_some in Hc.
Qed.

(** X1: [normalize_numeric] never adds, drops, renames or reorders a column
    and never changes the number of cells of a column, whatever columns it
    is asked to convert. *)
Theorem normalize_numeric_keeps_shape :
  forall (df : DataFrame) (numeric_columns : list string),
    shape (normalize_numeric df numeric_columns) = shape df.
Proof.
  intros df cols. unfold normalize_numeric. revert df.
  induction cols as [|col cols IH]; intros df; simpl.
  - reflexivity.
  - rewrite IH. apply normalize_numeric_col_shape.
Qed.

(** X2: column names that the table does not have are passed over: asked
    to convert only such columns, [normalize_numeric] gives the table back
    as it was. *)
Theorem normalize_numeric_skips_absent_columns :
  forall (df : DataFrame) (numeric_columns : list string),
    forallb (fun col => negb (has_column df col)) numeric_columns = true ->
    normalize_numeric df numeric_columns = df.
Proof.
  intros df cols. unfold normalize_numeric.
  induction cols as [|col cols IH]; intros H; simpl in *; [reflexivity|].
  apply andb_true_iff in H. destruct H as [Hc Hrest].
  unfold normalize_numeric_col at 2. unfold has_column in Hc.
  destruct (get_col col df); [discriminate|]. now apply IH.
Qed.

Lemma normalize_numeric_skips_absent_columns_witness :
  normalize_numeric gappy ["price"%string; "total"%string] = gappy.
Proof.
  apply (normalize_numeric_skips_absent_columns gappy
           ["price"%string; "total"%string]).
  reflexivity.
Defined.

(** X3: a column is converted as a whole or not at all: after
    [normalize_numeric] on one column, the column is either exactly as it
    was, or of numeric type without any text cell left. *)
Theorem normalize_numeric_whole_column :
  forall (df : DataFrame) (col : string) (s : Series),
    get_col col df = Some s ->
    exists s' : Series,
      get_col col (normalize_numeric df [col]) = Some s'
      /\ (s' = s
          \/ (s_dtype s' = DNumber
              /\ forallb (fun c => negb (is_text c)) (s_values s') = true)).
Proof.
  intros df col s Hg. unfold normalize_numeric. simpl.
  unfold normalize_numeric_col. rewrite Hg.
  destruct (convert_numeric s) as [s'|] eqn:Hc.
  - exists s'. split; [apply get_set_same|]. right.
    apply convert_numeric_some in Hc. tauto.
  - exists s. split; [exact Hg | now left].
Qed.

Lemma normalize_numeric_whole_column_witness :
  exists s' : Series,
    get_col "total_amount" (normalize_numeric mixed_prices ["total_amount"%string])
    = Some s'
    /\ (s' = mkSeries DObject [Str "$1,234.50"; Str "€99"]
        \/ (s_dtype s' = DNumber
            /\ forallb (fun c => negb (is_text c)) (s_values s') = true)).
Proof.
  apply (normalize_numeric_whole_column mixed_prices "total_amount"
           (mkSeries DObject [Str "$1,234.50"; Str "€99"])).
  reflexivity.
Defined.

(** *** Conversions that fail *)

Lemma digit_literal (a : ascii) : is_digit a = true -> literal_char a = true.
Proof. intros H. unfold literal_char. now rewrite H. Qed.

Lemma space_literal (a : ascii) : is_space a = true -> literal_char a = true.
Proof.
  intros H. unfold literal_char. rewrite H. now rewrite orb_true_r.
Qed.

Lemma all_literal_lstrip (s : string) :
  all_literal (lstrip s) = true -> all_literal s = true.
Proof.
  induction s as [|a s IH]; [trivial|].
  cbn [lstrip]. destruct (is_space a) eqn:E; [|trivial].
  intros H. cbn [all_literal]. now rewrite (space_literal a E), IH.
Qed.

Lemma all_literal_read_sign (s : string) :
  all_literal (snd (read_sign s)) = true -> all_literal s = true.
Proof.
  destruct s as [|a s]; [trivial|]. cbn [read_sign].
  destruct (Ascii.eqb a "-") eqn:E1.
  - apply Ascii.eqb_eq in E1. subst a. trivial.
  - destruct (Ascii.eqb a "+") eqn:E2; [|trivial].
    apply Ascii.eqb_eq in E2. subst a. trivial.
Qed.

Lemma all_literal_read_digits (s : string) :
  forall (acc : Z) (cnt : nat),
    all_literal (snd (read_digits acc cnt s)) = true -> all_literal s = true.
Proof.
  induction s as [|a s IH]; intros acc cnt; [trivial|].
  cbn [read_digits]. destruct (is_digit a) eqn:E; [|trivial].
  intros H. cbn [all_literal]. rewrite (digit_literal a E).
  now apply IH in H.
Qed.

Lemma all_space_literal (s : string) :
  all_space s = true -> all_literal s = true.
Proof.
  induction s as [|a s IH]; [trivial|].
  cbn [all_space all_literal]. intros H. apply andb_true_iff in H.
  destruct H as [Ha Hs]. now rewrite (space_literal a Ha), IH.
Qed.

Lemma all_literal_read_exponent (s s' : string) (e : Z) :
  read_exponent s = Some (e, s') ->
  all_literal s' = true -> all_literal s = true.
Proof.
  destruct s as [|a s]; cbn [read_exponent].
  - intros H. now injection H as _ <-.
  - destruct (Ascii.eqb a "e" || Ascii.eqb a "E") eqn:E.
    + destruct (read_sign s) as [sg s1] eqn:E1.
      destruct (read_digits 0 0%nat s1) as [[v n] s2] eqn:E2.
      destruct n as [|n]; [discriminate|].
      intros H. injection H as _ <-. intros H.
      assert (H1 : all_literal s1 = true).
      { apply (all_literal_read_digits s1 0 0%nat). now rewrite E2. }
      assert (H0 : all_literal s = true).
      { apply all_literal_read_sign. now rewrite E1. }
      cbn [all_literal]. rewrite H0, andb_true_r.
      apply orb_true_iff in E.
      destruct E as [E|E]; apply Ascii.eqb_eq in E; now subst a.
    + intros H. now injection H as _ <-.
Qed.

(** Every text that the model reads as a number is made of the bytes of
    float literals. *)
Lemma parse_float_literal (s : string) (q : Q) :
  parse_float s = Some q -> all_literal s = true.
Proof.
  unfold parse_float.
  destruct (read_sign (lstrip s)) as [sg s1] eqn:E1.
  destruct (read_digits 0 0%nat s1) as [[ip ni] s2] eqn:E2.
  intros H.
  apply all_literal_lstrip, all_literal_read_sign. rewrite E1. cbn [snd].
  apply (all_literal_read_digits s1 0 0%nat). rewrite E2. cbn [snd].
  destruct s2 as [|a s2'].
  - destruct (ni + 0)%nat; [discriminate|]. reflexivity.
  - destruct (Ascii.eqb a ".") eqn:Ea.
    + apply Ascii.eqb_eq in Ea. subst a.
      destruct (read_digits 0 0%nat s2') as [[fp nf] s3] eqn:E3.
      destruct (ni + nf)%nat; [discriminate|].
      destruct (read_exponent s3) as [[e s4]|] eqn:E4; [|discriminate].
      destruct (all_space s4) eqn:E5; [|discriminate].
      cbn [all_literal]. cbn [andb literal_char].
      change (literal_char ".") with true. cbn [andb].
      apply (all_literal_read_digits s2' 0 0%nat). rewrite E3. cbn [snd].
      apply (all_literal_read_exponent s3 s4 e E4).
      now apply all_space_literal.
    + destruct (ni + 0)%nat; [discriminate|].
      destruct (read_exponent (String a s2')) as [[e s4]|] eqn:E4; [|discriminate].
      destruct (all_space s4) eqn:E5; [|discriminate].
      apply (all_literal_read_exponent _ s4 e E4).
      now apply all_space_literal.
Qed.

Lemma astype_float_unreadable (l : list cell) :
  existsb unreadable_amount l = true ->
  astype_float (map str_replace_currency l) = None.
Proof.
  induction l as [|c l IH]; intros H; simpl in H; [discriminate|].
  simpl. apply orb_true_iff in H. destruct H as [Hc|Hl].
  - destruct c as [t|q|]; simpl in Hc; try discriminate.
    simpl. destruct (parse_float (strip_currency t)) as [q|] eqn:P; [|reflexivity].
    apply parse_float_literal in P. rewrite P in Hc. discriminate.
  - rewrite (IH Hl). now destruct (astype_float_cell (str_replace_currency c)).
Qed.

(** X4: the failure of one cell keeps the whole column as text: when the
    first cell of a text column shows a dollar sign and some cell, once
    '$', '€' and ',' are stripped, still holds a character that no float
    literal has (a letter other than those of [inf] and [nan], a slash, a
    percent sign, ...), [normalize_numeric] leaves the table untouched, the
    readable amounts of the column included. *)
Theorem normalize_numeric_bad_amount_keeps_text :
  forall (df : DataFrame) (col : string) (s : Series),
    get_col col df = Some s ->
    s_dtype s = DObject ->
    dollar_first s = true ->
    existsb unreadable_amount (s_values s) = true ->
    normalize_numeric df [col] = df.
Proof.
  intros df col s Hg Hd Hfirst Hbad.
  unfold normalize_numeric. simpl. unfold normalize_numeric_col.
  rewrite Hg. unfold convert_numeric. rewrite Hd.
  unfold dollar_first in Hfirst.
  destruct (s_values s) as [|c0 l] eqn:Hv; [reflexivity|].
  rewrite Hfirst. unfold clean_currency. rewrite Hv.
  now rewrite (astype_float_unreadable (c0 :: l) Hbad).
Qed.

Lemma normalize_numeric_bad_amount_keeps_text_witness :
  normalize_numeric prices_with_note ["total_amount"%string] = prices_with_note.
Proof.
  apply (normalize_numeric_bad_amount_keeps_text prices_with_note "total_amount"
           (mkSeries DObject [Str "$1,234.50"; Str "n/a"; Str "$7"]));
    reflexivity.
Defined.

(** *** Missing cells: the strategies 'zero' and 'drop' *)

Lemma missing_total_zero (df : DataFrame) :
  missing_total df = 0%nat <->
  forall ns, In ns df -> count_null (snd ns) = 0%nat.
Proof.
  induction df as [|ns df IH]; simpl.
  - split; [intros _ x [] | reflexivity].
  - split.
    + intros H x [<-|Hx]; [lia|]. apply IH; [lia | exact Hx].
    + intros H. rewrite (H ns (or_introl eq_refl)). simpl.
      apply IH. intros x Hx. apply H. now right.
Qed.

Lemma get_col_In (col : string) (df : DataFrame) (s : Series) :
  get_col col df = Some s -> In (col, s) df.
Proof.
  induction df as [|[n s0] df IH]; simpl; [discriminate|].
  destruct (String.eqb col n) eqn:E.
  - apply String.eqb_eq in E. intros H. injection H as ->. left. now subst.
  - intros H. right. now apply IH.
Qed.

Lemma get_col_map (f : Series -> Series) (col : string) (df : DataFrame) :
  get_col col (map (fun ns => (fst ns, f (snd ns))) df)
  = option_map f (get_col col df).
Proof.
  induction df as [|[n s0] df IH]; simpl; [reflexivity|].
  now destruct (String.eqb col n).
Qed.

Lemma fillna_no_null (v : option Q) (s : Series) :
  count_null s = 0%nat -> fillna v s = s.
Proof.
  destruct s as [d l]. unfold count_null, fillna. simpl. intros H. f_equal.
  induction l as [|c l IH]; [reflexivity|].
  destruct c as [t|q|]; simpl in *; try discriminate; now rewrite IH.
Qed.

Lemma fillna_some_no_null (q : Q) (s : Series) :
  count_null (fillna (Some q) s) = 0%nat.
Proof.
  destruct s as [d l]. unfold count_null, fillna. simpl.
  induction l as [|c l IH]; [reflexivity|]. now destruct c.
Qed.

Lemma fillna_zero_no_missing (df : DataFrame) :
  missing_total (fillna_zero df) = 0%nat.
Proof.
  apply missing_total_zero. intros ns Hin. unfold fillna_zero in Hin.
  apply in_map_iff in Hin. destruct Hin as [ms [<- _]].
  apply fillna_some_no_null.
Qed.

(** X5: after the strategy 'zero' the table has no missing cell, and every
    column, text columns included, is the column it was with the number 0
    in place of each missing cell. *)
Theorem handle_missing_values_zero_fills_all :
  forall df : DataFrame,
    missing_total (handle_missing_values df "zero") = 0%nat
    /\ forall (col : string) (s : Series),
         get_col col df = Some s ->
         get_col col (handle_missing_values df "zero")
         = Some (fillna (Some 0%Q) s).
Proof.
  intros df. unfold handle_missing_values.
  destruct (missing_total df =? 0)%nat eqn:E.
  - apply Nat.eqb_eq in E. split; [exact E|].
    intros col s Hg. rewrite Hg, fillna_no_null; [reflexivity|].
    apply (proj1 (missing_total_zero df) E (col, s)), get_col_In, Hg.
  - cbn [String.eqb Ascii.eqb Bool.eqb]. split.
    + apply fillna_zero_no_missing.
    + intros col s Hg. unfold fillna_zero. now rewrite get_col_map, Hg.
Qed.

Lemma keep_rows_and_mask (m : list bool) (l : list cell) :
  filter isnull (keep_rows (and_mask m l) l) = [].
Proof.
  revert l. induction m as [|b m IH]; intros [|c l]; try reflexivity.
  simpl. destruct b, c; simpl; apply IH.
Qed.

Lemma keep_rows_narrow (m : list bool) (l l' : list cell) :
  filter isnull (keep_rows m l) = [] ->
  filter isnull (keep_rows (and_mask m l') l) = [].
Proof.
  revert l l'. induction m as [|b m IH]; intros [|c l] [|c' l'] H;
    try reflexivity.
  simpl in *. destruct b; simpl.
  - destruct (isnull c) eqn:Hc; simpl in H; rewrite Hc in H; [discriminate|].
    destruct (negb (isnull c')); simpl; [rewrite Hc|]; now apply IH.
  - now apply IH.
Qed.

Lemma dropna_mask_clean (cols done : DataFrame) (m : list bool) :
  (forall ns, In ns done -> filter isnull (keep_rows m (s_values (snd ns))) = []) ->
  forall ns, In ns (done ++ cols) ->
    filter isnull
      (keep_rows (fold_left (fun m0 ms => and_mask m0 (s_values (snd ms))) cols m)
                 (s_values (snd ns))) = [].
Proof.
  revert done m. induction cols as [|c cols IH]; intros done m Hdone ns Hin.
  - rewrite app_nil_r in Hin. now apply Hdone.
  - simpl. apply (IH (done ++ [c])).
    + intros x Hx. apply in_app_or in Hx. destruct Hx as [Hx|[<-|[]]].
      * now apply keep_rows_narrow, Hdone.
      * apply keep_rows_and_mask.
    + now rewrite <- app_assoc.
Qed.

Lemma dropna_no_missing (df : DataFrame) : missing_total (dropna df) = 0%nat.
Proof.
  unfold dropna. apply missing_total_zero. intros ns Hin.
  apply in_map_iff in Hin. destruct Hin as [ms [<- Hms]].
  unfold count_null. simpl.
  rewrite (dropna_mask_clean df [] _ (fun x (F : In x []) => match F with end) ms Hms).
  reflexivity.
Qed.

(** X6: after the strategy 'drop' the table has no missing cell. *)
Theorem handle_missing_values_drop_no_missing :
  forall df : DataFrame,
    missing_total (handle_missing_values df "drop") = 0%nat.
Proof.
  intros df. unfold handle_missing_values.
  destruct (missing_total df =? 0)%nat eqn:E; [now apply Nat.eqb_eq|].
  cbn [String.eqb Ascii.eqb Bool.eqb]. apply dropna_no_missing.
Qed.

(** *** The rows that 'drop' keeps *)

Lemma and_mask_seq (l : list cell) (f : nat -> bool) (a : nat) :
  and_mask (map f (seq a (List.length l))) l
  = map (fun i => f i && negb (isnull (nth (i - a) l NA)))
        (seq a (List.length l)).
Proof.
  revert a. induction l as [|c l IH]; intros a; [reflexivity|].
  simpl. rewrite Nat.sub_diag. f_equal.
  rewrite IH. apply map_ext_in. intros i Hi. apply in_seq in Hi.
  replace (i - a)%nat with (S (i - S a)) by lia. reflexivity.
Qed.

Lemma fold_mask_seq (cols : DataFrame) (f : nat -> bool) (n : nat) :
  rectangular cols n = true ->
  fold_left (fun m ns => and_mask m (s_values (snd ns))) cols (map f (seq 0 n))
  = map (fun i =>
           f i && forallb (fun ns => negb (isnull (nth i (s_values (snd ns)) NA)))
                          cols)
        (seq 0 n).
Proof.
  revert f. induction cols as [|c cols IH]; intros f Hrect; simpl in *.
  - apply map_ext. intros i. now rewrite andb_true_r.
  - apply andb_true_iff in Hrect. destruct Hrect as [Hc Hrest].
    apply Nat.eqb_eq in Hc. subst n.
    rewrite and_mask_seq, (IH _ Hrest).
    apply map_ext. intros i. now rewrite Nat.sub_0_r, andb_assoc.
Qed.

Lemma repeat_true_seq (a n : nat) :
  repeat true n = map (fun _ => true) (seq a n).
Proof.
  revert a. induction n as [|n IH]; intros a; [reflexivity|].
  simpl. now rewrite (IH (S a)).
Qed.

Lemma keep_rows_all {A : Type} (l : list A) (a : nat) :
  keep_rows (map (fun _ => true) (seq a (List.length l))) l = l.
Proof.
  revert a. induction l as [|x l IH]; intros a; [reflexivity|].
  simpl. now rewrite IH.
Qed.

Lemma no_null_nth (l : list cell) (i : nat) :
  filter isnull l = [] -> isnull (nth i l NA) = false \/ (List.length l <= i)%nat.
Proof.
  revert i. induction l as [|c l IH]; intros i H; [right; simpl; lia|].
  simpl in H. destruct (isnull c) eqn:Hc; [discriminate|].
  destruct i as [|i]; [now left|].
  destruct (IH i H) as [Hn|Hn]; [now left | right; simpl; lia].
Qed.

Lemma rectangular_In (df : DataFrame) (n : nat) (ns : string * Series) :
  rectangular df n = true -> In ns df -> List.length (s_values (snd ns)) = n.
Proof.
  unfold rectangular. rewrite forallb_forall. intros H Hin.
  now apply Nat.eqb_eq, H.
Qed.

(** X7: on a table whose columns all have [n] cells, the strategy 'drop'
    keeps in every column exactly the cells of the rows that hold no
    missing cell in any column, in their order, under the same column names
    and types. *)
Theorem handle_missing_values_drop_keeps_complete_rows :
  forall (df : DataFrame) (n : nat),
    rectangular df n = true ->
    handle_missing_values df "drop"
    = map (fun ns =>
             (fst ns,
              mkSeries (s_dtype (snd ns))
                       (keep_rows (map (row_complete df) (seq 0 n))
                                  (s_values (snd ns)))))
          df.
Proof.
  intros df n Hrect. unfold handle_missing_values.
  destruct (missing_total df =? 0)%nat eqn:E.
  - apply Nat.eqb_eq in E.
    assert (Hall : map (row_complete df) (seq 0 n)
                   = map (fun _ => true) (seq 0 n)).
    { apply map_ext_in. intros i Hi. apply in_seq in Hi.
      unfold row_complete. apply forallb_forall. intros ns Hin.
      pose proof (proj1 (missing_total_zero df) E ns Hin) as Hnull.
      unfold count_null in Hnull. apply length_zero_iff_nil in Hnull.
      pose proof (rectangular_In df n ns Hrect Hin) as Hlen.
      destruct (no_null_nth _ i Hnull) as [->|Hout]; [reflexivity | lia]. }
    rewrite Hall. symmetry.
    erewrite map_ext_in; [apply map_id|].
    intros [name [d l]] Hin. simpl.
    pose proof (rectangular_In df n _ Hrect Hin) as Hlen. simpl in Hlen.
    subst n. now rewrite keep_rows_all.
  - cbn [String.eqb Ascii.eqb Bool.eqb]. unfold dropna.
    destruct df as [|c df]; [reflexivity|].
    assert (Hn : nrows (c :: df) = n).
    { destruct c as [name s]. simpl.
      apply (rectangular_In _ n (name, s) Hrect). now left. }
    rewrite Hn, (repeat_true_seq 0 n), (fold_mask_seq _ _ n Hrect).
    reflexivity.
Qed.

Lemma handle_missing_values_drop_keeps_complete_rows_witness :
  handle_missing_values gappy "drop"
  = map (fun ns =>
           (fst ns,
            mkSeries (s_dtype (snd ns))
                     (keep_rows (map (row_complete gappy) (seq 0 3))
                                (s_values (snd ns)))))
        gappy.
Proof.
  apply (handle_missing_values_drop_keeps_complete_rows gappy 3). reflexivity.
Defined.

Example gappy_dropped :
  handle_missing_values gappy "drop"
  = [("quantity"%string, mkSeries DNumber [Num 1]);
     ("country"%string, mkSeries DObject [Str "FR"])].
Proof. reflexivity. Qed.

(** *** The loop of the strategies 'mean' and 'median' *)

Lemma unique_names_NoDup (df : DataFrame) :
  unique_names df = true -> NoDup (map fst df).
Proof.
  induction df as [|ns df IH]; simpl; intros H; [constructor|].
  apply andb_true_iff in H. destruct H as [Hhd Htl].
  constructor; [|now apply IH].
  intros Hin. apply in_map_iff in Hin. destruct Hin as [ms [Hname Hms]].
  apply negb_true_iff in Hhd.
  assert (Ht : existsb (fun ms => String.eqb (fst ns) (fst ms)) df = true).
  { apply existsb_exists. exists ms. split; [exact Hms|].
    now apply String.eqb_eq. }
  congruence.
Qed.

Lemma NoDup_names_filter (p : string * Series -> bool) (df : DataFrame) :
  NoDup (map fst df) -> NoDup (map fst (filter p df)).
Proof.
  induction df as [|ns df IH]; simpl; intros H; [constructor|].
  inversion H as [|x xs Hx Hnd]; subst.
  destruct (p ns); simpl; [|now apply IH].
  constructor; [|now apply IH].
  intros Hin. apply Hx. apply in_map_iff in Hin.
  destruct Hin as [ms [Hname Hms]]. apply filter_In in Hms.
  rewrite <- Hname. apply in_map. tauto.
Qed.

Lemma NoDup_names_same (df : DataFrame) (c c' : string * Series) :
  NoDup (map fst df) -> In c df -> In c' df -> fst c = fst c' -> c = c'.
Proof.
  induction df as [|ns df IH]; simpl; intros H Hc Hc' Hname; [contradiction|].
  inversion H as [|x xs Hx Hnd]; subst.
  destruct Hc as [->|Hc], Hc' as [->|Hc'].
  - reflexivity.
  - exfalso. apply Hx. rewrite Hname. now apply in_map.
  - exfalso. apply Hx. rewrite <- Hname. now apply in_map.
  - now apply IH.
Qed.

Section Loop.
Variable strategy : string.

Lemma fill_named_fst (n : string) (ns : string * Series) :
  fst (fill_named strategy n ns) = fst ns.
Proof. unfold fill_named. now destruct (String.eqb n (fst ns)). Qed.

Lemma fill_named_other (n : string) (df : DataFrame) :
  ~ In n (map fst df) -> map (fill_named strategy n) df = df.
Proof.
  intros H. erewrite map_ext_in; [apply map_id|].
  intros ns Hin. unfold fill_named.
  destruct (String.eqb n (fst ns)) eqn:E; [|reflexivity].
  apply String.eqb_eq in E. exfalso. apply H. rewrite E. now apply in_map.
Qed.

Lemma fill_col_cons_other (n m : string) (s0 : Series) (df : DataFrame) :
  String.eqb n m = false ->
  fill_col strategy ((m, s0) :: df) n = (m, s0) :: fill_col strategy df n.
Proof.
  intros E. unfold fill_col. cbn [get_col]. rewrite E.
  destruct (get_col n df) as [s|]; [|reflexivity].
  destruct (existsb isnull (s_values s)); [|reflexivity].
  cbn [set_col]. now rewrite E.
Qed.

(** One turn of the loop touches the column of that name, and only it. *)
Lemma fill_col_map (n : string) (df : DataFrame) :
  NoDup (map fst df) -> fill_col strategy df n = map (fill_named strategy n) df.
Proof.
  induction df as [|[m s0] df IH]; intros Hnd; [reflexivity|].
  inversion Hnd as [|x xs Hx Hnd']; subst.
  destruct (String.eqb n m) eqn:E.
  - pose proof E as E'. apply String.eqb_eq in E'. subst m.
    cbn [map]. rewrite (fill_named_other n df Hx).
    unfold fill_col, fill_named, filled. simpl. rewrite E.
    destruct (existsb isnull (s_values s0)); simpl; now rewrite ?E.
  - rewrite (fill_col_cons_other n m s0 df E), (IH Hnd').
    cbn [map]. unfold fill_named at 2. simpl. now rewrite E.
Qed.

Lemma fold_fill_map (ns : list string) :
  forall df : DataFrame,
    NoDup ns -> NoDup (map fst df) ->
    fold_left (fill_col strategy) ns df
    = map (fun c =>
             if existsb (String.eqb (fst c)) ns
             then (fst c, filled strategy (snd c)) else c)
          df.
Proof.
  induction ns as [|n ns IH]; intros df Hns Hdf; simpl.
  - symmetry. apply map_id.
  - inversion Hns as [|x xs Hn Hns']; subst.
    rewrite (fill_col_map n df Hdf), IH; [|exact Hns'|].
    2:{ rewrite map_map.
        erewrite map_ext; [exact Hdf | apply fill_named_fst]. }
    rewrite map_map. apply map_ext. intros c.
    rewrite fill_named_fst. unfold fill_named.
    rewrite (String.eqb_sym (fst c) n).
    destruct (String.eqb n (fst c)) eqn:E; simpl.
    + apply String.eqb_eq in E. subst n.
      destruct (existsb (String.eqb (fst c)) ns) eqn:Ex; [|reflexivity].
      exfalso. apply Hn. apply existsb_exists in Ex.
      destruct Ex as [y [Hy Hcy]]. apply String.eqb_eq in Hcy. now subst.
    + reflexivity.
Qed.

Lemma in_numeric_cols (df : DataFrame) (c : string * Series) :
  NoDup (map fst df) -> In c df ->
  existsb (String.eqb (fst c)) (numeric_cols df)
  = dtype_eqb (s_dtype (snd c)) DNumber.
Proof.
  intros Hnd Hin. unfold numeric_cols.
  destruct (dtype_eqb (s_dtype (snd c)) DNumber) eqn:Hd.
  - apply existsb_exists. exists (fst c). split; [|apply String.eqb_refl].
    apply in_map, filter_In. now split.
  - destruct (existsb _ _) eqn:Ex; [|reflexivity].
    apply existsb_exists in Ex. destruct Ex as [y [Hy Hcy]].
    apply String.eqb_eq in Hcy. subst y.
    apply in_map_iff in Hy. destruct Hy as [c' [Hname Hc']].
    apply filter_In in Hc'. destruct Hc' as [Hc' Hnum].
    rewrite (NoDup_names_same df c c' Hnd Hin Hc' (eq_sym Hname)) in Hd.
    congruence.
Qed.

Lemma loop_fill_numeric (df : DataFrame) :
  NoDup (map fst df) ->
  fold_left (fill_col strategy) (numeric_cols df) df = fill_numeric strategy df.
Proof.
  intros Hnd. rewrite fold_fill_map; [|now apply NoDup_names_filter | exact Hnd].
  unfold fill_numeric. apply map_ext_in. intros c Hin.
  now rewrite (in_numeric_cols df c Hnd Hin).
Qed.

Lemma filled_no_null (s : Series) :
  count_null s = 0%nat -> filled strategy s = s.
Proof.
  intros H. unfold filled.
  destruct (existsb isnull (s_values s)) eqn:E; [|reflexivity].
  apply existsb_exists in E. destruct E as [c [Hin Hc]].
  unfold count_null in H. apply length_zero_iff_nil in H.
  assert (Hf : In c (filter isnull (s_values s))) by now apply filter_In.
  rewrite H in Hf. contradiction.
Qed.

Lemma fill_numeric_no_missing (df : DataFrame) :
  missing_total df = 0%nat -> fill_numeric strategy df = df.
Proof.
  intros H. unfold fill_numeric.
  erewrite map_ext_in; [apply map_id|].
  intros [n s] Hin. simpl.
  rewrite (filled_no_null s (proj1 (missing_total_zero df) H (n, s) Hin)).
  now destruct (dtype_eqb (s_dtype s) DNumber).
Qed.

End Loop.

Lemma handle_missing_values_loop (df : DataFrame) (strategy : string) :
  unique_names df = true ->
  strategy = "mean"%string \/ strategy = "median"%string ->
  handle_missing_values df strategy = fill_numeric strategy df.
Proof.
  intros Hu Hst. unfold handle_missing_values.
  destruct (missing_total df =? 0)%nat eqn:E.
  - apply Nat.eqb_eq in E. symmetry. now apply fill_numeric_no_missing.
  - destruct Hst as [-> | ->]; cbn [String.eqb Ascii.eqb Bool.eqb orb];
      now apply loop_fill_numeric, unique_names_NoDup.
Qed.

(** X8: on a table with distinct column names, the strategies 'mean' and
    'median' fill each numeric column by itself: a numeric column holding a
    missing cell has its missing cells replaced by its own mean (median)
    over its own non-missing cells, and every other column is left as it
    was. *)
Theorem handle_missing_values_fills_each_numeric_column :
  forall (df : DataFrame) (strategy : string),
    unique_names df = true ->
    strategy = "mean"%string \/ strategy = "median"%string ->
    handle_missing_values df strategy = fill_numeric strategy df.
Proof.
  intros df strategy Hu Hst. unfold handle_missing_values.
  destruct (missing_total df =? 0)%nat eqn:E.
  - apply Nat.eqb_eq in E. symmetry. now apply fill_numeric_no_missing.
  - destruct Hst as [-> | ->]; cbn [String.eqb Ascii.eqb Bool.eqb orb];
      now apply loop_fill_numeric, unique_names_NoDup.
Qed.

Lemma handle_missing_values_fills_each_numeric_column_witness :
  handle_missing_values gappy "median" = fill_numeric "median" gappy.
Proof.
  apply (handle_missing_values_fills_each_numeric_column gappy "median");
    [reflexivity | right; reflexivity].
Defined.

(** *** What the filling strategies leave alone *)

Lemma fill_numeric_series (strategy : string) (df : DataFrame) :
  fill_numeric strategy df
  = map (fun ns => (fst ns, fill_series strategy (snd ns))) df.
Proof.
  unfold fill_numeric, fill_series. apply map_ext. intros [n s]. simpl.
  now destruct (dtype_eqb (s_dtype s) DNumber).
Qed.

Lemma fillna_keeps_values (v : option Q) (s : Series) :
  keeps_values s (fillna v s).
Proof.
  unfold keeps_values, fillna. simpl. repeat split.
  - apply length_map.
  - intros i c Hn Hc. rewrite nth_error_map, Hn. simpl.
    destruct c; [reflexivity | reflexivity | contradiction].
Qed.

Lemma keeps_values_refl (s : Series) : keeps_values s s.
Proof. unfold keeps_values. auto. Qed.

Lemma filled_keeps_values (strategy : string) (s : Series) :
  keeps_values s (filled strategy s).
Proof.
  unfold filled. destruct (existsb isnull (s_values s)).
  - apply fillna_keeps_values.
  - apply keeps_values_refl.
Qed.

(** X9: the strategies 'mean' and 'median' never overwrite a value: every
    column keeps its type, its length and each of its non-missing cells at
    its place, and a text column is left exactly as it was, its missing
    cells included. *)
Theorem handle_missing_values_mean_median_keep_values :
  forall (df : DataFrame) (strategy col : string) (s : Series),
    unique_names df = true ->
    strategy = "mean"%string \/ strategy = "median"%string ->
    get_col col df = Some s ->
    exists s' : Series,
      get_col col (handle_missing_values df strategy) = Some s'
      /\ keeps_values s s'
      /\ (s_dtype s = DObject -> s' = s).
Proof.
  intros df strategy col s Hu Hst Hg.
  rewrite (handle_missing_values_loop df strategy Hu Hst).
  rewrite fill_numeric_series, get_col_map, Hg. simpl.
  exists (fill_series strategy s). split; [reflexivity|].
  unfold fill_series. destruct (s_dtype s); simpl.
  - split; [apply filled_keeps_values | discriminate].
  - split; [apply keeps_values_refl | reflexivity].
Qed.

Lemma handle_missing_values_mean_median_keep_values_witness :
  exists s' : Series,
    get_col "country" (handle_missing_values gappy "mean") = Some s'
    /\ keeps_values (mkSeries DObject [Str "FR"; Str "US"; NA]) s'
    /\ (s_dtype (mkSeries DObject [Str "FR"; Str "US"; NA]) = DObject ->
        s' = mkSeries DObject [Str "FR"; Str "US"; NA]).
Proof.
  apply (handle_missing_values_mean_median_keep_values gappy "mean" "country"
           (mkSeries DObject [Str "FR"; Str "US"; NA]));
    [reflexivity | left; reflexivity | reflexivity].
Defined.

(** *** Numeric columns after 'mean' and 'median' *)

Lemma median_of_some (xs : list Q) : xs <> [] -> median_of xs <> None.
Proof.
  intros Hxs. unfold median_of.
  pose proof (Permutation_length (isort_perm Qleb xs)) as Hlen.
  destruct (List.length (isort Qleb xs)) as [|k] eqn:Hk.
  - destruct xs; [contradiction | discriminate].
  - now destruct (Nat.odd (S k)).
Qed.

Lemma fill_value_some (strategy : string) (s : Series) :
  present (s_values s) <> [] ->
  exists q : Q,
    (if String.eqb strategy "mean" then series_mean s else series_median s)
    = Some q.
Proof.
  intros Hp. destruct (String.eqb strategy "mean").
  - unfold series_mean, mean_of.
    destruct (present (s_values s)); [contradiction | eauto].
  - unfold series_median.
    destruct (median_of (present (s_values s))) as [q|] eqn:E; [eauto|].
    now apply median_of_some in E.
Qed.

Lemma fill_value_none (strategy : string) (s : Series) :
  present (s_values s) = [] ->
  (if String.eqb strategy "mean" then series_mean s else series_median s)
  = None.
Proof.
  intros Hp. unfold series_mean, series_median. rewrite Hp.
  now destruct (String.eqb strategy "mean").
Qed.

Lemma existsb_isnull_false (l : list cell) :
  existsb isnull l = false -> filter isnull l = [].
Proof.
  induction l as [|c l IH]; [reflexivity|].
  simpl. destruct (isnull c); [discriminate|]. exact IH.
Qed.

(** X10: after 'mean' or 'median', a numeric column that held at least one
    value has no missing cell left. *)
Theorem handle_missing_values_numeric_column_filled :
  forall (df : DataFrame) (strategy col : string) (s : Series),
    unique_names df = true ->
    strategy = "mean"%string \/ strategy = "median"%string ->
    get_col col df = Some s ->
    s_dtype s = DNumber ->
    present (s_values s) <> [] ->
    exists s' : Series,
      get_col col (handle_missing_values df strategy) = Some s'
      /\ count_null s' = 0%nat.
Proof.
  intros df strategy col s Hu Hst Hg Hd Hp.
  rewrite (handle_missing_values_loop df strategy Hu Hst).
  rewrite fill_numeric_series, get_col_map, Hg. simpl.
  exists (fill_series strategy s). split; [reflexivity|].
  unfold fill_series, filled. rewrite Hd. simpl.
  destruct (existsb isnull (s_values s)) eqn:E.
  - destruct (fill_value_some strategy s Hp) as [q ->].
    apply fillna_some_no_null.
  - unfold count_null. now rewrite existsb_isnull_false.
Qed.

Lemma handle_missing_values_numeric_column_filled_witness :
  exists s' : Series,
    get_col "quantity" (handle_missing_values gappy "median") = Some s'
    /\ count_null s' = 0%nat.
Proof.
  apply (handle_missing_values_numeric_column_filled gappy "median" "quantity"
           (mkSeries DNumber [Num 1; NA; Num 2]));
    [reflexivity | right; reflexivity | reflexivity | reflexivity | discriminate].
Defined.

(** X11: a column without any value has no mean and no median: 'mean' and
    'median' leave it as it was, so the table they return can still hold
    missing cells. *)
Theorem handle_missing_values_empty_column_stays_missing :
  forall (df : DataFrame) (strategy col : string) (s : Series),
    unique_names df = true ->
    strategy = "mean"%string \/ strategy = "median"%string ->
    get_col col df = Some s ->
    present (s_values s) = [] ->
    get_col col (handle_missing_values df strategy) = Some s.
Proof.
  intros df strategy col s Hu Hst Hg Hp.
  rewrite (handle_missing_values_loop df strategy Hu Hst).
  rewrite fill_numeric_series, get_col_map, Hg. simpl. f_equal.
  unfold fill_series, filled.
  rewrite (fill_value_none strategy s Hp), fillna_none.
  now destruct (dtype_eqb (s_dtype s) DNumber), (existsb isnull (s_values s)).
Qed.

Lemma handle_missing_values_empty_column_stays_missing_witness :
  get_col "footfall" (handle_missing_values no_readings "mean")
  = Some (mkSeries DNumber [NA; NA]).
Proof.
  apply (handle_missing_values_empty_column_stays_missing no_readings "mean"
           "footfall" (mkSeries DNumber [NA; NA]));
    [reflexivity | left; reflexivity | reflexivity | reflexivity].
Defined.

(** *** Calling [handle_missing_values] twice *)

Lemma handle_missing_values_gate (df : DataFrame) (strategy : string) :
  missing_total df = 0%nat -> handle_missing_values df strategy = df.
Proof.
  intros H. unfold handle_missing_values. now rewrite H.
Qed.

Lemma filled_idem (strategy : string) (s : Series) :
  filled strategy (filled strategy s) = filled strategy s.
Proof.
  destruct (existsb isnull (s_values s)) eqn:E.
  - destruct (if String.eqb strategy "mean" then series_mean s
              else series_median s) as [q|] eqn:V.
    + assert (H : filled strategy s = fillna (Some q) s)
        by (unfold filled; now rewrite E, V).
      rewrite H. apply filled_no_null, fillna_some_no_null.
    + assert (H : filled strategy s = s)
        by (unfold filled; now rewrite E, V, fillna_none).
      rewrite H. exact H.
  - assert (H : filled strategy s = s) by (unfold filled; now rewrite E).
    rewrite H. exact H.
Qed.

Lemma fill_series_idem (strategy : string) (s : Series) :
  fill_series strategy (fill_series strategy s) = fill_series strategy s.
Proof.
  unfold fill_series.
  destruct (dtype_eqb (s_dtype s) DNumber) eqn:D; [|now rewrite D].
  destruct (filled_keeps_values strategy s) as [Hd _].
  rewrite Hd, D. apply filled_idem.
Qed.

Lemma unique_names_map (f : Series -> Series) (df : DataFrame) :
  unique_names (map (fun ns => (fst ns, f (snd ns))) df) = unique_names df.
Proof.
  induction df as [|ns df IH]; [reflexivity|].
  simpl. rewrite IH. f_equal. f_equal.
  clear IH. induction df as [|ms df IH]; [reflexivity|].
  simpl. now rewrite IH.
Qed.

(** X12: on a table with distinct column names, calling
    [handle_missing_values] a second time with the same strategy, whatever
    the strategy, changes nothing more. *)
Theorem handle_missing_values_idempotent :
  forall (df : DataFrame) (strategy : string),
    unique_names df = true ->
    handle_missing_values (handle_missing_values df strategy) strategy
    = handle_missing_values df strategy.
Proof.
  intros df strategy Hu.
  destruct (missing_total df =? 0)%nat eqn:E.
  { apply Nat.eqb_eq in E.
    now rewrite !(handle_missing_values_gate df strategy E). }
  destruct (String.eqb strategy "drop") eqn:Hd.
  { assert (Hr : handle_missing_values df strategy = dropna df)
      by (unfold handle_missing_values; now rewrite E, Hd).
    rewrite Hr. apply handle_missing_values_gate, dropna_no_missing. }
  destruct (String.eqb strategy "zero") eqn:Hz.
  { assert (Hr : handle_missing_values df strategy = fillna_zero df)
      by (unfold handle_missing_values; now rewrite E, Hd, Hz).
    rewrite Hr. apply handle_missing_values_gate, fillna_zero_no_missing. }
  destruct (String.eqb strategy "mean" || String.eqb strategy "median") eqn:Hm.
  - assert (Hst : strategy = "mean"%string \/ strategy = "median"%string).
    { apply orb_true_iff in Hm.
      destruct Hm as [H|H]; apply String.eqb_eq in H; auto. }
    rewrite (handle_missing_values_loop df strategy Hu Hst).
    rewrite handle_missing_values_loop; [|  | exact Hst].
    + rewrite !fill_numeric_series, map_map. simpl.
      apply map_ext. intros ns. now rewrite fill_series_idem.
    + now rewrite fill_numeric_series, unique_names_map.
  - assert (Hr : handle_missing_values df strategy = df)
      by (unfold handle_missing_values; now rewrite E, Hd, Hz, Hm).
    rewrite Hr. exact Hr.
Qed.

Lemma handle_missing_values_idempotent_witness :
  handle_missing_values (handle_missing_values gappy "mean") "mean"
  = handle_missing_values gappy "mean".
Proof.
  apply (handle_missing_values_idempotent gappy "mean"). reflexivity.
Defined.

End NormalisationExtra.

(** ** Further properties of the join engine *)

Module FederationExtra.
Import Federation Preparation Samples FederationFacts.

(** *** Rows of a left merge *)

Section MergeRows.
Context {L R K : Type} (keq : K -> K -> bool).
Context (kl : L -> option K) (kr : R -> option K).

Lemma in_merge_left (left : list L) (right : list R) (l0 : L) (ro : option R) :
  In (l0, ro) (merge_left keq kl kr left right) <->
  In l0 left
  /\ match ro with
     | None => partners keq kl kr right l0 = []
     | Some r => In r (partners keq kl kr right l0)
     end.
Proof.
  unfold merge_left. rewrite in_flat_map. fold (partners keq kl kr right).
  split.
  - intros [x [Hx Hin]].
    fold (partners keq kl kr right x) in Hin.
    destruct (partners keq kl kr right x) as [|r rs] eqn:P.
    + destruct Hin as [Heq|[]]. injection Heq as <- <-. now split.
    + apply in_map_iff in Hin. destruct Hin as [r' [Heq Hr']].
      injection Heq as <- <-. split; [exact Hx | now rewrite P].
  - intros [Hl Hro]. exists l0. split; [exact Hl|].
    fold (partners keq kl kr right l0).
    destruct ro as [r|].
    + destruct (partners keq kl kr right l0) as [|r0 rs] eqn:P;
        [contradiction|].
      apply in_map_iff. exists r. now split.
    + rewrite Hro. now left.
Qed.


End MergeRows.

(** *** Orders and their campaigns *)


Lemma in_merge_orders_marketing (o : OrdersDF) (marketing : list Campaign)
    (r : MRow) :
  In r (snd (merge_orders_marketing o marketing)) <->
  exists (od : Order * option Z) (co : option Campaign),
    r = flag_campaign (od, co)
    /\ In od (orders_rows o)
    /\ match co with
       | None => campaigns_of marketing od = []
       | Some c => In c (campaigns_of marketing od)
       end.
Proof.
  rewrite merge_orders_marketing_rows, in_map_iff. split.
  - intros [[od co] [<- Hin]]. apply in_merge_left in Hin.
    exists od, co. split; [reflexivity | exact Hin].
  - intros [od [co [-> H]]]. exists (od, co). split; [reflexivity|].
    now apply in_merge_left.
Qed.

(** X14: the campaign a row names is a real one: a row with
    [in_campaign = true] carries the name and the window of a campaign row
    of its order's product, and the date of the order lies in that window;
    a row with [in_campaign = false] is named "No Campaign". *)
Theorem merge_orders_marketing_attribution_sound :
  forall (o : OrdersDF) (marketing : list Campaign) (r : MRow),
    In r (snd (merge_orders_marketing o marketing)) ->
    In (m_order r, m_date r) (orders_rows o)
    /\ (m_in_campaign r = true ->
        exists (c : Campaign) (d s e : Z),
          In c marketing
          /\ oeqb Z.eqb (o_product_id (m_order r)) (c_product_id c) = true
          /\ m_date r = Some d
          /\ c_start_date c = Some s
          /\ c_end_date c = Some e
          /\ s <= d <= e
          /\ m_campaign_name r = c_campaign_name c)
    /\ (m_in_campaign r = false ->
        m_campaign_name r = Some "No Campaign"%string).
Proof.
  intros o marketing r Hin.
  apply in_merge_orders_marketing in Hin.
  destruct Hin as [[ord date] [co [-> [Hod Hco]]]].
  split; [exact Hod|]. split.
  - unfold flag_campaign. cbn [m_in_campaign m_order m_date m_campaign_name fst snd].
    intros Hflag. rewrite Hflag.
    destruct co as [c|]; [|now destruct date].
    apply filter_In in Hco. destruct Hco as [Hc Hprod].
    simpl in Hflag, Hprod. apply andb_true_iff in Hflag.
    destruct Hflag as [Hge Hle].
    destruct date as [d|]; [|discriminate].
    destruct (c_start_date c) as [s|] eqn:Hs; [|discriminate].
    destruct (c_end_date c) as [e|] eqn:He; [|discriminate].
    simpl in Hge, Hle. apply Z.leb_le in Hge, Hle.
    exists c, d, s, e. repeat split; auto.
  - unfold flag_campaign. cbn [m_in_campaign m_campaign_name]. now intros ->.
Qed.

Lemma merge_orders_marketing_attribution_sound_witness :
  In (m_order (paired_row 5 1 31), m_date (paired_row 5 1 31))
     (orders_rows (OrdersDated [order_on 1 10 5 100 (Some "FR"%string)]))
  /\ (m_in_campaign (paired_row 5 1 31) = true ->
      exists (c : Campaign) (d s e : Z),
        In c [mkCampaign (Some "Sale"%string) (Some 10) (Some (day 1)) (Some (day 31))]
        /\ oeqb Z.eqb (o_product_id (m_order (paired_row 5 1 31))) (c_product_id c)
           = true
        /\ m_date (paired_row 5 1 31) = Some d
        /\ c_start_date c = Some s
        /\ c_end_date c = Some e
        /\ s <= d <= e
        /\ m_campaign_name (paired_row 5 1 31) = c_campaign_name c)
  /\ (m_in_campaign (paired_row 5 1 31) = false ->
      m_campaign_name (paired_row 5 1 31) = Some "No Campaign"%string).
Proof.
  apply (merge_orders_marketing_attribution_sound
           (OrdersDated [order_on 1 10 5 100 (Some "FR"%string)])
           [mkCampaign (Some "Sale"%string) (Some 10) (Some (day 1)) (Some (day 31))]
           (paired_row 5 1 31)).
  left. reflexivity.
Defined.

(** X15: no active campaign is missed: for every order and every campaign
    row of its product whose window holds the date of the order, the table
    has a row of that order with [in_campaign = true] and the name and
    window of that campaign; with several such campaigns, one row for
    each. *)
Theorem merge_orders_marketing_attribution_complete :
  forall (o : OrdersDF) (marketing : list Campaign)
         (od : Order * option Z) (c : Campaign) (d s e : Z),
    In od (orders_rows o) ->
    In c marketing ->
    oeqb Z.eqb (o_product_id (fst od)) (c_product_id c) = true ->
    snd od = Some d ->
    c_start_date c = Some s ->
    c_end_date c = Some e ->
    s <= d <= e ->
    exists r : MRow,
      In r (snd (merge_orders_marketing o marketing))
      /\ m_order r = fst od
      /\ m_date r = snd od
      /\ m_in_campaign r = true
      /\ m_campaign_name r = c_campaign_name c
      /\ m_start_date r = c_start_date c
      /\ m_end_date r = c_end_date c.
Proof.
  intros o marketing od c d s e Hod Hc Hprod Hd Hs He Hwin.
  assert (Hflag : m_in_campaign (flag_campaign (od, Some c)) = true).
  { unfold flag_campaign. cbn [m_in_campaign fst snd rcol].
    rewrite Hd, Hs, He. simpl.
    apply andb_true_iff. split; apply Z.leb_le; lia. }
  exists (flag_campaign (od, Some c)). split.
  - apply in_merge_orders_marketing. exists od, (Some c).
    split; [reflexivity|]. split; [exact Hod|].
    apply filter_In. now split.
  - repeat split; try reflexivity; [exact Hflag|].
    unfold flag_campaign in *. cbn [m_in_campaign m_campaign_name] in *.
    now rewrite Hflag.
Qed.

Lemma merge_orders_marketing_attribution_complete_witness :
  exists r : MRow,
    In r (snd (merge_orders_marketing overlapping_orders [winter_sale; flash_sale]))
    /\ m_order r = fst (order_on 1 10 20 100 (Some "FR"%string))
    /\ m_date r = snd (order_on 1 10 20 100 (Some "FR"%string))
    /\ m_in_campaign r = true
    /\ m_campaign_name r = c_campaign_name flash_sale
    /\ m_start_date r = c_start_date flash_sale
    /\ m_end_date r = c_end_date flash_sale.
Proof.
  apply (merge_orders_marketing_attribution_complete overlapping_orders
           [winter_sale; flash_sale]
           (order_on 1 10 20 100 (Some "FR"%string)) flash_sale
           (day 20) (day 15) (day 25)).
  - left. reflexivity.
  - right. left. reflexivity.
  - reflexivity.
  - reflexivity.
  - reflexivity.
  - reflexivity.
  - vm_compute. split; discriminate.
Defined.

Example overlapping_campaigns_two_rows :
  map (fun r => (m_campaign_name r, m_in_campaign r))
      (snd (merge_orders_marketing overlapping_orders [winter_sale; flash_sale]))
  = [(Some "Winter"%string, true); (Some "Flash"%string, true)].
Proof. reflexivity. Qed.

(** *** The validity filter of the campaigns *)

Lemma invalid_not_valid (c : Campaign) :
  valid_campaign c = true -> invalid_campaign c = false.
Proof.
  unfold valid_campaign, invalid_campaign, ge_cell, lt_cell.
  destruct (c_end_date c) as [e|], (c_start_date c) as [s|]; try reflexivity.
  intros H. apply Z.leb_le in H. apply Z.ltb_ge. exact H.
Qed.

Lemma some_invalid (l : list Campaign) :
  (0 <? List.length (filter invalid_campaign l))%nat = existsb invalid_campaign l.
Proof.
  induction l as [|c l IH]; [reflexivity|].
  simpl. destruct (invalid_campaign c); [reflexivity | exact IH].
Qed.

Lemma filter_idem {A : Type} (p : A -> bool) (l : list A) :
  filter p (filter p l) = filter p l.
Proof.
  induction l as [|x l IH]; [reflexivity|].
  simpl. destruct (p x) eqn:E; simpl; rewrite ?E, IH; reflexivity.
Qed.

Lemma normalize_marketing_filter_cases (l : list Campaign) :
  normalize_marketing_filter l
  = if existsb invalid_campaign l then filter valid_campaign l else l.
Proof. unfold normalize_marketing_filter. now rewrite some_invalid. Qed.

Lemma normalize_marketing_filter_not_invalid (l : list Campaign) (c : Campaign) :
  In c (normalize_marketing_filter l) -> invalid_campaign c = false.
Proof.
  rewrite normalize_marketing_filter_cases.
  destruct (existsb invalid_campaign l) eqn:E; intros Hin.
  - apply filter_In in Hin. now apply invalid_not_valid.
  - destruct (invalid_campaign c) eqn:Hc; [|reflexivity].
    assert (Ht : existsb invalid_campaign l = true)
      by (apply existsb_exists; now exists c).
    congruence.
Qed.

(** X16: the filter that closes [normalize_marketing] leaves no campaign
    that ends before it starts, and keeps every campaign that has both dates
    with the end not before the start, in the order of the table. *)
Theorem normalize_marketing_filter_keeps_valid :
  forall l : list Campaign,
    (forall c, In c (normalize_marketing_filter l) -> invalid_campaign c = false)
    /\ filter valid_campaign (normalize_marketing_filter l)
       = filter valid_campaign l.
Proof.
  intros l. split; [apply normalize_marketing_filter_not_invalid|].
  rewrite normalize_marketing_filter_cases.
  destruct (existsb invalid_campaign l); [apply filter_idem | reflexivity].
Qed.

(** X17: a campaign with a missing start or end date is neither valid nor
    reversed for the filter: it stays in the table exactly when no campaign
    of the table ends before it starts, and is dropped along with the
    reversed ones as soon as there is one. *)
Theorem normalize_marketing_filter_missing_date :
  forall (l : list Campaign) (c : Campaign),
    In c l ->
    c_start_date c = None \/ c_end_date c = None ->
    (In c (normalize_marketing_filter l) <-> existsb invalid_campaign l = false).
Proof.
  intros l c Hin Hmiss. rewrite normalize_marketing_filter_cases.
  destruct (existsb invalid_campaign l); split; intros H;
    try discriminate; try exact Hin; try reflexivity.
  apply filter_In in H. destruct H as [_ Hv].
  unfold valid_campaign, ge_cell in Hv.
  destruct Hmiss as [Hm|Hm]; rewrite Hm in Hv;
    [now destruct (c_end_date c) | discriminate].
Qed.

Lemma normalize_marketing_filter_missing_date_witness :
  (In open_ended (normalize_marketing_filter [winter_sale; open_ended; reversed])
   <-> existsb invalid_campaign [winter_sale; open_ended; reversed] = false).
Proof.
  apply (normalize_marketing_filter_missing_date
           [winter_sale; open_ended; reversed] open_ended).
  - right. left. reflexivity.
  - right. reflexivity.
Defined.

Example open_ended_campaign_dropped :
  normalize_marketing_filter [winter_sale; open_ended; reversed] = [winter_sale]
  /\ normalize_marketing_filter [winter_sale; open_ended]
     = [winter_sale; open_ended].
Proof. split; reflexivity. Qed.

(** X18: on campaigns that went through the filter of [normalize_marketing],
    the window of a row is inclusive at both ends without further
    condition: an order dated on the start date or on the end date of the
    campaign it is paired with is in campaign. *)
Theorem filtered_campaign_window_inclusive :
  forall (o : OrdersDF) (l : list Campaign) (r : MRow) (d s e : Z),
    In r (snd (merge_orders_marketing o (normalize_marketing_filter l))) ->
    m_date r = Some d ->
    m_start_date r = Some s ->
    m_end_date r = Some e ->
    d = s \/ d = e ->
    m_in_campaign r = true.
Proof.
  intros o l r d s e Hin Hd Hs He Hon.
  apply in_merge_orders_marketing in Hin.
  destruct Hin as [od [co [-> [_ Hco]]]].
  unfold flag_campaign in *.
  cbn [m_in_campaign m_date m_start_date m_end_date] in *.
  destruct co as [c|]; [|discriminate].
  apply filter_In in Hco. destruct Hco as [Hc _].
  apply normalize_marketing_filter_not_invalid in Hc.
  unfold invalid_campaign, lt_cell in Hc. cbn [rcol fst snd] in *.
  rewrite Hs, He in Hc. apply Z.ltb_ge in Hc.
  rewrite Hd, Hs, He. simpl.
  apply andb_true_iff. split; apply Z.leb_le; lia.
Qed.

Lemma filtered_campaign_window_inclusive_witness :
  m_in_campaign (paired_row 31 1 31) = true.
Proof.
  apply (filtered_campaign_window_inclusive
           (OrdersDated [order_on 1 10 31 100 (Some "FR"%string)])
           [mkCampaign (Some "Sale"%string) (Some 10) (Some (day 1)) (Some (day 31));
            reversed]
           (paired_row 31 1 31) (day 31) (day 1) (day 31)).
  - left. reflexivity.
  - reflexivity.
  - reflexivity.
  - reflexivity.
  - right. reflexivity.
Defined.

(** *** The date an order is compared on *)

Lemma dt_date_of_day (t e : Z) :
  e mod one_day = 0 -> e <= t < e + one_day -> dt_date t = e.
Proof.
  intros He Ht. unfold dt_date.
  assert (Hday : 0 < one_day) by (unfold one_day; lia).
  assert (Hq : e = one_day * (e / one_day)) by (apply Z_div_exact_2; lia).
  rewrite <- (Z.div_unique t one_day (e / one_day) (t - e)); [lia | lia | lia].
Qed.

(** X19: the two ways an orders table gets its [date] column disagree on the
    last day of a campaign. For an order placed during the day on which the
    campaign ends: with the column of [normalize_orders] (the day of the
    order) the order is in campaign; with the column that
    [merge_orders_marketing] adds itself when there is none (the timestamp
    of the order) it is not. *)
Theorem last_day_order_depends_on_date_column :
  forall (rows : list Order) (marketing : list Campaign) (t s e : Z),
    e mod one_day = 0 ->
    s <= e ->
    e < t < e + one_day ->
    (forall r : MRow,
        In r (snd (merge_orders_marketing (normalize_orders_date rows) marketing)) ->
        o_order_date (m_order r) = Some t ->
        m_start_date r = Some s ->
        m_end_date r = Some e ->
        m_in_campaign r = true)
    /\ (forall r : MRow,
          In r (snd (merge_orders_marketing (OrdersNoDate rows) marketing)) ->
          o_order_date (m_order r) = Some t ->
          m_start_date r = Some s ->
          m_end_date r = Some e ->
          m_in_campaign r = false).
Proof.
  intros rows marketing t s e Hmid Hse Ht. split.
  - intros r Hin Hod Hs He.
    apply in_merge_orders_marketing in Hin.
    destruct Hin as [od [co [-> [Hrow _]]]].
    simpl in Hrow. apply in_map_iff in Hrow. destruct Hrow as [ord [<- _]].
    unfold flag_campaign in *.
    cbn [m_in_campaign m_order m_start_date m_end_date fst snd] in *.
    rewrite Hod, Hs, He. simpl.
    rewrite (dt_date_of_day t e Hmid) by lia.
    apply andb_true_iff. split; apply Z.leb_le; lia.
  - intros r Hin Hod Hs He.
    apply in_merge_orders_marketing in Hin.
    destruct Hin as [od [co [-> [Hrow _]]]].
    simpl in Hrow. apply in_map_iff in Hrow. destruct Hrow as [ord [<- _]].
    unfold flag_campaign in *.
    cbn [m_in_campaign m_order m_start_date m_end_date fst snd] in *.
    rewrite Hod, Hs, He. simpl.
    apply andb_false_iff. right. apply Z.leb_gt. lia.
Qed.

Lemma last_day_order_depends_on_date_column_witness :
  m_in_campaign late_order_by_day = true
  /\ m_in_campaign late_order_by_timestamp = false.
Proof.
  assert (Hmid : day 31 mod one_day = 0) by reflexivity.
  assert (Hse : day 1 <= day 31) by (vm_compute; discriminate).
  assert (Ht : day 31 < day 31 + 3600 < day 31 + one_day)
    by (vm_compute; split; reflexivity).
  destruct (last_day_order_depends_on_date_column [late_order] [winter_sale]
              (day 31 + 3600) (day 1) (day 31) Hmid Hse Ht) as [Hday Hstamp].
  split.
  - apply Hday; [left; reflexivity | reflexivity..].
  - apply Hstamp; [left; reflexivity | reflexivity..].
Defined.

Example last_day_order_both_ways :
  snd (merge_orders_marketing (normalize_orders_date [late_order]) [winter_sale])
  = [late_order_by_day]
  /\ snd (merge_orders_marketing (OrdersNoDate [late_order]) [winter_sale])
     = [late_order_by_timestamp].
Proof. split; reflexivity. Qed.

(** *** Traffic of a date *)

Lemma find_map {A B : Type} (f : B -> bool) (g : A -> B) (l : list A) :
  find f (map g l) = option_map g (find (fun x => f (g x)) l).
Proof.
  induction l as [|x l IH]; [reflexivity|].
  simpl. now destruct (f (g x)).
Qed.

Lemma find_key (d : Z) (ks : list Z) :
  In d ks -> find (fun k => Z.eqb d k) ks = Some d.
Proof.
  induction ks as [|k ks IH]; intros Hin; [contradiction|].
  simpl. destruct (Z.eqb d k) eqn:E.
  - apply Z.eqb_eq in E. now subst.
  - destruct Hin as [->|Hin]; [now rewrite Z.eqb_refl in E | now apply IH].
Qed.

Lemma existsb_filter_nil {A : Type} (p : A -> bool) (l : list A) :
  existsb p l = false -> filter p l = [].
Proof.
  induction l as [|x l IH]; [reflexivity|].
  simpl. destruct (p x); [discriminate | exact IH].
Qed.

Lemma date_in_traffic_key (d : Z) (web_traffic : list Traffic) :
  date_in_traffic d web_traffic = true ->
  In d (group_keys Z.eqb Z.leb (map t_date web_traffic)).
Proof.
  intros H. apply existsb_exists in H. destruct H as [t [Hin Ht]].
  apply (oeqb_spec Z.eqb Zeqb_spec) in Ht.
  apply in_group_keys; [apply Zeqb_spec|]. rewrite <- Ht. now apply in_map.
Qed.

Lemma web_agg_lookup (d : Z) (web_traffic : list Traffic) :
  date_in_traffic d web_traffic = true ->
  find (fun a => oeqb Z.eqb (Some d) (Some (wa_date a))) (web_agg web_traffic)
  = Some {| wa_date := d;
            wa_pageviews := sum_skipna (map t_pageviews (traffic_on d web_traffic));
            wa_sessions := sum_skipna (map t_sessions (traffic_on d web_traffic)) |}.
Proof.
  intros H. unfold web_agg, groupby. rewrite map_map, find_map. simpl.
  now rewrite (find_key d _ (date_in_traffic_key d web_traffic H)).
Qed.

Lemma Qsum_whole (l : list Q) :
  forallb whole l = true ->
  Qden (Qsum l) = 1%positive
  /\ Z.abs (Qnum (Qsum l)) <= abs_total l.
Proof.
  induction l as [|x l IH]; intros H.
  - split; [reflexivity | simpl; lia].
  - cbn [forallb] in H. apply andb_true_iff in H. destruct H as [Hx Hl].
    destruct (IH Hl) as [Hd Hn].
    unfold whole in Hx. apply Pos.eqb_eq in Hx.
    cbn [Qsum fold_right abs_total]. change (fold_right Qplus 0%Q l) with (Qsum l).
    unfold Qplus. cbn [Qden Qnum]. rewrite Hx, Hd. split; [reflexivity|].
    change (fold_right (fun q acc => Z.abs (Qnum q) + acc) 0 l) with (abs_total l).
    lia.
Qed.

(** The cast of a sum of exact figures is that sum. *)
Lemma astype_int_exact (l : list (option Q)) :
  exact_figures l = true ->
  (inject_Z (astype_int (sum_skipna l)) == sum_skipna l)%Q.
Proof.
  intros H. unfold exact_figures in H. apply andb_true_iff in H.
  destruct H as [Hw Hb]. apply Z.leb_le in Hb.
  destruct (Qsum_whole (somes l) Hw) as [Hd Hn].
  unfold sum_skipna. destruct (Qsum (somes l)) as [n d]. cbn [Qden Qnum] in *.
  subst d. unfold astype_int. cbn [Qnum Qden]. rewrite Z.quot_1_r.
  assert (Hr : (int64_min <=? n) && (n <=? int64_max) = true).
  { unfold int64_min, int64_max. apply andb_true_iff.
    split; apply Z.leb_le; change (2 ^ 63) with 9223372036854775808;
      change (2 ^ 53) with 9007199254740992 in Hb; lia. }
  rewrite Hr. reflexivity.
Qed.

(** X20: the traffic figures of a row are those of its date, summed over
    all the traffic records of that date, missing figures counting for
    nothing, when these figures are whole numbers that add up to no more
    than 2^53 in absolute value, so that neither the sums nor the cast to
    an integer round; a date without record gets the empty sum, 0. *)
Theorem merge_with_web_traffic_sums_date :
  forall (data : list MRow) (web_traffic : list Traffic)
         (i : nat) (m : MRow) (d : Z),
    nth_error data i = Some m ->
    m_date m = Some d ->
    exact_figures (map t_pageviews (traffic_on d web_traffic)) = true ->
    exact_figures (map t_sessions (traffic_on d web_traffic)) = true ->
    exists r : WRow,
      nth_error (merge_with_web_traffic data web_traffic) i = Some r
      /\ w_base r = m
      /\ (inject_Z (w_pageviews r)
          == sum_skipna (map t_pageviews (traffic_on d web_traffic)))%Q
      /\ (inject_Z (w_sessions r)
          == sum_skipna (map t_sessions (traffic_on d web_traffic)))%Q.
Proof.
  intros data web_traffic i m d Hnth Hd Hp Hs.
  rewrite merge_with_web_traffic_rows, nth_error_map, Hnth. simpl.
  eexists. split; [reflexivity|]. cbn [w_base w_pageviews w_sessions].
  split; [reflexivity|]. rewrite Hd.
  destruct (date_in_traffic d web_traffic) eqn:E.
  - rewrite (web_agg_lookup d web_traffic E).
    cbn [rcol fill_zero_int wa_pageviews wa_sessions].
    split; now apply astype_int_exact.
  - rewrite (web_agg_absent d web_traffic E).
    unfold traffic_on. rewrite (existsb_filter_nil _ _ E). split; reflexivity.
Qed.

Lemma merge_with_web_traffic_sums_date_witness :
  exists r : WRow,
    nth_error (merge_with_web_traffic [mrow_on 5; mrow_on 32] busy_day) 0 = Some r
    /\ w_base r = mrow_on 5
    /\ (inject_Z (w_pageviews r)
        == sum_skipna (map t_pageviews (traffic_on (day 5) busy_day)))%Q
    /\ (inject_Z (w_sessions r)
        == sum_skipna (map t_sessions (traffic_on (day 5) busy_day)))%Q.
Proof.
  apply (merge_with_web_traffic_sums_date [mrow_on 5; mrow_on 32] busy_day
           0%nat (mrow_on 5) (day 5)); reflexivity.
Defined.

(** A sum beyond the 64-bit integers comes out of the cast as the least of
    them. *)
Example astype_int_out_of_range :
  astype_int (inject_Z (10 ^ 19)) = - 2 ^ 63.
Proof. reflexivity. Qed.

Example busy_day_summed :
  map (fun r => (w_pageviews r, w_sessions r))
      (merge_with_web_traffic [mrow_on 5; mrow_on 32] busy_day)
  = [(800, 40); (0, 0)].
Proof. reflexivity. Qed.

(** *** IoT readings of a date *)

Lemma date_in_iot_key (d : Z) (iot : IotDF) :
  date_in_iot d iot = true ->
  In d (group_keys Z.eqb Z.leb (map snd (iot_rows iot))).
Proof.
  intros H. apply existsb_exists in H. destruct H as [x [Hin Hx]].
  apply (oeqb_spec Z.eqb Zeqb_spec) in Hx.
  apply in_group_keys; [apply Zeqb_spec|]. rewrite <- Hx. now apply in_map.
Qed.

Lemma iot_lookup_present (d : Z) (iot : IotDF) :
  date_in_iot d iot = true ->
  iot_lookup (iot_agg (iot_rows iot)) (Some d)
  = Some {| ia_date := d;
            ia_footfall :=
              mean_skipna (map (fun x => i_footfall (fst x)) (readings_on d iot));
            ia_temperature :=
              mean_skipna (map (fun x => i_temperature (fst x))
                               (readings_on d iot)) |}.
Proof.
  intros H. unfold iot_lookup, iot_agg, groupby. rewrite map_map, find_map. simpl.
  now rewrite (find_key d _ (date_in_iot_key d iot H)).
Qed.

(** The cell the join with the per-date aggregate gives a date: the mean of
    the readings of the date, missing when it has none with a value. *)
Lemma iot_lookup_value (d : Z) (iot : IotDF) :
  rcol ia_footfall (iot_lookup (iot_agg (iot_rows iot)) (Some d))
  = mean_skipna (map (fun x => i_footfall (fst x)) (readings_on d iot))
  /\ rcol ia_temperature (iot_lookup (iot_agg (iot_rows iot)) (Some d))
     = mean_skipna (map (fun x => i_temperature (fst x)) (readings_on d iot)).
Proof.
  destruct (date_in_iot d iot) eqn:E.
  - rewrite (iot_lookup_present d iot E). split; reflexivity.
  - rewrite (iot_agg_absent d iot E).
    unfold readings_on. rewrite (existsb_filter_nil _ _ E). split; reflexivity.
Qed.

(** X21: a row whose date has readings with a footfall (temperature) value
    gets the mean of the readings of that very date, missing values left
    out; the readings of other dates play no part. *)
Theorem merge_with_iot_mean_of_date :
  forall (data : list WRow) (iot : IotDF) (i : nat) (w : WRow) (d : Z),
    nth_error data i = Some w ->
    m_date (w_base w) = Some d ->
    exists r : URow,
      nth_error (snd (merge_with_iot data iot)) i = Some r
      /\ u_base r = w
      /\ (forall f : Q,
            mean_skipna (map (fun x => i_footfall (fst x)) (readings_on d iot))
            = Some f ->
            u_footfall r = Some f)
      /\ (forall g : Q,
            mean_skipna (map (fun x => i_temperature (fst x)) (readings_on d iot))
            = Some g ->
            u_temperature r = Some g).
Proof.
  intros data iot i w d Hnth Hd.
  rewrite merge_with_iot_rows, nth_error_map, Hnth. simpl.
  eexists. split; [reflexivity|]. cbn [u_base u_footfall u_temperature].
  split; [reflexivity|]. rewrite Hd.
  destruct (iot_lookup_value d iot) as [-> ->].
  split; intros q ->; reflexivity.
Qed.

Lemma merge_with_iot_mean_of_date_witness :
  exists r : URow,
    nth_error (snd (merge_with_iot orders_days_1_1_3 iot_two_days)) 0 = Some r
    /\ u_base r = wrow_on 1
    /\ (forall f : Q,
          mean_skipna (map (fun x => i_footfall (fst x))
                           (readings_on (day 1) iot_two_days))
          = Some f ->
          u_footfall r = Some f)
    /\ (forall g : Q,
          mean_skipna (map (fun x => i_temperature (fst x))
                           (readings_on (day 1) iot_two_days))
          = Some g ->
          u_temperature r = Some g).
Proof.
  apply (merge_with_iot_mean_of_date orders_days_1_1_3 iot_two_days 0%nat
           (wrow_on 1) (day 1)); reflexivity.
Defined.

Lemma iot_lookup_no_date (agg : list IotAgg) : iot_lookup agg None = None.
Proof.
  unfold iot_lookup. induction agg as [|a agg IH]; [reflexivity | exact IH].
Qed.

Lemma somes_all_none {A : Type} (l : list (option A)) :
  (forall x, In x l -> x = None) -> somes l = [].
Proof.
  induction l as [|x l IH]; intros H; [reflexivity|].
  rewrite (H x (or_introl eq_refl)). simpl. apply IH.
  intros y Hy. apply H. now right.
Qed.

Lemma somes_nil_all_none {A : Type} (l : list (option A)) :
  somes l = [] -> forall x, In x l -> x = None.
Proof.
  induction l as [|[y|] l IH]; intros H x Hin; simpl in *.
  - contradiction.
  - discriminate.
  - destruct Hin as [<-|Hin]; [reflexivity | now apply IH].
Qed.

Lemma mean_of_none (xs : list Q) : mean_of xs = None -> xs = [].
Proof. destruct xs; [reflexivity | discriminate]. Qed.

Lemma no_reading_lookup (data : list WRow) (iot : IotDF) (w : WRow) :
  no_reading_for data iot = true -> In w data ->
  iot_lookup (iot_agg (iot_rows iot)) (m_date (w_base w)) = None.
Proof.
  unfold no_reading_for. rewrite forallb_forall. intros H Hin.
  specialize (H w Hin). destruct (m_date (w_base w)) as [d|].
  - apply iot_agg_absent. now apply negb_true_iff.
  - apply iot_lookup_no_date.
Qed.

(** X22: the fill value comes from the order rows only: when no row of the
    table has a date with IoT readings, every footfall and temperature of
    the result is missing, whatever readings the IoT table holds for other
    dates. *)
Theorem merge_with_iot_nothing_to_fill_with :
  forall (data : list WRow) (iot : IotDF),
    no_reading_for data iot = true ->
    forall r : URow,
      In r (snd (merge_with_iot data iot)) ->
      u_footfall r = None /\ u_temperature r = None.
Proof.
  intros data iot Hno r Hin.
  rewrite merge_with_iot_rows in Hin. apply in_map_iff in Hin.
  destruct Hin as [w [<- Hw]]. cbn [u_footfall u_temperature].
  rewrite (no_reading_lookup data iot w Hno Hw). simpl.
  unfold mean_skipna, joined_footfall, joined_temperature.
  rewrite !somes_all_none; [split; reflexivity | |].
  - intros x Hx. apply in_map_iff in Hx. destruct Hx as [w' [<- Hw']].
    now rewrite (no_reading_lookup data iot w' Hno Hw').
  - intros x Hx. apply in_map_iff in Hx. destruct Hx as [w' [<- Hw']].
    now rewrite (no_reading_lookup data iot w' Hno Hw').
Qed.

Lemma merge_with_iot_nothing_to_fill_with_witness :
  u_footfall (scenario_row 0) = None /\ u_temperature (scenario_row 0) = None.
Proof.
  apply (merge_with_iot_nothing_to_fill_with scenario_with_traffic (iot scenario)).
  - reflexivity.
  - left. reflexivity.
Defined.

(** X23: a column of the result is filled as a whole or not at all: if one
    row of the result has a footfall, every row has one, and likewise for
    the temperature. *)
Theorem merge_with_iot_all_or_nothing :
  forall (data : list WRow) (iot : IotDF),
    (existsb (fun r => is_some (u_footfall r)) (snd (merge_with_iot data iot))
     = true ->
     forallb (fun r => is_some (u_footfall r)) (snd (merge_with_iot data iot))
     = true)
    /\ (existsb (fun r => is_some (u_temperature r)) (snd (merge_with_iot data iot))
        = true ->
        forallb (fun r => is_some (u_temperature r)) (snd (merge_with_iot data iot))
        = true).
Proof.
  intros data iot. rewrite merge_with_iot_rows. split.
  - intros Hex. apply forallb_forall. intros r Hin.
    apply in_map_iff in Hin. destruct Hin as [w [<- Hw]]. cbn [u_footfall].
    destruct (mean_skipna (joined_footfall data iot)) as [m|] eqn:M.
    + now destruct (rcol ia_footfall _).
    + exfalso. apply existsb_exists in Hex. destruct Hex as [r [Hin Hr]].
      apply in_map_iff in Hin. destruct Hin as [w' [<- Hw']].
      cbn [u_footfall] in Hr.
      apply mean_of_none in M.
      rewrite (somes_nil_all_none _ M
                 (rcol ia_footfall
                       (iot_lookup (iot_agg (iot_rows iot)) (m_date (w_base w')))))
        in Hr; [discriminate|].
      unfold joined_footfall. apply in_map_iff. now exists w'.
  - intros Hex. apply forallb_forall. intros r Hin.
    apply in_map_iff in Hin. destruct Hin as [w [<- Hw]]. cbn [u_temperature].
    destruct (mean_skipna (joined_temperature data iot)) as [m|] eqn:M.
    + now destruct (rcol ia_temperature _).
    + exfalso. apply existsb_exists in Hex. destruct Hex as [r [Hin Hr]].
      apply in_map_iff in Hin. destruct Hin as [w' [<- Hw']].
      cbn [u_temperature] in Hr.
      apply mean_of_none in M.
      rewrite (somes_nil_all_none _ M
                 (rcol ia_temperature
                       (iot_lookup (iot_agg (iot_rows iot)) (m_date (w_base w')))))
        in Hr; [discriminate|].
      unfold joined_temperature. apply in_map_iff. now exists w'.
Qed.

(** *** One context per date *)

Lemma unified_sales_context (data : Sources) (u : URow) :
  In u (unified_sales data) ->
  let agg := web_agg (web_traffic data) in
  let hit := find (fun a => oeqb Z.eqb (u_date u) (Some (wa_date a))) agg in
  let w := merge_with_web_traffic
             (snd (merge_orders_marketing (orders data) (marketing data)))
             (web_traffic data) in
  let a := iot_lookup (iot_agg (iot_rows (iot data))) (u_date u) in
  w_pageviews (u_base u) = fill_zero_int (rcol (fun a => Some (wa_pageviews a)) hit)
  /\ w_sessions (u_base u) = fill_zero_int (rcol (fun a => Some (wa_sessions a)) hit)
  /\ u_footfall u
     = fill_with (mean_skipna (joined_footfall w (iot data))) (rcol ia_footfall a)
  /\ u_temperature u
     = fill_with (mean_skipna (joined_temperature w (iot data)))
                 (rcol ia_temperature a).
Proof.
  rewrite unified_sales_stages, merge_with_iot_rows. intros Hin.
  apply in_map_iff in Hin. destruct Hin as [w [<- Hw]].
  rewrite merge_with_web_traffic_rows in Hw. apply in_map_iff in Hw.
  destruct Hw as [m [<- _]]. unfold u_date. simpl. repeat split.
Qed.

Lemma unified_sales_one_context_per_date_aux (data : Sources) (u1 u2 : URow) :
  In u1 (unified_sales data) ->
  In u2 (unified_sales data) ->
  u_date u1 = u_date u2 ->
  w_pageviews (u_base u1) = w_pageviews (u_base u2)
  /\ w_sessions (u_base u1) = w_sessions (u_base u2).
Proof.
  intros H1 H2 Hd.
  destruct (unified_sales_context data u1 H1) as [P1 [S1 _]].
  destruct (unified_sales_context data u2 H2) as [P2 [S2 _]].
  rewrite P1, P2, S1, S2, Hd. split; reflexivity.
Qed.

(** X24: in the Unified Sales Record table all the rows of one date carry
    the same pageviews, sessions, footfall and temperature. *)
Theorem unified_sales_one_context_per_date :
  forall (data : Sources) (u1 u2 : URow),
    In u1 (unified_sales data) ->
    In u2 (unified_sales data) ->
    u_date u1 = u_date u2 ->
    w_pageviews (u_base u1) = w_pageviews (u_base u2)
    /\ w_sessions (u_base u1) = w_sessions (u_base u2)
    /\ u_footfall u1 = u_footfall u2
    /\ u_temperature u1 = u_temperature u2.
Proof.
  intros data u1 u2 H1 H2 Hd.
  destruct (unified_sales_context data u1 H1) as [P1 [S1 [F1 T1]]].
  destruct (unified_sales_context data u2 H2) as [P2 [S2 [F2 T2]]].
  rewrite P1, P2, S1, S2, F1, F2, T1, T2, Hd. repeat split.
Qed.

Lemma unified_sales_one_context_per_date_witness :
  w_pageviews (u_base (scenario_row 0)) = w_pageviews (u_base (scenario_row 1))
  /\ w_sessions (u_base (scenario_row 0)) = w_sessions (u_base (scenario_row 1))
  /\ u_footfall (scenario_row 0) = u_footfall (scenario_row 1)
  /\ u_temperature (scenario_row 0) = u_temperature (scenario_row 1).
Proof.
  apply (unified_sales_one_context_per_date scenario
           (scenario_row 0) (scenario_row 1)).
  - left. reflexivity.
  - right. left. reflexivity.
  - reflexivity.
Defined.

(** *** The by-day rollup *)

Lemma in_groupby {R K : Type} (keq kleb : K -> K -> bool)
    (keq_spec : forall a b, keq a b = true <-> a = b)
    (key : R -> option K) (rows : list R) (g : K * list R) :
  In g (groupby keq kleb key rows) ->
  snd g = filter (fun r => oeqb keq (key r) (Some (fst g))) rows
  /\ exists r rest, snd g = r :: rest.
Proof.
  unfold groupby. intros Hin. apply in_map_iff in Hin.
  destruct Hin as [k [<- Hk]]. simpl. split; [reflexivity|].
  apply in_group_keys_incl, in_map_iff in Hk. destruct Hk as [r [Hr Hin]].
  destruct (filter (fun r0 => oeqb keq (key r0) (Some k)) rows) as [|x rest] eqn:F.
  - exfalso.
    assert (Hf : In r (filter (fun r0 => oeqb keq (key r0) (Some k)) rows)).
    { apply filter_In. split; [exact Hin|].
      now apply (oeqb_spec keq keq_spec). }
    rewrite F in Hf. contradiction.
  - eauto.
Qed.

(** X25: the traffic of a day in the by-day rollup, taken from the first row
    of the day, is never missing and is the traffic every row of that day
    carries in the Unified Sales Record table. *)
Theorem daily_sales_traffic_of_the_day :
  forall (data : Sources) (dr : DailyRow) (u : URow),
    In dr (daily_sales (snd (snd (federate_all data)))) ->
    In u (unified_sales data) ->
    u_date u = Some (r_key (d_sales dr)) ->
    d_pageviews dr = Some (w_pageviews (u_base u))
    /\ d_sessions dr = Some (w_sessions (u_base u)).
Proof.
  intros data dr u Hdr Hu Hd.
  change (snd (snd (federate_all data)))
    with (create_aggregations (unified_sales data)) in Hdr.
  cbn [create_aggregations daily_sales] in Hdr.
  apply in_map_iff in Hdr. destruct Hdr as [g [<- Hg]].
  destruct (in_groupby Z.eqb Z.leb Zeqb_spec u_date _ g Hg)
    as [Hfilter [u0 [rest Hrows]]].
  cbn [d_sales d_pageviews d_sessions agg_sales r_key] in *.
  assert (Hu0 : In u0 (unified_sales data) /\ u_date u0 = u_date u).
  { assert (Hin : In u0 (snd g)) by (rewrite Hrows; now left).
    rewrite Hfilter in Hin. apply filter_In in Hin. destruct Hin as [Hin Hk].
    apply (oeqb_spec Z.eqb Zeqb_spec) in Hk. split; [exact Hin | congruence]. }
  destruct Hu0 as [Hin0 Hd0].
  destruct (unified_sales_one_context_per_date_aux data u0 u Hin0 Hu Hd0)
    as [Hp Hs].
  rewrite Hrows. simpl. now rewrite Hp, Hs.
Qed.

Lemma daily_sales_traffic_of_the_day_witness :
  d_pageviews scenario_first_day = Some (w_pageviews (u_base (scenario_row 1)))
  /\ d_sessions scenario_first_day = Some (w_sessions (u_base (scenario_row 1))).
Proof.
  apply (daily_sales_traffic_of_the_day scenario scenario_first_day
           (scenario_row 1)).
  - left. reflexivity.
  - right. left. reflexivity.
  - reflexivity.
Defined.

Example scenario_first_day_figures :
  (r_key (d_sales scenario_first_day),
   r_total_amount (d_sales scenario_first_day),
   r_order_count (d_sales scenario_first_day),
   d_pageviews scenario_first_day, d_sessions scenario_first_day)
  = (day 5, 150%Q, 2%nat, Some 500, Some 40).
Proof. reflexivity. Qed.

(** *** Order of the rollups *)

Section InsertionSort.
Context {A : Type} (leb : A -> A -> bool) (R : A -> A -> Prop).
Hypothesis leb_true : forall x y, leb x y = true -> R x y.
Hypothesis leb_false : forall x y, leb x y = false -> R y x.

Lemma insert_sorted_HdRel (a x : A) (l : list A) :
  R a x -> HdRel R a l -> HdRel R a (insert_sorted leb x l).
Proof.
  intros Hax Hl. destruct l as [|y l]; simpl.
  - now constructor.
  - destruct (leb x y); constructor; [exact Hax | now inversion Hl].
Qed.

Lemma insert_sorted_Sorted (x : A) (l : list A) :
  Sorted R l -> Sorted R (insert_sorted leb x l).
Proof.
  induction 1 as [|y l Hl IH Hhd]; simpl.
  - repeat constructor.
  - destruct (leb x y) eqn:E.
    + constructor; [now constructor | constructor; now apply leb_true].
    + constructor; [exact IH|].
      apply insert_sorted_HdRel; [now apply leb_false | exact Hhd].
Qed.

Lemma isort_Sorted (l : list A) : Sorted R (isort leb l).
Proof.
  induction l as [|x l IH]; simpl; [constructor | now apply insert_sorted_Sorted].
Qed.

End InsertionSort.

Lemma sort_by_amount_sorted {K : Type} (l : list (Rollup K)) :
  StronglySorted by_amount_desc (sort_by_amount l).
Proof.
  apply Sorted_StronglySorted.
  - intros a b c Hab Hbc. unfold by_amount_desc in *.
    now apply (Qle_trans _ (r_total_amount b)).
  - unfold sort_by_amount. apply isort_Sorted.
    + intros x y H. now apply Qle_bool_iff.
    + intros x y H. unfold by_amount_desc. apply Qlt_le_weak, Qnot_le_lt.
      intros Hle. apply Qle_bool_iff in Hle. congruence.
Qed.

(** X26: the by-campaign, by-product and by-country rollups come in
    decreasing order of total amount: the total of a row is at least the
    total of every row after it. *)
Theorem create_aggregations_sorted_by_amount :
  forall data : list URow,
    StronglySorted by_amount_desc (campaign_sales (create_aggregations data))
    /\ StronglySorted by_amount_desc (product_sales (create_aggregations data))
    /\ StronglySorted by_amount_desc (country_sales (create_aggregations data)).
Proof.
  intros data. repeat split; apply sort_by_amount_sorted.
Qed.

(** *** Keys of the rollups *)

Section RollupKeys.
Context {K : Type} (keq kleb : K -> K -> bool).
Hypothesis keq_spec : forall a b, keq a b = true <-> a = b.
Context (key : URow -> option K).

Lemma rollup_keys (data : list URow) :
  map r_key (rollup keq kleb key data) = group_keys keq kleb (map key data).
Proof.
  unfold rollup. rewrite map_map. simpl.
  apply (groupby_keys keq kleb key).
Qed.

Lemma sorted_rollup_keys (data : list URow) :
  NoDup (map r_key (sort_by_amount (rollup keq kleb key data)))
  /\ forall k : K,
       In k (map r_key (sort_by_amount (rollup keq kleb key data)))
       <-> exists u : URow, In u data /\ key u = Some k.
Proof.
  assert (Hperm : Permutation
                    (map r_key (sort_by_amount (rollup keq kleb key data)))
                    (group_keys keq kleb (map key data))).
  { rewrite <- rollup_keys. apply Permutation_map.
    unfold sort_by_amount. apply isort_perm. }
  split.
  - apply (Permutation_NoDup (Permutation_sym Hperm)).
    now apply NoDup_group_keys.
  - intros k. split.
    + intros Hin. apply (Permutation_in _ Hperm) in Hin.
      apply in_group_keys_incl, in_map_iff in Hin.
      destruct Hin as [u [Hk Hu]]. now exists u.
    + intros [u [Hu Hk]]. apply (Permutation_in _ (Permutation_sym Hperm)).
      apply in_group_keys; [exact keq_spec|]. rewrite <- Hk. now apply in_map.
Qed.

(** *** Order counts *)

Lemma list_sum_map_plus {B : Type} (f g : B -> nat) (l : list B) :
  list_sum (map (fun x => f x + g x)%nat l)
  = (list_sum (map f l) + list_sum (map g l))%nat.
Proof.
  induction l as [|x l IH]; [reflexivity|]. simpl. rewrite IH. lia.
Qed.

Lemma list_sum_map_zero {B : Type} (l : list B) :
  list_sum (map (fun _ => 0%nat) l) = 0%nat.
Proof. induction l as [|x l IH]; [reflexivity | exact IH]. Qed.

Lemma count_absent (k0 : option K) (b : bool) (ks : list K) :
  ~ In k0 (map Some ks) ->
  list_sum (map (fun k => if oeqb keq k0 (Some k) && b then 1 else 0)%nat ks)
  = 0%nat.
Proof.
  induction ks as [|k ks IH]; intros Hn; simpl; [reflexivity|].
  destruct (oeqb keq k0 (Some k)) eqn:E.
  - apply (oeqb_spec keq keq_spec) in E. exfalso. apply Hn. now left.
  - simpl. apply IH. intros Hin. apply Hn. now right.
Qed.

Lemma count_present (k0 : K) (b : bool) (ks : list K) :
  NoDup ks -> In k0 ks ->
  list_sum (map (fun k => if oeqb keq (Some k0) (Some k) && b then 1 else 0)%nat ks)
  = (if b then 1 else 0)%nat.
Proof.
  induction 1 as [|k ks Hk Hnd IH]; intros Hin; [contradiction|].
  cbn [map list_sum fold_right]. change (fold_right Nat.add 0%nat) with list_sum.
  destruct (oeqb keq (Some k0) (Some k)) eqn:E.
  - apply (oeqb_spec keq keq_spec) in E. injection E as ->.
    rewrite count_absent; [simpl; lia|].
    intros Hin'. apply in_map_iff in Hin'. destruct Hin' as [y [Hy Hin']].
    injection Hy as ->. contradiction.
  - destruct Hin as [->|Hin].
    + assert (Ht : oeqb keq (Some k0) (Some k0) = true)
        by now apply (oeqb_spec keq keq_spec).
      congruence.
    + simpl. now apply IH.
Qed.

Lemma group_counts (ks : list K) (rows : list URow) :
  NoDup ks ->
  (forall u k, In u rows -> key u = Some k -> In k ks) ->
  list_sum
    (map (fun k =>
            List.length
              (somes (map u_order_date
                          (filter (fun r => oeqb keq (key r) (Some k)) rows))))
         ks)
  = List.length (filter (counted key) rows).
Proof.
  intros Hnd. induction rows as [|u rows IH]; intros Hcov.
  - simpl. apply list_sum_map_zero.
  - erewrite map_ext.
    2:{ intros k. cbn [filter].
        instantiate (1 := fun k =>
          ((if oeqb keq (key u) (Some k) && is_some (u_order_date u)
            then 1 else 0)
           + List.length
               (somes (map u_order_date
                           (filter (fun r => oeqb keq (key r) (Some k)) rows))))%nat).
        simpl. destruct (oeqb keq (key u) (Some k)); [|reflexivity].
        cbn [map somes]. now destruct (u_order_date u). }
    rewrite list_sum_map_plus, IH by (intros u' k Hu'; apply Hcov; now right).
    cbn [filter].
    destruct (key u) as [k0|] eqn:Hk.
    + rewrite count_present;
        [| exact Hnd | apply (Hcov u k0); [now left | exact Hk]].
      replace (counted key u) with (is_some (u_order_date u))
        by (unfold counted; now rewrite Hk).
      now destruct (is_some (u_order_date u)).
    + rewrite count_absent.
      * replace (counted key u) with false by (unfold counted; now rewrite Hk).
        reflexivity.
      * intros Hin. apply in_map_iff in Hin. now destruct Hin as [y [Hy _]].
Qed.

Lemma list_sum_perm (l1 l2 : list nat) :
  Permutation l1 l2 -> list_sum l1 = list_sum l2.
Proof.
  induction 1 as [|x l l' _ IH|x y l|l l' l'' _ IH1 _ IH2]; simpl; lia.
Qed.

Lemma sorted_rollup_count (data : list URow) :
  list_sum (map r_order_count (sort_by_amount (rollup keq kleb key data)))
  = List.length (filter (counted key) data).
Proof.
  rewrite (list_sum_perm _ (map r_order_count (rollup keq kleb key data)))
    by (apply Permutation_map; unfold sort_by_amount; apply isort_perm).
  unfold rollup, groupby. rewrite !map_map.
  cbn [agg_sales r_order_count fst snd].
  apply group_counts.
  - now apply NoDup_group_keys.
  - intros u k Hu Hk. apply in_group_keys; [exact keq_spec|].
    rewrite <- Hk. now apply in_map.
Qed.

End RollupKeys.

(** X27: every rollup has one row per key: the by-product rollup has no
    product twice and has exactly the product ids found in the table, and
    likewise the by-country rollup for the countries and the by-campaign
    rollup for the campaign names of the rows in campaign. *)
Theorem create_aggregations_one_row_per_key :
  forall data : list URow,
    (NoDup (map r_key (product_sales (create_aggregations data)))
     /\ forall k, In k (map r_key (product_sales (create_aggregations data)))
                  <-> exists u, In u data /\ u_product_id u = Some k)
    /\ (NoDup (map r_key (country_sales (create_aggregations data)))
        /\ forall k, In k (map r_key (country_sales (create_aggregations data)))
                     <-> exists u, In u data /\ u_country u = Some k)
    /\ (NoDup (map r_key (campaign_sales (create_aggregations data)))
        /\ forall k, In k (map r_key (campaign_sales (create_aggregations data)))
                     <-> exists u, In u (filter u_in_campaign data)
                                   /\ u_campaign_name u = Some k).
Proof.
  intros data. cbn [create_aggregations product_sales country_sales campaign_sales].
  split; [|split].
  - apply sorted_rollup_keys, Zeqb_spec.
  - apply sorted_rollup_keys, String.eqb_eq.
  - apply sorted_rollup_keys, String.eqb_eq.
Qed.

(** X28: the order counts of a rollup add up to the number of rows that have
    the grouping key and an order date. In the by-campaign rollup only rows
    in campaign are counted, so its order counts never add up to more than
    the number of rows with [in_campaign = true]. *)
Theorem create_aggregations_order_counts :
  forall data : list URow,
    list_sum (map r_order_count (product_sales (create_aggregations data)))
    = List.length (filter (counted u_product_id) data)
    /\ list_sum (map r_order_count (country_sales (create_aggregations data)))
       = List.length (filter (counted u_country) data)
    /\ list_sum (map r_order_count (campaign_sales (create_aggregations data)))
       = List.length (filter (counted u_campaign_name) (filter u_in_campaign data))
    /\ (list_sum (map r_order_count (campaign_sales (create_aggregations data)))
        <= List.length (filter u_in_campaign data))%nat.
Proof.
  intros data. cbn [create_aggregations product_sales country_sales campaign_sales].
  rewrite (sorted_rollup_count Z.eqb Z.leb Zeqb_spec).
  rewrite !(sorted_rollup_count String.eqb String.leb String.eqb_eq).
  repeat split. apply filter_length_le.
Qed.

End FederationExtra.

(** ** Properties of the rankings of the report *)

Module ReportExtra.
Import Federation Report Samples.

Lemma in_firstn {A : Type} (n : nat) (l : list A) (x : A) :
  In x (firstn n l) -> In x l.
Proof.
  revert l. induction n as [|n IH]; intros [|y l] H; simpl in *; try contradiction.
  destruct H as [->|H]; [now left | right; now apply IH].
Qed.

Lemma in_combine_seq {A : Type} (l : list A) (a i : nat) (x : A) :
  In (i, x) (combine (seq a (List.length l)) l) ->
  (a <= i)%nat /\ nth_error l (i - a) = Some x.
Proof.
  revert a. induction l as [|y l IH]; intros a H; simpl in H; [contradiction|].
  destruct H as [H|H].
  - injection H as <- <-. rewrite Nat.sub_diag. split; [lia | reflexivity].
  - apply IH in H. destruct H as [Hle Hn].
    split; [lia|]. replace (i - a)%nat with (S (i - S a)) by lia. exact Hn.
Qed.

Lemma combine_seq_snd {A : Type} (l : list A) (a : nat) :
  map snd (combine (seq a (List.length l)) l) = l.
Proof.
  revert a. induction l as [|y l IH]; intros a; [reflexivity|].
  simpl. now rewrite IH.
Qed.

Section SortImage.
Context {A B : Type} (f : A -> B) (leb : B -> B -> bool).

Lemma insert_sorted_map (x : A) (l : list A) :
  map f (insert_sorted (fun a b => leb (f a) (f b)) x l)
  = insert_sorted leb (f x) (map f l).
Proof.
  induction l as [|y l IH]; [reflexivity|].
  simpl. destruct (leb (f x) (f y)); simpl; [reflexivity | now rewrite IH].
Qed.

Lemma isort_map (l : list A) :
  map f (isort (fun a b => leb (f a) (f b)) l) = isort leb (map f l).
Proof.
  induction l as [|x l IH]; [reflexivity|].
  simpl. now rewrite insert_sorted_map, IH.
Qed.

End SortImage.

Lemma top5_rows {K : Type} (l : list (Rollup K)) :
  map snd (top5 l) = firstn 5 (sort_by_amount l).
Proof.
  unfold top5, sort_labelled, labelled, sort_by_amount.
  rewrite map_map. cbn [snd].
  rewrite <- firstn_map.
  rewrite (isort_map snd (fun a b => Qle_bool (r_total_amount b) (r_total_amount a))).
  now rewrite combine_seq_snd.
Qed.

Lemma top5_numbers {K : Type} (l : list (Rollup K)) (n : nat) (r : Rollup K) :
  In (n, r) (top5 l) -> exists i : nat, n = S i /\ nth_error l i = Some r.
Proof.
  unfold top5. intros H. apply in_map_iff in H.
  destruct H as [[i r'] [Heq Hin]]. injection Heq as <- <-.
  exists i. split; [reflexivity|].
  apply in_firstn in Hin.
  apply (Permutation_in _ (isort_perm _ _)) in Hin.
  apply in_combine_seq in Hin. destruct Hin as [_ Hn].
  now rewrite Nat.sub_0_r in Hn.
Qed.

(** X30: the rankings of the summary report list the first five rows of the
    sorted rollups, but the number printed before a row is the label the
    row had before sorting: one more than its place among the rollup rows
    in increasing key order, not its rank by amount. *)
Theorem report_numbers_are_key_positions :
  forall data : list URow,
    (map snd (top_products data) = firstn 5 (product_sales (create_aggregations data))
     /\ forall n r, In (n, r) (top_products data) ->
          exists i, n = S i
                    /\ nth_error (rollup Z.eqb Z.leb u_product_id data) i = Some r)
    /\ (map snd (top_countries data)
        = firstn 5 (country_sales (create_aggregations data))
        /\ forall n r, In (n, r) (top_countries data) ->
             exists i, n = S i
                       /\ nth_error (rollup String.eqb String.leb u_country data) i
                          = Some r)
    /\ (map snd (top_campaigns data)
        = firstn 5 (campaign_sales (create_aggregations data))
        /\ forall n r, In (n, r) (top_campaigns data) ->
             exists i, n = S i
                       /\ nth_error (rollup String.eqb String.leb u_campaign_name
                                            (filter u_in_campaign data)) i
                          = Some r).
Proof.
  intros data. repeat split;
    try apply top5_rows; intros n r H; now apply top5_numbers.
Qed.

Example best_seller_numbered_second :
  map (fun nr => (fst nr, r_key (snd nr), r_total_amount (snd nr)))
      (top_products best_seller_last)
  = [(2%nat, 11, 200%Q); (1%nat, 10, 50%Q)].
Proof. reflexivity. Qed.

End ReportExtra.

(** ** The join engine on a store: the caller's tables *)

Module InterpreterFacts.
Import Federation Samples Interpreter.

Lemma bind_returns {A B : Type} (c : Run A) (k : A -> Run B)
    (h h' : Store) (a : A) :
  c h = (h', Returns a) -> bind c k h = k a h'.
Proof. intros H. unfold bind. now rewrite H. Qed.

Lemma bind_raises {A B : Type} (c : Run A) (k : A -> Run B)
    (h h' : Store) (e : Exception) :
  c h = (h', Raises e) -> bind c k h = (h', Raises e).
Proof. intros H. unfold bind. now rewrite H. Qed.

Lemma get_old (h ext : Store) (r : nat) (t : Table) :
  nth_error h r = Some t -> get r (h ++ ext) = (h ++ ext, Returns t).
Proof.
  intros H. unfold get. rewrite nth_error_app1.
  - now rewrite H.
  - apply nth_error_Some. now rewrite H.
Qed.

Lemma get_here (h : Store) (r : nat) (t : Table) :
  nth_error h r = Some t -> get r h = (h, Returns t).
Proof. intros H. unfold get. now rewrite H. Qed.

Lemma nth_error_fresh (h ext : Store) (t : Table) :
  nth_error (h ++ t :: ext) (List.length h) = Some t.
Proof.
  rewrite nth_error_app2 by lia. now rewrite Nat.sub_diag.
Qed.

Lemma get_fresh (h ext : Store) (t : Table) :
  get (List.length h) (h ++ t :: ext) = (h ++ t :: ext, Returns t).
Proof. unfold get. now rewrite nth_error_fresh. Qed.

Lemma update_fresh (h ext : Store) (t t' : Table) :
  update (List.length h) t' (h ++ t :: ext) = h ++ t' :: ext.
Proof.
  induction h as [|x h IH]; simpl; [reflexivity|]. now rewrite IH.
Qed.

Lemma put_fresh (h ext : Store) (t t' : Table) :
  put (List.length h) t' (h ++ t :: ext) = (h ++ t' :: ext, Returns tt).
Proof.
  unfold put. rewrite update_fresh.
  replace (List.length h <? List.length (h ++ t :: ext))%nat with true;
    [reflexivity|].
  symmetry. apply Nat.ltb_lt. rewrite length_app. simpl. lia.
Qed.

Lemma flag_then_name (rows : list Joined) :
  map name_campaign (map (fun j => (j, in_campaign j)) rows)
  = map flag_campaign rows.
Proof. rewrite map_map. reflexivity. Qed.

Lemma fill_traffic (rows : list (MRow * option WebAgg)) :
  map fill_sessions (map fill_pageviews rows)
  = map (fun j =>
           {| w_base := fst j;
              w_pageviews :=
                fill_zero_int (rcol (fun a => Some (wa_pageviews a)) (snd j));
              w_sessions :=
                fill_zero_int (rcol (fun a => Some (wa_sessions a)) (snd j)) |})
        rows.
Proof. rewrite map_map. reflexivity. Qed.

Lemma fill_readings (data : list WRow) (readings : list (Reading * option Z)) :
  fill_temperature
    (fill_footfall
       (merge_left Z.eqb (fun w => m_date (w_base w)) (fun a => Some (ia_date a))
                   data (iot_agg readings)))
  = snd (Federation.merge_with_iot data (IotDated readings)).
Proof.
  unfold fill_temperature, fill_footfall, Federation.merge_with_iot.
  cbn [snd iot_add_date iot_rows]. rewrite !map_map. reflexivity.
Qed.

(** A stage leaves the store it finds and adds its own tables. *)
Lemma merge_orders_marketing_dated (h : Store) (orders marketing : nat)
    (rows : list (Order * option Z)) (campaigns : list Campaign) (t : DateType) :
  nth_error h orders = Some (TOrders (OrdersDated rows) t) ->
  nth_error h marketing = Some (TMarketing campaigns) ->
  merge_orders_marketing orders marketing h
  = (h ++ [TMerged (snd (Federation.merge_orders_marketing
                           (OrdersDated rows) campaigns)) t],
     Returns (List.length h)).
Proof.
  intros Ho Hm. unfold merge_orders_marketing.
  rewrite (bind_returns _ _ h h _ (get_here h orders _ Ho)).
  cbn [orders_has_date].
  rewrite (bind_returns _ _ h h tt eq_refl).
  rewrite (bind_returns _ _ h h _ (get_here h orders _ Ho)).
  rewrite (bind_returns _ _ h h _ (get_here h marketing _ Hm)).
  rewrite (bind_returns _ _ h _ _ eq_refl).
  rewrite (bind_returns _ _ _ _ _ (get_fresh h [] _)).
  rewrite (bind_returns _ _ _ _ _ (put_fresh h [] _ _)).
  rewrite (bind_returns _ _ _ _ _ (get_fresh h [] _)).
  rewrite (bind_returns _ _ _ _ _ (put_fresh h [] _ _)).
  unfold ret. rewrite flag_then_name. reflexivity.
Qed.

Lemma merge_with_web_traffic_run (h : Store) (data web_traffic : nat)
    (drows : list MRow) (td : DateType) (traffic : list Traffic) (tw : DateType) :
  nth_error h data = Some (TMerged drows td) ->
  nth_error h web_traffic = Some (TTraffic traffic tw) ->
  keys_merge drows td (web_agg traffic) tw = true ->
  merge_with_web_traffic data web_traffic h
  = (h ++ [TWebAgg (web_agg traffic) tw;
           TWeb (Federation.merge_with_web_traffic drows traffic) td],
     Returns (S (List.length h))).
Proof.
  intros Hd Hw Hk. unfold merge_with_web_traffic.
  rewrite (bind_returns _ _ h h _ (get_here h web_traffic _ Hw)).
  rewrite (bind_returns _ _ h _ _ eq_refl).
  rewrite (bind_returns _ _ _ _ _ (get_old h _ data _ Hd)).
  rewrite (bind_returns _ _ _ _ _ (get_fresh h [] _)).
  rewrite Hk.
  rewrite (bind_returns _ _ (h ++ [TWebAgg (web_agg traffic) tw]) _ _ eq_refl).
  rewrite (bind_returns _ _ _ _ _ (get_fresh _ [] _)).
  rewrite (bind_returns _ _ _ _ _ (put_fresh _ [] _ _)).
  rewrite (bind_returns _ _ _ _ _ (get_fresh _ [] _)).
  rewrite (bind_returns _ _ _ _ _ (put_fresh _ [] _ _)).
  unfold ret. rewrite fill_traffic, <- app_assoc, length_app, Nat.add_1_r.
  reflexivity.
Qed.

Lemma merge_with_iot_dated (h : Store) (data iot : nat)
    (drows : list WRow) (td : DateType)
    (readings : list (Reading * option Z)) (ti : DateType) :
  nth_error h data = Some (TWeb drows td) ->
  nth_error h iot = Some (TIot (IotDated readings) ti) ->
  keys_merge drows td (iot_agg readings) ti = true ->
  merge_with_iot data iot h
  = (h ++ [TIotAgg (iot_agg readings) ti;
           TUnified (snd (Federation.merge_with_iot drows (IotDated readings))) td],
     Returns (S (List.length h))).
Proof.
  intros Hd Hi Hk. unfold merge_with_iot.
  rewrite (bind_returns _ _ h h _ (get_here h iot _ Hi)).
  cbn [iot_has_date].
  rewrite (bind_returns _ _ h h tt eq_refl).
  rewrite (bind_returns _ _ h h _ (get_here h iot _ Hi)).
  cbn [iot_rows].
  rewrite (bind_returns _ _ h _ _ eq_refl).
  rewrite (bind_returns _ _ _ _ _ (get_old h _ data _ Hd)).
  rewrite (bind_returns _ _ _ _ _ (get_fresh h [] _)).
  rewrite Hk.
  rewrite (bind_returns _ _ (h ++ [TIotAgg (iot_agg readings) ti]) _ _ eq_refl).
  rewrite (bind_returns _ _ _ _ _ (get_fresh _ [] _)).
  rewrite (bind_returns _ _ _ _ _ (put_fresh _ [] _ _)).
  rewrite (bind_returns _ _ _ _ _ (get_fresh _ [] _)).
  rewrite (bind_returns _ _ _ _ _ (put_fresh _ [] _ _)).
  unfold ret. rewrite fill_readings, <- app_assoc, length_app, Nat.add_1_r.
  reflexivity.
Qed.

Lemma keys_merge_same {A B : Type} (left : list A) (right : list B)
    (t : DateType) :
  keys_merge left t right t = true.
Proof.
  unfold keys_merge. destruct t; cbn [same_type]; apply orb_true_r.
Qed.

Lemma nth_error_old (h ext : Store) (r : nat) (t : Table) :
  nth_error h r = Some t -> nth_error (h ++ ext) r = Some t.
Proof.
  intros H. rewrite nth_error_app1; [exact H|].
  apply nth_error_Some. now rewrite H.
Qed.

(** C4: the join engine never modifies an input table in place, and its
    result is a function of the four input tables alone.  Whatever the store
    of the caller, if the four references hold normalised tables (orders
    and IoT readings with their [date] column, the three [date] columns of
    one type), [federate_all] returns without raising; the store after the
    call is the store before it, every table where it was and as it was,
    followed by the tables the stages built; and the table returned and its
    rollups are [unified_sales] and [create_aggregations] of the four input
    tables, whatever else the store holds and however often the engine
    ran before. *)
Theorem federate_all_builds_new_tables :
  forall (h : Store) (data : Data) (t : DateType)
         (rows : list (Order * option Z)) (campaigns : list Campaign)
         (traffic : list Traffic) (readings : list (Reading * option Z)),
    nth_error h (orders data) = Some (TOrders (OrdersDated rows) t) ->
    nth_error h (marketing data) = Some (TMarketing campaigns) ->
    nth_error h (web_traffic data) = Some (TTraffic traffic t) ->
    nth_error h (iot data) = Some (TIot (IotDated readings) t) ->
    let tables := mkSources (OrdersDated rows) campaigns traffic (IotDated readings) in
    exists (built : Store) (merged : nat),
      federate_all data h
      = (h ++ built,
         Returns (merged, create_aggregations (unified_sales tables)))
      /\ nth_error (h ++ built) merged = Some (TUnified (unified_sales tables) t)
      /\ nth_error h merged = None.
Proof.
  intros h data t rows campaigns traffic readings Ho Hm Hw Hi tables.
  set (m := snd (Federation.merge_orders_marketing (OrdersDated rows) campaigns)).
  set (w := Federation.merge_with_web_traffic m traffic).
  set (h1 := h ++ [TMerged m t]).
  set (h2 := h1 ++ [TWebAgg (web_agg traffic) t; TWeb w t]).
  exists [TMerged m t; TWebAgg (web_agg traffic) t; TWeb w t;
          TIotAgg (iot_agg readings) t; TUnified (unified_sales tables) t],
         (S (List.length h2)).
  assert (H1 : merge_orders_marketing (orders data) (marketing data) h
               = (h1, Returns (List.length h)))
    by exact (merge_orders_marketing_dated h _ _ rows campaigns t Ho Hm).
  assert (H2 : merge_with_web_traffic (List.length h) (web_traffic data) h1
               = (h2, Returns (S (List.length h1)))).
  { apply merge_with_web_traffic_run.
    - apply nth_error_fresh.
    - now apply nth_error_old.
    - apply keys_merge_same. }
  assert (H3 : merge_with_iot (S (List.length h1)) (iot data) h2
               = (h2 ++ [TIotAgg (iot_agg readings) t;
                         TUnified (unified_sales tables) t],
                  Returns (S (List.length h2)))).
  { apply (merge_with_iot_dated h2 _ _ w t readings t).
    - unfold h2.
      change (h1 ++ [TWebAgg (web_agg traffic) t; TWeb w t])
        with (h1 ++ [TWebAgg (web_agg traffic) t] ++ [TWeb w t]).
      rewrite app_assoc.
      replace (S (List.length h1))
        with (List.length (h1 ++ [TWebAgg (web_agg traffic) t]))
        by (rewrite length_app; simpl; lia).
      apply nth_error_fresh.
    - unfold h2, h1. now apply nth_error_old, nth_error_old.
    - apply keys_merge_same. }
  assert (Hstore : h2 ++ [TIotAgg (iot_agg readings) t;
                          TUnified (unified_sales tables) t]
                   = h ++ [TMerged m t; TWebAgg (web_agg traffic) t; TWeb w t;
                           TIotAgg (iot_agg readings) t;
                           TUnified (unified_sales tables) t]).
  { unfold h2, h1. now rewrite <- !app_assoc. }
  assert (Hu : nth_error (h2 ++ [TIotAgg (iot_agg readings) t;
                                 TUnified (unified_sales tables) t])
                         (S (List.length h2))
               = Some (TUnified (unified_sales tables) t)).
  { change (h2 ++ [TIotAgg (iot_agg readings) t;
                   TUnified (unified_sales tables) t])
      with (h2 ++ [TIotAgg (iot_agg readings) t]
               ++ [TUnified (unified_sales tables) t]).
    rewrite app_assoc.
    replace (S (List.length h2))
      with (List.length (h2 ++ [TIotAgg (iot_agg readings) t]))
      by (rewrite length_app; simpl; lia).
    apply nth_error_fresh. }
  split; [|split].
  - unfold federate_all.
    rewrite (bind_returns _ _ _ _ _ H1).
    rewrite (bind_returns _ _ _ _ _ H2).
    rewrite (bind_returns _ _ _ _ _ H3).
    rewrite (bind_returns _ _ _ _ _ (get_here _ _ _ Hu)).
    unfold ret. now rewrite Hstore.
  - rewrite <- Hstore. exact Hu.
  - apply nth_error_None. unfold h2, h1. rewrite !length_app. simpl. lia.
Qed.

Lemma federate_all_builds_new_tables_witness :
  exists (built : Store) (merged : nat),
    federate_all data_0123 (store_of scenario CalendarDate)
    = (store_of scenario CalendarDate ++ built,
       Returns (merged, create_aggregations (unified_sales scenario)))
    /\ nth_error (store_of scenario CalendarDate ++ built) merged
       = Some (TUnified (unified_sales scenario) CalendarDate)
    /\ nth_error (store_of scenario CalendarDate) merged = None.
Proof.
  apply (federate_all_builds_new_tables
           (store_of scenario CalendarDate) data_0123 CalendarDate
           (orders_rows (Federation.orders scenario))
           (Federation.marketing scenario)
           (Federation.web_traffic scenario)
           (iot_rows (Federation.iot scenario))); reflexivity.
Defined.

(** *** A run that fails half-way *)

Lemma length_update (r : nat) (t : Table) (h : Store) :
  List.length (update r t h) = List.length h.
Proof.
  revert r. induction h as [|x h IH]; intros [|r]; simpl; auto.
Qed.

Lemma nth_error_update_same (r : nat) (t t0 : Table) (h : Store) :
  nth_error h r = Some t0 -> nth_error (update r t h) r = Some t.
Proof.
  revert r. induction h as [|x h IH]; intros [|r]; simpl; try discriminate; auto.
Qed.

Lemma nth_error_update_other (r r' : nat) (t : Table) (h : Store) :
  r' <> r -> nth_error (update r t h) r' = nth_error h r'.
Proof.
  revert r r'. induction h as [|x h IH]; intros [|r] [|r'] H; simpl; auto.
  contradiction.
Qed.

Lemma put_old (h : Store) (r : nat) (t t0 : Table) :
  nth_error h r = Some t0 -> put r t h = (update r t h, Returns tt).
Proof.
  intros H. unfold put.
  replace (r <? List.length h)%nat with true; [reflexivity|].
  symmetry. apply Nat.ltb_lt, nth_error_Some. now rewrite H.
Qed.

Lemma merge_left_not_empty {L R K : Type} (keq : K -> K -> bool)
    (kl : L -> option K) (kr : R -> option K) (left : list L) (right : list R) :
  is_empty left = false -> is_empty (merge_left keq kl kr left right) = false.
Proof.
  destruct left as [|l left]; [discriminate|]. intros _.
  rewrite FederationFacts.merge_left_cons.
  now destruct (partners keq kl kr right l).
Qed.

Lemma is_empty_map {A B : Type} (f : A -> B) (l : list A) :
  is_empty (map f l) = is_empty l.
Proof. now destruct l. Qed.

Lemma merge_orders_marketing_undated (h : Store) (orders marketing : nat)
    (rows : list Order) (campaigns : list Campaign) (t : DateType) :
  nth_error h orders = Some (TOrders (OrdersNoDate rows) t) ->
  nth_error h marketing = Some (TMarketing campaigns) ->
  let h1 := update orders
                   (TOrders (orders_add_date (OrdersNoDate rows)) Datetime64) h in
  merge_orders_marketing orders marketing h
  = (h1 ++ [TMerged (snd (Federation.merge_orders_marketing
                            (OrdersNoDate rows) campaigns)) Datetime64],
     Returns (List.length h)).
Proof.
  intros Ho Hm h1.
  assert (Hne : marketing <> orders).
  { intros E. rewrite E, Ho in Hm. discriminate. }
  assert (Ho1 : nth_error h1 orders
                = Some (TOrders (orders_add_date (OrdersNoDate rows)) Datetime64))
    by exact (nth_error_update_same _ _ _ _ Ho).
  assert (Hm1 : nth_error h1 marketing = Some (TMarketing campaigns)).
  { unfold h1. now rewrite nth_error_update_other. }
  unfold merge_orders_marketing.
  rewrite (bind_returns _ _ h h _ (get_here h orders _ Ho)).
  cbn [orders_has_date].
  rewrite (bind_returns _ _ h h1 tt (put_old h orders _ _ Ho)).
  rewrite (bind_returns _ _ h1 h1 _ (get_here h1 orders _ Ho1)).
  rewrite (bind_returns _ _ h1 h1 _ (get_here h1 marketing _ Hm1)).
  cbn [orders_add_date].
  rewrite (bind_returns _ _ h1 _ _ eq_refl).
  rewrite (bind_returns _ _ _ _ _ (get_fresh h1 [] _)).
  rewrite (bind_returns _ _ _ _ _ (put_fresh h1 [] _ _)).
  rewrite (bind_returns _ _ _ _ _ (get_fresh h1 [] _)).
  rewrite (bind_returns _ _ _ _ _ (put_fresh h1 [] _ _)).
  unfold ret. rewrite flag_then_name.
  assert (Hlen : List.length h1 = List.length h) by apply length_update.
  rewrite Hlen. reflexivity.
Qed.

(** X29: handed an orders table without [date] column, its [order_date]
    parsed to [datetime64] as [normalize_orders] leaves it, the engine does
    not get through.  [merge_orders_marketing] assigns the column on the
    caller's table from [order_date], as [datetime64]; when the table has an
    order and the traffic table, normalised, has a dated record,
    [merge_with_web_traffic] then raises [ValueError] on the two types of
    [date], and the caller is left with no result and with an orders table
    that has gained a column. *)
Theorem federate_all_undated_orders_raises :
  forall (h : Store) (data : Data) (t : DateType)
         (rows : list Order) (campaigns : list Campaign)
         (traffic : list Traffic) (d : Z),
    nth_error h (orders data) = Some (TOrders (OrdersNoDate rows) t) ->
    nth_error h (marketing data) = Some (TMarketing campaigns) ->
    nth_error h (web_traffic data) = Some (TTraffic traffic CalendarDate) ->
    is_empty rows = false ->
    date_in_traffic d traffic = true ->
    exists h' : Store,
      federate_all data h = (h', Raises ValueError)
      /\ nth_error h' (orders data)
         = Some (TOrders (OrdersDated (map (fun r => (r, o_order_date r)) rows))
                         Datetime64).
Proof.
  intros h data t rows campaigns traffic d Ho Hm Hw Hrows Hd.
  set (h1 := update (orders data)
                    (TOrders (orders_add_date (OrdersNoDate rows)) Datetime64) h).
  set (m := snd (Federation.merge_orders_marketing (OrdersNoDate rows) campaigns)).
  assert (Hne : web_traffic data <> orders data).
  { intros E. rewrite E, Ho in Hw. discriminate. }
  assert (Ho1 : nth_error h1 (orders data)
                = Some (TOrders (orders_add_date (OrdersNoDate rows)) Datetime64))
    by exact (nth_error_update_same _ _ _ _ Ho).
  assert (Hw1 : nth_error h1 (web_traffic data)
                = Some (TTraffic traffic CalendarDate)).
  { unfold h1. now rewrite nth_error_update_other. }
  assert (Hlen : List.length h = List.length h1)
    by (unfold h1; now rewrite length_update).
  assert (Hm_ne : is_empty m = false).
  { unfold m, Federation.merge_orders_marketing. cbn [snd].
    rewrite is_empty_map. apply merge_left_not_empty.
    cbn [orders_add_date orders_rows]. now rewrite is_empty_map. }
  assert (Ha_ne : is_empty (web_agg traffic) = false).
  { pose proof (FederationExtra.web_agg_lookup d traffic Hd) as F.
    destruct (web_agg traffic); [discriminate | reflexivity]. }
  exists ((h1 ++ [TMerged m Datetime64]) ++ [TWebAgg (web_agg traffic) CalendarDate]).
  split.
  - unfold federate_all.
    rewrite (bind_returns _ _ _ _ _
               (merge_orders_marketing_undated h _ _ rows campaigns t Ho Hm)).
    fold h1. fold m. rewrite Hlen.
    apply bind_raises. unfold merge_with_web_traffic.
    rewrite (bind_returns _ _ _ _ _
               (get_old h1 [TMerged m Datetime64] _ _ Hw1)).
    rewrite (bind_returns _ _ (h1 ++ [TMerged m Datetime64]) _ _ eq_refl).
    rewrite (bind_returns _ _ _ _ _
               (get_old (h1 ++ [TMerged m Datetime64]) _ _ _
                        (nth_error_fresh h1 [] _))).
    rewrite length_app, Nat.add_1_r.
    assert (Hg : get (S (List.length h1))
                     ((h1 ++ [TMerged m Datetime64])
                        ++ [TWebAgg (web_agg traffic) CalendarDate])
                 = ((h1 ++ [TMerged m Datetime64])
                      ++ [TWebAgg (web_agg traffic) CalendarDate],
                    Returns (TWebAgg (web_agg traffic) CalendarDate))).
    { replace (S (List.length h1))
        with (List.length (h1 ++ [TMerged m Datetime64]))
        by (rewrite length_app; simpl; lia).
      apply get_fresh. }
    rewrite (bind_returns _ _ _ _ _ Hg).
    unfold keys_merge. rewrite Hm_ne, Ha_ne. reflexivity.
  - now apply nth_error_old, nth_error_old.
Qed.

Lemma federate_all_undated_orders_raises_witness :
  exists h' : Store,
    federate_all data_0123 (store_of scenario_undated CalendarDate)
    = (h', Raises ValueError)
    /\ nth_error h' 0%nat
       = Some (TOrders
                 (OrdersDated
                    (map (fun r => (r, o_order_date r))
                         (map fst (orders_rows (Federation.orders scenario)))))
                 Datetime64).
Proof.
  apply (federate_all_undated_orders_raises
           (store_of scenario_undated CalendarDate) data_0123 CalendarDate
           (map fst (orders_rows (Federation.orders scenario)))
           (Federation.marketing scenario_undated)
           (Federation.web_traffic scenario_undated) (day 5)); reflexivity.
Defined.

End InterpreterFacts.

(** ** Means and totals under rounding *)

Module Rounding.
Import Normalisation Samples Columns NormalisationFacts NormalisationExtra.

(** *** The mean strategy in binary64 *)

Example two_of_six_means :
  Binary64.mean Binary64.two_of_six = 0x1.6e66666666666p+4%float
  /\ Binary64.mean (Binary64.fill_mean Binary64.two_of_six)
     = 0x1.6e66666666667p+4%float.
Proof. split; vm_compute; reflexivity. Qed.

(** C8, as stated, fails: a column holding 2.8, 43.0 and four missing
    cells has the mean 22.9 (22.899999999999999) before the call; filled
    with that number, it has the mean 22.900000000000002 after it. *)
Lemma mean_fill_moves_mean :
  ~ (forall col : list float,
       Binary64.same_float (Binary64.mean (Binary64.fill_mean col))
                           (Binary64.mean col) = true).
Proof.
  intros H. specialize (H Binary64.two_of_six).
  vm_compute in H. discriminate H.
Qed.

(** *** The totals of the rollups in binary64 *)

(** Sales of 0.1, 0.2 and 0.3 total 0.6 by product (0.1 and 0.5) and
    0.6000000000000001 by country (0.30000000000000004 and 0.3). *)
Example three_sales_totals :
  Binary64.product_total Binary64.three_sales = 0x1.3333333333333p-1%float
  /\ Binary64.country_total Binary64.three_sales = 0x1.3333333333334p-1%float.
Proof. split; vm_compute; reflexivity. Qed.

Example three_sales_totals_differ :
  PrimFloat.eqb (Binary64.product_total Binary64.three_sales)
                (Binary64.country_total Binary64.three_sales) = false.
Proof. vm_compute. reflexivity. Qed.

(** *** What the mean strategy does to a column *)

Lemma exact_mean_instance (df : DataFrame) :
  Rounded.handle_missing_values series_mean df = handle_missing_values df "mean".
Proof.
  unfold Rounded.handle_missing_values, handle_missing_values.
  now destruct (missing_total df =? 0)%nat.
Qed.

Section Mean.
Variable mean : Series -> option Q.

Lemma filled_again (s : Series) :
  Rounded.filled mean (Rounded.filled mean s) = Rounded.filled mean s.
Proof.
  unfold Rounded.filled at 2 3.
  destruct (existsb isnull (s_values s)) eqn:E.
  - destruct (mean s) as [m|] eqn:Hm.
    + unfold Rounded.filled.
      replace (existsb isnull (s_values (fillna (Some m) s))) with false;
        [reflexivity|].
      symmetry. apply not_true_is_false. intros H.
      apply existsb_exists in H. destruct H as [c [Hin Hc]].
      pose proof (fillna_some_no_null m s) as H0.
      unfold count_null in H0. apply length_zero_iff_nil in H0.
      assert (Hf : In c (filter isnull (s_values (fillna (Some m) s))))
        by now apply filter_In.
      rewrite H0 in Hf. contradiction.
    + rewrite fillna_none. unfold Rounded.filled. now rewrite E, Hm, fillna_none.
  - unfold Rounded.filled. now rewrite E.
Qed.

Lemma fill_col_same (df : DataFrame) (col : string) (s : Series) :
  get_col col df = Some s ->
  get_col col (Rounded.fill_col mean df col) = Some (Rounded.filled mean s).
Proof.
  intros H. unfold Rounded.fill_col, Rounded.filled. rewrite H.
  destruct (existsb isnull (s_values s)); [apply get_set_same | exact H].
Qed.

Lemma fill_col_other (df : DataFrame) (col c : string) :
  c <> col -> get_col col (Rounded.fill_col mean df c) = get_col col df.
Proof.
  intros Hne. unfold Rounded.fill_col.
  destruct (get_col c df) as [s1|]; [|reflexivity].
  destruct (existsb isnull (s_values s1)); [|reflexivity].
  apply get_set_other. congruence.
Qed.

Lemma fill_col_step (df : DataFrame) (col c : string) (x : Series) :
  get_col col df = Some x ->
  get_col col (Rounded.fill_col mean df c) = Some x
  \/ get_col col (Rounded.fill_col mean df c) = Some (Rounded.filled mean x).
Proof.
  intros H. destruct (string_dec c col) as [->|Hne].
  - right. now apply fill_col_same.
  - left. now rewrite fill_col_other.
Qed.

Lemma loop_keeps_or_fills (col : string) (cols : list string) :
  forall (df : DataFrame) (x : Series),
    get_col col df = Some x ->
    get_col col (fold_left (Rounded.fill_col mean) cols df) = Some x
    \/ get_col col (fold_left (Rounded.fill_col mean) cols df)
       = Some (Rounded.filled mean x).
Proof.
  induction cols as [|c cols IH]; intros df x H; cbn [fold_left].
  - now left.
  - destruct (fill_col_step df col c x H) as [H1|H1].
    + now apply IH.
    + destruct (IH _ _ H1) as [H2|H2]; right; [exact H2|].
      now rewrite filled_again in H2.
Qed.

Lemma loop_fills (col : string) (cols : list string) :
  forall (df : DataFrame) (x : Series),
    In col cols ->
    get_col col df = Some x ->
    get_col col (fold_left (Rounded.fill_col mean) cols df)
    = Some (Rounded.filled mean x).
Proof.
  induction cols as [|c cols IH]; intros df x Hin H; [contradiction|].
  cbn [fold_left]. destruct (string_dec c col) as [->|Hne].
  - destruct (loop_keeps_or_fills col cols _ _ (fill_col_same df col x H))
      as [H2|H2]; [exact H2|].
    now rewrite filled_again in H2.
  - destruct Hin as [E|Hin]; [contradiction|].
    apply IH; [exact Hin|]. now rewrite fill_col_other.
Qed.

Lemma numeric_cols_In (df : DataFrame) (col : string) (s : Series) :
  get_col col df = Some s -> s_dtype s = DNumber -> In col (numeric_cols df).
Proof.
  intros Hg Hd. unfold numeric_cols.
  apply (in_map fst _ (col, s)), filter_In. split.
  - now apply get_col_In.
  - cbn [snd]. now rewrite Hd.
Qed.

Lemma no_null_not_filled (s : Series) :
  count_null s = 0%nat -> Rounded.filled mean s = s.
Proof.
  intros H. unfold Rounded.filled.
  destruct (existsb isnull (s_values s)) eqn:E; [|reflexivity].
  apply existsb_exists in E. destruct E as [c [Hin Hc]].
  unfold count_null in H. apply length_zero_iff_nil in H.
  assert (Hf : In c (filter isnull (s_values s))) by now apply filter_In.
  rewrite H in Hf. contradiction.
Qed.

Lemma handle_missing_values_mean_column (df : DataFrame) (col : string)
    (s : Series) :
  get_col col df = Some s ->
  s_dtype s = DNumber ->
  get_col col (Rounded.handle_missing_values mean df)
  = Some (Rounded.filled mean s).
Proof.
  intros Hg Hd. unfold Rounded.handle_missing_values.
  destruct (missing_total df =? 0)%nat eqn:E.
  - apply Nat.eqb_eq in E.
    rewrite no_null_not_filled; [exact Hg|].
    exact (proj1 (missing_total_zero df) E (col, s) (get_col_In col df s Hg)).
  - apply loop_fills; [now apply (numeric_cols_In df col s) | exact Hg].
Qed.

End Mean.

(** *** The mean of a column filled with an approximate mean *)

Lemma fill_shift_arith (S m : Q) (n k : nat) :
  (0 < n)%nat ->
  ((S + inject_Z (Z.of_nat k) * m) / inject_Z (Z.of_nat (n + k))
   - S / inject_Z (Z.of_nat n)
   == (inject_Z (Z.of_nat k) / inject_Z (Z.of_nat (n + k)))
      * (m - S / inject_Z (Z.of_nat n)))%Q.
Proof.
  intros Hn.
  rewrite Nat2Z.inj_add, inject_Z_plus.
  assert (Hn0 : ~ (inject_Z (Z.of_nat n) == 0)%Q).
  { unfold Qeq. simpl. lia. }
  assert (Hnk : ~ (inject_Z (Z.of_nat n) + inject_Z (Z.of_nat k) == 0)%Q).
  { rewrite <- inject_Z_plus. unfold Qeq. simpl. lia. }
  field. split; assumption.
Qed.

Lemma share_of_filled (n k : nat) :
  (0 < n)%nat ->
  (0 <= inject_Z (Z.of_nat k) / inject_Z (Z.of_nat (n + k)))%Q
  /\ (inject_Z (Z.of_nat k) / inject_Z (Z.of_nat (n + k)) <= 1)%Q.
Proof.
  intros Hn.
  assert (Hpos : (0 < inject_Z (Z.of_nat (n + k)))%Q).
  { unfold Qlt. simpl. lia. }
  split.
  - apply Qle_shift_div_l; [exact Hpos|].
    rewrite Qmult_0_l. unfold Qle. simpl. lia.
  - apply Qle_shift_div_r; [exact Hpos|].
    rewrite Qmult_1_l. unfold Qle. simpl. lia.
Qed.

Lemma mean_fillna_near (s : Series) (mu m delta : Q) :
  series_mean s = Some mu ->
  (Qabs (m - mu) <= delta)%Q ->
  exists mu' : Q,
    series_mean (fillna (Some m) s) = Some mu'
    /\ (Qabs (mu' - mu) <= delta)%Q.
Proof.
  intros Hmu Hnear.
  unfold series_mean in *. destruct s as [d l]. cbn [s_values fillna] in *.
  unfold mean_of in Hmu.
  destruct (present l) as [|x xs] eqn:Hp; [discriminate|].
  injection Hmu as Hmu.
  unfold mean_of.
  destruct (present (map (fillna_cell (Some m)) l)) as [|y ys] eqn:Hq.
  - apply (f_equal (@List.length Q)) in Hq.
    rewrite present_fill_length, Hp in Hq. simpl in Hq. lia.
  - eexists. split; [reflexivity|].
    rewrite <- Hq. unfold Qlen.
    rewrite present_fill_sum, present_fill_length, Hp.
    assert (Hn : (0 < List.length (x :: xs))%nat) by (simpl; lia).
    assert (E : (mu == Qsum (x :: xs) / inject_Z (Z.of_nat (List.length (x :: xs))))%Q)
      by (rewrite <- Hmu; reflexivity).
    rewrite E, fill_shift_arith by exact Hn.
    rewrite E in Hnear.
    destruct (share_of_filled (List.length (x :: xs)) (count_na l) Hn) as [H0 H1].
    rewrite Qabs_Qmult, (Qabs_pos _ H0).
    eapply Qle_trans; [|exact Hnear].
    rewrite <- (Qmult_1_l (Qabs _)) at 2.
    apply Qmult_le_compat_r; [exact H1 | apply Qabs_nonneg].
Qed.

(** C8, amended: under the strategy 'mean' every numeric column comes out
    with its missing cells replaced by the number that [Series.mean]
    returned for it, the other cells as they were, and the mean of the
    column after the call is the mean of its non-missing values before the
    call up to the rounding of that number: if [Series.mean] returns a
    number within [delta] of the exact mean of the non-missing values, the
    exact mean of the column after the call is within [delta] of it too (a
    column with no value at all has no mean before and none after).  The
    means are equal when the fill value is exact; as the program computes
    them in binary64 they can differ in the last place
    ([mean_fill_moves_mean]). *)
Theorem handle_missing_values_mean_within_rounding :
  forall (mean : Series -> option Q) (delta : Q)
         (df : DataFrame) (col : string) (s : Series),
    get_col col df = Some s ->
    s_dtype s = DNumber ->
    Rounded.near delta (mean s) (series_mean s) ->
    get_col col (Rounded.handle_missing_values mean df)
    = Some (Rounded.filled mean s)
    /\ Rounded.near delta (series_mean (Rounded.filled mean s)) (series_mean s).
Proof.
  intros mean delta df col s Hg Hd Hnear. split.
  - now apply handle_missing_values_mean_column.
  - unfold Rounded.near in Hnear.
    destruct (mean s) as [m|] eqn:Hm; destruct (series_mean s) as [mu|] eqn:Hmu;
      try contradiction.
    + unfold Rounded.filled. rewrite Hm.
      destruct (existsb isnull (s_values s)).
      * destruct (mean_fillna_near s mu m delta Hmu Hnear) as [mu' [H1 H2]].
        rewrite H1. exact H2.
      * rewrite Hmu. unfold Rounded.near.
        setoid_replace (mu - mu)%Q with 0%Q by ring.
        eapply Qle_trans; [|exact Hnear]. apply Qabs_nonneg.
    + unfold Rounded.filled. rewrite Hm, fillna_none.
      destruct (existsb isnull (s_values s)); rewrite Hmu; exact I.
Qed.

Lemma handle_missing_values_mean_within_rounding_witness :
  get_col "quantity" (Rounded.handle_missing_values Rounded.mean_off gappy)
  = Some (Rounded.filled Rounded.mean_off (mkSeries DNumber [Num 1; NA; Num 2]))
  /\ Rounded.near (1 # 100)
       (series_mean (Rounded.filled Rounded.mean_off
                       (mkSeries DNumber [Num 1; NA; Num 2])))
       (series_mean (mkSeries DNumber [Num 1; NA; Num 2])).
Proof.
  apply (handle_missing_values_mean_within_rounding
           Rounded.mean_off (1 # 100) gappy "quantity"
           (mkSeries DNumber [Num 1; NA; Num 2])).
  - reflexivity.
  - reflexivity.
  - vm_compute. discriminate.
Defined.

Example gappy_filled_off :
  get_col "quantity" (Rounded.handle_missing_values Rounded.mean_off gappy)
  = Some (mkSeries DNumber [Num 1; Num ((3 # 2) + (1 # 100)); Num 2]).
Proof. reflexivity. Qed.

End Rounding.
